(** * MultiAgentOrchestrator: a shallow embedding and its checked properties

    The development follows [src/agents/MultiAgentOrchestrator.py].

    Conventions of the embedding.
    - Python [float] values are rationals ([Q]); every property below is
      about comparisons, clamps and affine formulas.
    - [datetime] values are integers counting microseconds; the result of
      [total_seconds()] is the rational [us / 1000000].
    - A Python [dict] iterated by the code ([self.agents],
      [self.agent_configs], the per-call result dictionaries) is an
      insertion-ordered association list with the update-in-place
      semantics of [d[k] = v]; dictionaries that are only looked up,
      written and deleted by key ([self.trust_scores],
      [self.capability_registry]) are [gmap]s.
    - Dictionaries with a fixed key set ([performance_metrics],
      [resource_usage], [resource_limits], [performance_weights], the
      task items of an agent's local queue) are records.
    - The sources of non-determinism ([uuid.uuid4], [datetime.now],
      [np.random]) and the outcome of awaited external calls are explicit
      inputs of the functions that consume them. *)

From Stdlib Require Import ZArith QArith Qminmax Lqa List String Bool Lia Permutation Sorted.
From stdpp Require Import gmap strings.
Import ListNotations.

Local Open Scope string_scope.
Local Open Scope Z_scope.

(** ** Python built-ins used by the orchestrator *)

(** [max(a, b)] keeps its first argument unless the second is greater. *)
Definition py_max (a b : Q) : Q := if Qle_bool b a then a else b.

(** [min(a, b)] keeps its first argument unless the second is smaller. *)
Definition py_min (a b : Q) : Q := if Qle_bool a b then a else b.

Definition Qlt_bool (a b : Q) : bool := negb (Qle_bool b a).

(** [sum(xs)] over floats. *)
Definition py_sum (xs : list Q) : Q := fold_left Qplus xs 0%Q.

(** [np.mean(xs)]: [None] stands for the [nan] numpy returns on an empty
    list. *)
Definition np_mean (xs : list Q) : option Q :=
  match xs with
  | [] => None
  | _ => Some (py_sum xs / inject_Z (Z.of_nat (List.length xs)))%Q
  end.

(** Exceptions raised by the modelled code. *)
Inductive exn : Type :=
| ValueError (msg : string)
| KeyError (key : string)
| ZeroDivisionError
| TimeoutError.

Inductive result (A : Type) : Type :=
| Ok (a : A)
| Raise (e : exn).
Arguments Ok {A} a.
Arguments Raise {A} e.

(** ** Insertion-ordered dictionaries *)

Module PyDict.
Section Dict.
Context {V : Type}.

Fixpoint get (d : list (string * V)) (k : string) : option V :=
  match d with
  | [] => None
  | (k', v) :: d' => if String.eqb k' k then Some v else get d' k
  end.

(** [d[k] = v]: an existing key keeps its position, a new key goes last. *)
Fixpoint set (d : list (string * V)) (k : string) (v : V) : list (string * V) :=
  match d with
  | [] => [(k, v)]
  | (k', v') :: d' =>
      if String.eqb k' k then (k, v) :: d' else (k', v') :: set d' k v
  end.

(** [del d[k]] for a key that is present. *)
Fixpoint del (d : list (string * V)) (k : string) : list (string * V) :=
  match d with
  | [] => []
  | (k', v') :: d' => if String.eqb k' k then d' else (k', v') :: del d' k
  end.

Definition keys (d : list (string * V)) : list string := List.map fst d.
Definition values (d : list (string * V)) : list V := List.map snd d.
Definition mem (d : list (string * V)) (k : string) : bool :=
  match get d k with Some _ => true | None => false end.
End Dict.
End PyDict.

(** ** Data model *)

Inductive AgentType : Type :=
| DECISION_AGENT | DETECTION_AGENT | EXECUTION_AGENT | RISK_AGENT | MONITORING_AGENT.

Definition AgentType_value (t : AgentType) : string :=
  match t with
  | DECISION_AGENT => "decision_agent"
  | DETECTION_AGENT => "detection_agent"
  | EXECUTION_AGENT => "execution_agent"
  | RISK_AGENT => "risk_agent"
  | MONITORING_AGENT => "monitoring_agent"
  end.

Inductive AgentStatus : Type :=
| INITIALIZING | ACTIVE | PAUSED | ERROR | TERMINATED.

Definition AgentStatus_eqb (a b : AgentStatus) : bool :=
  match a, b with
  | INITIALIZING, INITIALIZING | ACTIVE, ACTIVE | PAUSED, PAUSED
  | ERROR, ERROR | TERMINATED, TERMINATED => true
  | _, _ => false
  end.

Inductive CoordinationMode : Type :=
| COLLABORATIVE | COMPETITIVE | HYBRID.

(** [resource_limits], keys [max_memory], [max_processing_time],
    [max_concurrent_tasks], [max_network_bandwidth]. *)
Record ResourceLimits : Type := {
  max_memory : Z;
  max_processing_time : Z;
  max_concurrent_tasks : Z;
  max_network_bandwidth : Z
}.

(** [performance_weights], keys [success_rate], [efficiency],
    [reliability]. *)
Record PerformanceWeights : Type := {
  w_success_rate : Q;
  w_efficiency : Q;
  w_reliability : Q
}.

Definition default_performance_weights : PerformanceWeights :=
  {| w_success_rate := 0.4; w_efficiency := 0.3; w_reliability := 0.3 |}.

Record AgentConfig : Type := {
  cfg_agent_type : AgentType;
  cfg_capabilities : list string;
  resource_limits : ResourceLimits;
  performance_weights : PerformanceWeights
}.

Record Metrics : Type := {
  success_rate : Q;
  avg_processing_time : Q;
  reliability_score : Q;
  efficiency_score : Q;
  throughput : Q
}.

Record ResourceUsage : Type := {
  memory_usage : Q;
  cpu_usage : Q;
  active_tasks : Z;
  network_usage : Q
}.

(** An entry of an agent's local queue (the dictionary built by
    [_assign_tasks]); [ti_priority] is optional because the removal path
    reads it with [.get('priority', 1)]. *)
Record TaskItem : Type := {
  ti_task_id : string;
  ti_task_type : string;
  ti_input_data : list (string * string);
  ti_deadline : option Z;
  ti_assigned_at : Z;
  ti_priority : option Z
}.

Record AgentState : Type := {
  agent_id : string;
  agent_type : AgentType;
  status : AgentStatus;
  capabilities : list string;
  performance_metrics : Metrics;
  resource_usage : ResourceUsage;
  last_heartbeat : Z;
  agent_task_queue : list TaskItem;
  completed_tasks : Z;
  failed_tasks : Z
}.

Inductive TaskStatus : Type :=
| Pending | Assigned | Running | Completed | Failed | Expired | Errored.

Record Task : Type := {
  task_id : string;
  task_type : string;
  priority : Z;
  requirements : list string;
  input_data : list (string * string);
  deadline : option Z;
  assigned_agent : option string;
  task_status : TaskStatus;
  created_at : Z
}.

(** One contribution dictionary of the coordination protocol; [c_error]
    records the presence of the ['error'] key. *)
Record Contribution : Type := {
  c_agent_id : string;
  c_contribution : Q;
  c_confidence : Q;
  c_error : bool
}.

Inductive CoordinationPayload : Type :=
| PayloadError (msg : string)
| PayloadCombined (combined_value : option Q)
                  (participating : list string)
                  (individual : list (string * Contribution))
                  (combined_mode : CoordinationMode).

Record CoordinationResult : Type := {
  coordination_id : string;
  cr_task_id : string;
  participating_agents : list string;
  cr_result : CoordinationPayload;
  cr_coordination_mode : CoordinationMode;
  cr_timestamp : Z;
  cr_success : bool
}.

Record HistoryEntry : Type := {
  h_task_id : string;
  h_agent_id : string;
  h_success : bool;
  h_processing_time : Q;
  h_timestamp : Z
}.

Record Orchestrator : Type := {
  coordination_mode : CoordinationMode;
  agents : list (string * AgentState);
  agent_configs : list (string * AgentConfig);
  task_queue : list Task;
  coordination_history : list CoordinationResult;
  coordination_events : Z;
  capability_registry : gmap string (list string);
  trust_scores : gmap (string * string) Q;
  task_history : list HistoryEntry;
  is_running : bool;
  (** number of [_assign_tasks] coroutines handed to
      [asyncio.create_task] and not yet run *)
  scheduled_assign_cycles : nat
}.

(** [MultiAgentOrchestrator.__init__] *)
Definition init (mode : CoordinationMode) : Orchestrator :=
  {| coordination_mode := mode;
     agents := [];
     agent_configs := [];
     task_queue := [];
     coordination_history := [];
     coordination_events := 0;
     capability_registry := ∅;
     trust_scores := ∅;
     task_history := [];
     is_running := false;
     scheduled_assign_cycles := 0 |}.

(** ** Field updates *)

Definition set_agents (st : Orchestrator) (x : list (string * AgentState)) : Orchestrator :=
  {| coordination_mode := coordination_mode st; agents := x;
     agent_configs := agent_configs st; task_queue := task_queue st;
     coordination_history := coordination_history st;
     coordination_events := coordination_events st;
     capability_registry := capability_registry st;
     trust_scores := trust_scores st; task_history := task_history st;
     is_running := is_running st;
     scheduled_assign_cycles := scheduled_assign_cycles st |}.

Definition set_agent_configs (st : Orchestrator) (x : list (string * AgentConfig)) : Orchestrator :=
  {| coordination_mode := coordination_mode st; agents := agents st;
     agent_configs := x; task_queue := task_queue st;
     coordination_history := coordination_history st;
     coordination_events := coordination_events st;
     capability_registry := capability_registry st;
     trust_scores := trust_scores st; task_history := task_history st;
     is_running := is_running st;
     scheduled_assign_cycles := scheduled_assign_cycles st |}.

Definition set_task_queue (st : Orchestrator) (x : list Task) : Orchestrator :=
  {| coordination_mode := coordination_mode st; agents := agents st;
     agent_configs := agent_configs st; task_queue := x;
     coordination_history := coordination_history st;
     coordination_events := coordination_events st;
     capability_registry := capability_registry st;
     trust_scores := trust_scores st; task_history := task_history st;
     is_running := is_running st;
     scheduled_assign_cycles := scheduled_assign_cycles st |}.

Definition set_coordination_history (st : Orchestrator) (x : list CoordinationResult) : Orchestrator :=
  {| coordination_mode := coordination_mode st; agents := agents st;
     agent_configs := agent_configs st; task_queue := task_queue st;
     coordination_history := x;
     coordination_events := coordination_events st;
     capability_registry := capability_registry st;
     trust_scores := trust_scores st; task_history := task_history st;
     is_running := is_running st;
     scheduled_assign_cycles := scheduled_assign_cycles st |}.

Definition set_coordination_events (st : Orchestrator) (x : Z) : Orchestrator :=
  {| coordination_mode := coordination_mode st; agents := agents st;
     agent_configs := agent_configs st; task_queue := task_queue st;
     coordination_history := coordination_history st;
     coordination_events := x;
     capability_registry := capability_registry st;
     trust_scores := trust_scores st; task_history := task_history st;
     is_running := is_running st;
     scheduled_assign_cycles := scheduled_assign_cycles st |}.

Definition set_capability_registry (st : Orchestrator) (x : gmap string (list string)) : Orchestrator :=
  {| coordination_mode := coordination_mode st; agents := agents st;
     agent_configs := agent_configs st; task_queue := task_queue st;
     coordination_history := coordination_history st;
     coordination_events := coordination_events st;
     capability_registry := x;
     trust_scores := trust_scores st; task_history := task_history st;
     is_running := is_running st;
     scheduled_assign_cycles := scheduled_assign_cycles st |}.

Definition set_trust_scores (st : Orchestrator) (x : gmap (string * string) Q) : Orchestrator :=
  {| coordination_mode := coordination_mode st; agents := agents st;
     agent_configs := agent_configs st; task_queue := task_queue st;
     coordination_history := coordination_history st;
     coordination_events := coordination_events st;
     capability_registry := capability_registry st;
     trust_scores := x; task_history := task_history st;
     is_running := is_running st;
     scheduled_assign_cycles := scheduled_assign_cycles st |}.

Definition set_scheduled_assign_cycles (st : Orchestrator) (x : nat) : Orchestrator :=
  {| coordination_mode := coordination_mode st; agents := agents st;
     agent_configs := agent_configs st; task_queue := task_queue st;
     coordination_history := coordination_history st;
     coordination_events := coordination_events st;
     capability_registry := capability_registry st;
     trust_scores := trust_scores st; task_history := task_history st;
     is_running := is_running st;
     scheduled_assign_cycles := x |}.

Definition set_status (a : AgentState) (s : AgentStatus) : AgentState :=
  {| agent_id := agent_id a; agent_type := agent_type a; status := s;
     capabilities := capabilities a;
     performance_metrics := performance_metrics a;
     resource_usage := resource_usage a;
     last_heartbeat := last_heartbeat a;
     agent_task_queue := agent_task_queue a;
     completed_tasks := completed_tasks a; failed_tasks := failed_tasks a |}.

Definition set_performance_metrics (a : AgentState) (m : Metrics) : AgentState :=
  {| agent_id := agent_id a; agent_type := agent_type a; status := status a;
     capabilities := capabilities a;
     performance_metrics := m;
     resource_usage := resource_usage a;
     last_heartbeat := last_heartbeat a;
     agent_task_queue := agent_task_queue a;
     completed_tasks := completed_tasks a; failed_tasks := failed_tasks a |}.

Definition set_resource_usage (a : AgentState) (u : ResourceUsage) : AgentState :=
  {| agent_id := agent_id a; agent_type := agent_type a; status := status a;
     capabilities := capabilities a;
     performance_metrics := performance_metrics a;
     resource_usage := u;
     last_heartbeat := last_heartbeat a;
     agent_task_queue := agent_task_queue a;
     completed_tasks := completed_tasks a; failed_tasks := failed_tasks a |}.

Definition set_last_heartbeat (a : AgentState) (t : Z) : AgentState :=
  {| agent_id := agent_id a; agent_type := agent_type a; status := status a;
     capabilities := capabilities a;
     performance_metrics := performance_metrics a;
     resource_usage := resource_usage a;
     last_heartbeat := t;
     agent_task_queue := agent_task_queue a;
     completed_tasks := completed_tasks a; failed_tasks := failed_tasks a |}.

Definition set_reliability_score (m : Metrics) (r : Q) : Metrics :=
  {| success_rate := success_rate m;
     avg_processing_time := avg_processing_time m;
     reliability_score := r;
     efficiency_score := efficiency_score m;
     throughput := throughput m |}.

(** ** A state-and-exception monad for the methods that mutate [self] *)

Definition M (A : Type) : Type := Orchestrator -> result A * Orchestrator.

Definition ret {A} (a : A) : M A := fun st => (Ok a, st).
Definition raise {A} (e : exn) : M A := fun st => (Raise e, st).
Definition bind {A B} (c : M A) (k : A -> M B) : M B :=
  fun st =>
    match c st with
    | (Ok a, st') => k a st'
    | (Raise e, st') => (Raise e, st')
    end.
Definition get_state : M Orchestrator := fun st => (Ok st, st).
Definition modify (f : Orchestrator -> Orchestrator) : M unit :=
  fun st => (Ok tt, f st).

Notation "'let*' x ':=' c 'in' k" := (bind c (fun x => k))
  (at level 10, x name, c at level 100, k at level 200).
Notation "c ';;' k" := (bind c (fun _ => k))
  (at level 100, k at level 200, right associativity).

(** [for i, x in enumerate(xs): body(i, x)], starting the count at [i]. *)
Fixpoint for_each {X} (xs : list X) (i : nat) (body : nat -> X -> M unit) : M unit :=
  match xs with
  | [] => ret tt
  | x :: xs' => body i x ;; for_each xs' (S i) body
  end.

(** ** AgentRegistry *)

(** [_get_resource_limits] *)
Definition _get_resource_limits (t : AgentType) : ResourceLimits :=
  match t with
  | DECISION_AGENT =>
      {| max_memory := 2048; max_processing_time := 60;
         max_concurrent_tasks := 3; max_network_bandwidth := 100 |}
  | DETECTION_AGENT =>
      {| max_memory := 1024; max_processing_time := 30;
         max_concurrent_tasks := 8; max_network_bandwidth := 100 |}
  | EXECUTION_AGENT =>
      {| max_memory := 1024; max_processing_time := 10;
         max_concurrent_tasks := 10; max_network_bandwidth := 100 |}
  | RISK_AGENT =>
      {| max_memory := 512; max_processing_time := 60;
         max_concurrent_tasks := 15; max_network_bandwidth := 100 |}
  | MONITORING_AGENT =>
      {| max_memory := 1024; max_processing_time := 5;
         max_concurrent_tasks := 20; max_network_bandwidth := 100 |}
  end.

(** [f"{agent_type.value}_{uuid.uuid4().hex[:8]}"], the eight hexadecimal
    digits being the input [hex8]. *)
Definition make_agent_id (t : AgentType) (hex8 : string) : string :=
  AgentType_value t ++ "_" ++ hex8.

Definition initial_metrics : Metrics :=
  {| success_rate := 1.0; avg_processing_time := 0.0;
     reliability_score := 1.0; efficiency_score := 1.0; throughput := 0.0 |}.

Definition initial_resource_usage : ResourceUsage :=
  {| memory_usage := 0.0; cpu_usage := 0.0; active_tasks := 0;
     network_usage := 0.0 |}.

(** [self.capability_registry[capability].append(agent_id)] on a
    [defaultdict(list)]. *)
Definition registry_append (reg : gmap string (list string)) (cap aid : string)
  : gmap string (list string) :=
  <[cap := (default [] (reg !! cap) ++ [aid])%list]> reg.

(** The loop of [create_agent] seeding trust with every existing agent. *)
Definition seed_trust (aid : string) (ids : list string)
    (ts : gmap (string * string) Q) : gmap (string * string) Q :=
  fold_left
    (fun ts other =>
       if String.eqb other aid then ts
       else <[(other, aid) := 0.5%Q]> (<[(aid, other) := 0.5%Q]> ts))
    ids ts.

(** [create_agent] up to its only suspension point
    ([await asyncio.sleep(0.05)]): the agent is registered with status
    [INITIALIZING]. Returns the new agent id. *)
Definition create_agent_register (t : AgentType) (caps : list string)
    (hex8 : string) (now : Z) : M string :=
  fun st =>
    let aid := make_agent_id t hex8 in
    let config :=
      {| cfg_agent_type := t; cfg_capabilities := caps;
         resource_limits := _get_resource_limits t;
         performance_weights := default_performance_weights |} in
    let state :=
      {| agent_id := aid; agent_type := t; status := INITIALIZING;
         capabilities := caps; performance_metrics := initial_metrics;
         resource_usage := initial_resource_usage; last_heartbeat := now;
         agent_task_queue := []; completed_tasks := 0; failed_tasks := 0 |} in
    let st1 := set_agents st (PyDict.set (agents st) aid state) in
    let st2 := set_agent_configs st1 (PyDict.set (agent_configs st1) aid config) in
    let st3 :=
      set_capability_registry st2
        (fold_left (fun reg cap => registry_append reg cap aid) caps
           (capability_registry st2)) in
    let st4 :=
      set_trust_scores st3
        (seed_trust aid (PyDict.keys (agents st3)) (trust_scores st3)) in
    (Ok aid, st4).

(** [create_agent] after the suspension point: the agent registered by
    the call becomes [ACTIVE]; nothing changes when it has been removed
    in between. *)
Definition create_agent_activate (aid : string) : M unit :=
  fun st =>
    match PyDict.get (agents st) aid with
    | Some a => (Ok tt, set_agents st (PyDict.set (agents st) aid (set_status a ACTIVE)))
    | None => (Ok tt, st)
    end.

(** ** TrustLedger *)

Definition clamp_trust (x : Q) : Q := py_max 0.1 (py_min 1.0 x).

(** [if key in self.trust_scores: self.trust_scores[key] = max(0.1, min(1.0, self.trust_scores[key] + trust_change))] *)
Definition bump_trust (change : Q) (ts : gmap (string * string) Q)
    (key : string * string) : gmap (string * string) Q :=
  match ts !! key with
  | Some v => <[key := clamp_trust (v + change)]> ts
  | None => ts
  end.

(** [_update_trust_scores] *)
Definition _update_trust_scores (aid : string) (success : bool) : M unit :=
  fun st =>
    let trust_change : Q := if success then 0.05%Q else (-0.1)%Q in
    let ts :=
      fold_left
        (fun ts other =>
           if String.eqb other aid then ts
           else bump_trust trust_change
                  (bump_trust trust_change ts (aid, other)) (other, aid))
        (PyDict.keys (agents st)) (trust_scores st) in
    (Ok tt, set_trust_scores st ts).

(** ** TaskQueue *)

(** The sort key [(x.priority, x.created_at)] and the [<] of Python
    tuples on it. *)
Definition sort_key (t : Task) : Z * Z := (priority t, created_at t).

Definition key_ltb (a b : Z * Z) : bool :=
  (fst a <? fst b) || ((fst a =? fst b) && (snd a <? snd b)).

(** A stable ascending sort on the key; [insert_sorted] puts [x], which
    precedes the elements of [l] in the input, before the first element
    that is not smaller than it. *)
Fixpoint insert_sorted (x : Task) (l : list Task) : list Task :=
  match l with
  | [] => [x]
  | y :: l' =>
      if key_ltb (sort_key y) (sort_key x) then y :: insert_sorted x l'
      else x :: y :: l'
  end.

Definition stable_sort (l : list Task) : list Task :=
  fold_right insert_sorted [] l.

(** [l.sort(key=..., reverse=True)]: CPython reverses the list, sorts it
    stably in ascending order and reverses the outcome, so that elements
    with equal keys keep their original relative order. *)
Definition sort_reverse (l : list Task) : list Task :=
  rev (stable_sort (rev l)).

Definition clamp_priority (p : Z) : Z := Z.max 1 (Z.min 10 p).

Definition make_task_id (hex8 : string) : string := "TASK_" ++ hex8.

(** The [Task(...)] built by [submit_task]. *)
Definition new_task (hex8 : string) (now : Z) (ttype : string)
    (reqs : list string) (input : list (string * string)) (prio : Z)
    (dl : option Z) : Task :=
  {| task_id := make_task_id hex8; task_type := ttype;
     priority := clamp_priority prio; requirements := reqs;
     input_data := input; deadline := dl; assigned_agent := None;
     task_status := Pending; created_at := now |}.

Definition is_empty {X} (l : list X) : bool :=
  match l with [] => true | _ => false end.

(** [submit_task]; [hex8] and [now] are the values [uuid.uuid4] and
    [datetime.now] return during the call. *)
Definition submit_task (hex8 : string) (now : Z) (ttype : string)
    (reqs : list string) (input : list (string * string)) (prio : Z)
    (dl : option Z) : M string :=
  if is_empty reqs then raise (ValueError "Task must have at least one requirement")
  else if is_empty input then raise (ValueError "Task must have input data")
  else
    let task := new_task hex8 now ttype reqs input prio dl in
    modify (fun st => set_task_queue st (task_queue st ++ [task])%list) ;;
    modify (fun st => set_task_queue st (sort_reverse (task_queue st))) ;;
    modify (fun st => set_scheduled_assign_cycles st (S (scheduled_assign_cycles st))) ;;
    ret (task_id task).

(** ** PerformanceTracker *)

(** [xs[-n:]] *)
Definition last_n {X} (n : nat) (xs : list X) : list X :=
  skipn (List.length xs - n) xs.

Definition bool_to_float (b : bool) : Q := if b then 1.0%Q else 0.0%Q.

(** The reliability update of [_update_agent_performance]. *)
Definition update_reliability (success : bool) (r : Q) : Q :=
  if success then py_min 1.0 (r + 0.02 * (1 - r))%Q
  else py_max 0.1 (r - 0.05 * r)%Q.

(** [_update_agent_performance] *)
Definition _update_agent_performance (aid : string) (success : bool)
    (processing_time : Q) : M unit :=
  fun st =>
    match PyDict.get (agents st) aid with
    | None => (Ok tt, st)
    | Some a =>
        let m := performance_metrics a in
        let recent_tasks :=
          List.filter (fun t => String.eqb (h_agent_id t) aid)
            (last_n 20 (task_history st)) in
        let learning_rate : Q :=
          if (List.length recent_tasks <? 10)%nat then 0.1%Q else 0.05%Q in
        let current_success := bool_to_float success in
        let sr := (learning_rate * current_success
                   + (1 - learning_rate) * success_rate m)%Q in
        let apt :=
          if Qlt_bool 0 processing_time
          then (learning_rate * processing_time
                + (1 - learning_rate) * avg_processing_time m)%Q
          else avg_processing_time m in
        let rel := update_reliability success (reliability_score m) in
        let max_expected_time : Q := 10.0%Q in
        let efficiency :=
          (1.0 - py_min processing_time max_expected_time / max_expected_time)%Q in
        let eff := (learning_rate * efficiency
                    + (1 - learning_rate) * efficiency_score m)%Q in
        let total_tasks := completed_tasks a + failed_tasks a in
        let thr :=
          if 0 <? total_tasks
          then (inject_Z (completed_tasks a) / inject_Z total_tasks * 60)%Q
          else throughput m in
        let m' :=
          {| success_rate := sr; avg_processing_time := apt;
             reliability_score := rel; efficiency_score := eff;
             throughput := thr |} in
        (Ok tt,
         set_agents st (PyDict.set (agents st) aid (set_performance_metrics a m')))
    end.

(** ** SelectionStrategies *)

(** [len(set(reqs) & set(caps))] *)
Definition capability_match_count (reqs caps : list string) : nat :=
  List.length
    (List.filter (fun r => existsb (String.eqb r) caps)
       (nodup String.string_dec reqs)).

(** [max(0.0, min(1.0, total_score))] where [None] is [nan]: every
    comparison with [nan] is false, so [min(1.0, nan)] is [1.0]. *)
Definition clamp_score (total : option Q) : Q :=
  match total with
  | Some x => py_max 0.0 (py_min 1.0 x)
  | None => py_max 0.0 1.0
  end.

(** The body of the loop of [_select_agent_collaborative]: the score
    stored for [aid]. *)
Definition collaborative_score (st : Orchestrator) (task : Task) (aid : string)
  : result Q :=
  match PyDict.get (agents st) aid with
  | None => Raise (KeyError aid)
  | Some a =>
      match PyDict.get (agent_configs st) aid with
      | None => Raise (KeyError aid)
      | Some c =>
          let m := performance_metrics a in
          let w := performance_weights c in
          let performance_score :=
            (success_rate m * w_success_rate w
             + efficiency_score m * w_efficiency w
             + reliability_score m * w_reliability w)%Q in
          let current_load := Z.of_nat (List.length (agent_task_queue a)) in
          let max_load := max_concurrent_tasks (resource_limits c) in
          let load_score :=
            if 0 <? max_load
            then (1 - inject_Z current_load / inject_Z max_load)%Q
            else 1.0%Q in
          let capability_match :=
            capability_match_count (requirements task) (capabilities a) in
          if is_empty (requirements task) then Raise ZeroDivisionError
          else
            let capability_score :=
              (inject_Z (Z.of_nat capability_match)
               / inject_Z (Z.of_nat (List.length (requirements task))))%Q in
            let trust_score :=
              np_mean
                (List.map
                   (fun other => default 0.5%Q (trust_scores st !! (aid, other)))
                   (List.filter (fun other => negb (String.eqb other aid))
                      (PyDict.keys (agents st)))) in
            let total_score :=
              match trust_score with
              | None => None
              | Some t =>
                  Some (performance_score * 0.35 + load_score * 0.25
                        + capability_score * 0.25 + t * 0.15)%Q
              end in
            Ok (clamp_score total_score)
      end
  end.

(** [max(d.items(), key=lambda x: x[1])[0]]: the first key, in insertion
    order, whose value no later value exceeds. *)
Fixpoint argmax_from (best : string * Q) (d : list (string * Q)) : string :=
  match d with
  | [] => fst best
  | kv :: d' =>
      if Qlt_bool (snd best) (snd kv) then argmax_from kv d'
      else argmax_from best d'
  end.

Definition argmax (d : list (string * Q)) : result string :=
  match d with
  | [] => Raise (ValueError "max() arg is an empty sequence")
  | kv :: d' => Ok (argmax_from kv d')
  end.

(** The scoring loop shared by the strategies: fill a dictionary with a
    score per agent, in the order of [ids]. *)
Fixpoint score_all {S} (score : string -> S -> result Q * S)
    (ids : list string) (acc : list (string * Q)) (s : S)
  : result (list (string * Q)) * S :=
  match ids with
  | [] => (Ok acc, s)
  | aid :: ids' =>
      match score aid s with
      | (Ok x, s') => score_all score ids' (PyDict.set acc aid x) s'
      | (Raise e, s') => (Raise e, s')
      end
  end.

(** [_select_agent_collaborative] *)
Definition _select_agent_collaborative (st : Orchestrator) (task : Task)
    (ids : list string) : result string :=
  match score_all (fun aid (_ : unit) => (collaborative_score st task aid, tt))
          ids [] tt with
  | (Ok scores, _) => argmax scores
  | (Raise e, _) => Raise e
  end.

Section Random.
(** The stream of values drawn from [np.random]: [rand i] is the [i]-th
    draw, a number of the unit interval; the cursor counts the draws
    made so far. *)
Variable rand : nat -> Q.

(** [np.random.uniform(low, high)] *)
Definition uniform (low high : Q) (cursor : nat) : Q * nat :=
  ((low + (high - low) * rand cursor)%Q, S cursor).

(** The body of the loop of [_select_agent_competitive]. *)
Definition competitive_bid (st : Orchestrator) (task : Task) (aid : string)
    (cursor : nat) : result Q * nat :=
  match PyDict.get (agents st) aid with
  | None => (Raise (KeyError aid), cursor)
  | Some a =>
      let performance := success_rate (performance_metrics a) in
      let capability_match :=
        capability_match_count (requirements task) (capabilities a) in
      let efficiency := efficiency_score (performance_metrics a) in
      let base_bid :=
        (performance * inject_Z (Z.of_nat capability_match) * efficiency)%Q in
      let '(bid_variation, cursor') := uniform 0.9 1.1 cursor in
      (Ok (base_bid * bid_variation * (inject_Z (priority task) / 10.0))%Q,
       cursor')
  end.

(** [_select_agent_competitive] *)
Definition _select_agent_competitive (st : Orchestrator) (task : Task)
    (ids : list string) (cursor : nat) : result string * nat :=
  match score_all (competitive_bid st task) ids [] cursor with
  | (Ok bids, cursor') => (argmax bids, cursor')
  | (Raise e, cursor') => (Raise e, cursor')
  end.

(** [_select_agent_hybrid] *)
Definition _select_agent_hybrid (st : Orchestrator) (task : Task)
    (ids : list string) (cursor : nat) : result string * nat :=
  if (8 <=? priority task) || (3 <? List.length (requirements task))%nat
  then (_select_agent_collaborative st task ids, cursor)
  else if priority task <=? 3
  then _select_agent_competitive st task ids cursor
  else
    match _select_agent_collaborative st task ids with
    | Raise e => (Raise e, cursor)
    | Ok collaborative_choice =>
        match _select_agent_competitive st task ids cursor with
        | (Raise e, cursor') => (Raise e, cursor')
        | (Ok competitive_choice, cursor') =>
            if Qlt_bool 0.3 (rand cursor')
            then (Ok collaborative_choice, S cursor')
            else (Ok competitive_choice, S cursor')
        end
    end.

(** [_select_agent_for_task] *)
Definition _select_agent_for_task (st : Orchestrator) (task : Task)
    (suitable_agents : list string) (cursor : nat)
  : result (option string) * nat :=
  match suitable_agents with
  | [] => (Ok None, cursor)
  | [only] => (Ok (Some only), cursor)
  | _ =>
      let '(r, cursor') :=
        match coordination_mode st with
        | COLLABORATIVE =>
            (_select_agent_collaborative st task suitable_agents, cursor)
        | COMPETITIVE =>
            _select_agent_competitive st task suitable_agents cursor
        | HYBRID => _select_agent_hybrid st task suitable_agents cursor
        end in
      match r with
      | Ok aid => (Ok (Some aid), cursor')
      | Raise e => (Raise e, cursor')
      end
  end.
End Random.

(** ** CoordinationCoordinator *)

(** What awaiting one contribution call yields: the call returned a
    contribution and a confidence, it raised, or it was still running
    when the window of [asyncio.wait_for] closed. *)
Inductive CallOutcome : Type :=
| Returned (contribution confidence : Q)
| Raised
| NotCompleted.

Definition not_completed (c : CallOutcome) : bool :=
  match c with NotCompleted => true | _ => false end.

(** Awaiting [asyncio.wait_for] on the [asyncio.gather] of the calls, with
    [return_exceptions=True] and [timeout=10.0]: the gathered list when every call is over in time
    ([None] for a call that raised), [TimeoutError] otherwise. *)
Definition gather_wait_for (calls : list CallOutcome)
  : result (list (option (Q * Q))) :=
  if existsb not_completed calls then Raise TimeoutError
  else
    Ok (List.map
          (fun c =>
             match c with
             | Returned x y => Some (x, y)
             | _ => None
             end)
          calls).

(** The entry stored for a call that raised. *)
Definition zero_entry (aid : string) : Contribution :=
  {| c_agent_id := aid; c_contribution := 0.0; c_confidence := 0.0;
     c_error := true |}.

(** The entry stored for the agent at position [i]: the gathered result
    when there is one ([i < len(results)]) and it is not an exception,
    the zero entry otherwise. *)
Definition make_entry (aid : string) (results : list (option (Q * Q)))
    (i : nat) : Contribution :=
  match nth_error results i with
  | Some (Some (x, y)) =>
      {| c_agent_id := aid; c_contribution := x; c_confidence := y;
         c_error := false |}
  | _ => zero_entry aid
  end.

(** The loop [for i, agent_id in enumerate(available_agents)] filling
    [coordination_results]. *)
Fixpoint process_results (available : list string) (i : nat)
    (results : list (option (Q * Q))) (acc : list (string * Contribution))
  : list (string * Contribution) :=
  match available with
  | [] => acc
  | aid :: rest =>
      process_results rest (S i) results
        (PyDict.set acc aid (make_entry aid results i))
  end.

(** The loop of the collaborative branch of
    [_combine_coordination_results]: the weighted contributions and the
    total weight. *)
Fixpoint collaborative_weights (st : Orchestrator)
    (results : list (string * Contribution)) (weighted : list Q)
    (total_weight : Q) : result (list Q * Q) :=
  match results with
  | [] => Ok (weighted, total_weight)
  | (aid, r) :: rest =>
      if c_error r then collaborative_weights st rest weighted total_weight
      else
        match PyDict.get (agents st) aid with
        | None => Raise (KeyError aid)
        | Some a =>
            let agent_weight :=
              (c_confidence r * reliability_score (performance_metrics a))%Q in
            collaborative_weights st rest
              (weighted ++ [(c_contribution r * agent_weight)%Q])%list
              (total_weight + agent_weight)%Q
        end
  end.

Definition collaborative_value (st : Orchestrator)
    (results : list (string * Contribution)) : result (option Q) :=
  match collaborative_weights st results [] 0%Q with
  | Raise e => Raise e
  | Ok (weighted, total_weight) =>
      if Qlt_bool 0 total_weight
      then Ok (Some (py_sum weighted / total_weight)%Q)
      else Ok (np_mean (List.map c_contribution (PyDict.values results)))
  end.

(** The loop of the competitive branch: best score and best
    contribution so far. *)
Fixpoint competitive_best (results : list (string * Contribution))
    (best_score best_contribution : Q) : Q * Q :=
  match results with
  | [] => (best_score, best_contribution)
  | (_, r) :: rest =>
      if c_error r then competitive_best rest best_score best_contribution
      else
        let score := (c_contribution r * c_confidence r)%Q in
        if Qlt_bool best_score score
        then competitive_best rest score (c_contribution r)
        else competitive_best rest best_score best_contribution
  end.

Definition competitive_value (results : list (string * Contribution)) : Q :=
  let '(best_score, best_contribution) := competitive_best results (-1)%Q 0%Q in
  if Qle_bool 0 best_score then best_contribution else 0.0%Q.

(** Arithmetic on floats that may be [nan]. *)
Definition nan_lift2 (f : Q -> Q -> Q) (a b : option Q) : option Q :=
  match a, b with
  | Some x, Some y => Some (f x y)
  | _, _ => None
  end.

(** [_combine_coordination_results] *)
Definition _combine_coordination_results (st : Orchestrator)
    (results : list (string * Contribution)) (mode : CoordinationMode)
  : result CoordinationPayload :=
  if is_empty results then Ok (PayloadError "No results to combine")
  else
    let finish (v : option Q) :=
      Ok (PayloadCombined v (PyDict.keys results) results mode) in
    match mode with
    | COLLABORATIVE =>
        match collaborative_value st results with
        | Raise e => Raise e
        | Ok v => finish v
        end
    | COMPETITIVE => finish (Some (competitive_value results))
    | HYBRID =>
        match collaborative_value st results with
        | Raise e => Raise e
        | Ok collaborative_result =>
            let competitive_result := Some (competitive_value results) in
            let collaborative_quality :=
              np_mean (List.map c_confidence (PyDict.values results)) in
            finish
              (nan_lift2 Qplus
                 (nan_lift2 Qmult collaborative_result collaborative_quality)
                 (nan_lift2 Qmult competitive_result
                    (nan_lift2 Qminus (Some 1%Q) collaborative_quality)))
        end
    end.

Definition is_available (st : Orchestrator) (aid : string) : bool :=
  match PyDict.get (agents st) aid with
  | Some a => AgentStatus_eqb (status a) ACTIVE
  | None => false
  end.

Definition make_coordination_id (hex8 : string) : string := "COORD_" ++ hex8.

(** [coordinate_agents]; [calls i] is the outcome of awaiting the
    contribution call issued for the [i]-th available agent. *)
Definition coordinate_agents (tid : string) (agent_ids : list string)
    (mode : CoordinationMode) (calls : nat -> CallOutcome) (hex8 : string)
    (now : Z) : M CoordinationResult :=
  modify (fun st => set_coordination_events st (coordination_events st + 1)) ;;
  let* st := get_state in
  let available_agents := List.filter (is_available st) agent_ids in
  if is_empty available_agents then
    ret {| coordination_id := make_coordination_id hex8; cr_task_id := tid;
           participating_agents := [];
           cr_result := PayloadError "No available agents for coordination";
           cr_coordination_mode := mode; cr_timestamp := now;
           cr_success := false |}
  else
    match gather_wait_for
            (List.map calls (seq 0 (List.length available_agents))) with
    | Raise TimeoutError =>
        let error_result :=
          {| coordination_id := make_coordination_id hex8; cr_task_id := tid;
             participating_agents := available_agents;
             cr_result := PayloadError "Coordination timeout";
             cr_coordination_mode := mode; cr_timestamp := now;
             cr_success := false |} in
        modify (fun st => set_coordination_history st
                            (coordination_history st ++ [error_result])%list) ;;
        ret error_result
    | Raise e => raise e
    | Ok results =>
        let coordination_results :=
          process_results available_agents 0 results [] in
        match _combine_coordination_results st coordination_results mode with
        | Raise e => raise e
        | Ok combined_result =>
            let coordination_result :=
              {| coordination_id := make_coordination_id hex8;
                 cr_task_id := tid;
                 participating_agents := available_agents;
                 cr_result := combined_result;
                 cr_coordination_mode := mode; cr_timestamp := now;
                 cr_success := true |} in
            modify (fun st => set_coordination_history st
                                (coordination_history st ++ [coordination_result])%list) ;;
            ret coordination_result
        end
    end.

(** ** HealthMonitor and agent removal *)

(** [l.remove(x)]: drops the first occurrence. *)
Fixpoint remove_first (x : string) (l : list string) : list string :=
  match l with
  | [] => []
  | y :: l' => if String.eqb y x then l' else y :: remove_first x l'
  end.

(** [if agent_id in self.capability_registry[capability]:
    self.capability_registry[capability].remove(agent_id)]; reading a
    missing key of the [defaultdict] creates it. *)
Definition registry_remove (reg : gmap string (list string)) (cap aid : string)
  : gmap string (list string) :=
  <[cap := remove_first aid (default [] (reg !! cap))]> reg.

(** The end of [_remove_agent], once the resubmissions are over: the
    agent [a], registered under [aid], leaves the capability registry,
    the trust ledger, [self.agents] and [self.agent_configs]. *)
Definition unregister_agent (aid : string) (a : AgentState)
    (st : Orchestrator) : Orchestrator :=
  let st1 :=
    set_capability_registry st
      (fold_left (fun reg cap => registry_remove reg cap aid)
         (capabilities a) (capability_registry st)) in
  let st2 :=
    set_trust_scores st1
      (filter (fun kv : (string * string) * Q =>
                 fst (fst kv) <> aid /\ snd (fst kv) <> aid)
         (trust_scores st1)) in
  let st3 := set_agents st2 (PyDict.del (agents st2) aid) in
  set_agent_configs st3 (PyDict.del (agent_configs st3) aid).

(** [_remove_agent]; [draws i] gives the identifier and the time drawn by
    the [i]-th resubmission. *)
Definition _remove_agent (aid : string) (draws : nat -> string * Z) : M unit :=
  let* st := get_state in
  match PyDict.get (agents st) aid with
  | None => ret tt
  | Some a =>
      for_each (agent_task_queue a) 0
        (fun i task_item =>
           submit_task (fst (draws i)) (snd (draws i)) (ti_task_type task_item)
             [] (ti_input_data task_item) (default 1 (ti_priority task_item))
             None ;;
           ret tt) ;;
      modify (unregister_agent aid a)
  end.

(** [(current_time - last_heartbeat).total_seconds()] *)
Definition total_seconds (us : Z) : Q := (inject_Z us / 1000000)%Q.

(** One resource-usage sample: the three draws of [np.random.uniform]
    made for an agent. *)
Record UsageSample : Type := {
  s_memory : Q;
  s_cpu : Q;
  s_network : Q
}.

(** The body of the loop of [_monitor_agents] over one agent. *)
Definition monitor_agent (current_time : Z) (u : UsageSample) (a : AgentState)
  : AgentState :=
  let time_since_heartbeat := total_seconds (current_time - last_heartbeat a) in
  let a1 :=
    if Qlt_bool 300 time_since_heartbeat then set_status a ERROR else a in
  let a2 :=
    set_resource_usage a1
      {| memory_usage := s_memory u; cpu_usage := s_cpu u;
         active_tasks := active_tasks (resource_usage a1);
         network_usage := s_network u |} in
  if AgentStatus_eqb (status a2) ACTIVE
  then set_last_heartbeat a2 current_time
  else a2.

(** One pass of the [while] loop of [_monitor_agents], up to its sleep.
    The value is the number of seconds slept: 10 after a clean pass, 30
    after an exception, which the loop catches. [samples] gives the
    resource draws per agent, [draws] the draws of the resubmissions per
    removed agent. *)
Definition monitor_tick (current_time : Z) (samples : string -> UsageSample)
    (draws : string -> nat -> string * Z) : M Z :=
  fun st =>
    let monitored :=
      List.map (fun kv => (fst kv, monitor_agent current_time (samples (fst kv)) (snd kv)))
        (agents st) in
    let agents_to_remove :=
      List.map fst
        (List.filter (fun kv => AgentStatus_eqb (status (snd kv)) TERMINATED)
           monitored) in
    match for_each agents_to_remove 0 (fun _ aid => _remove_agent aid (draws aid))
            (set_agents st monitored) with
    | (Ok _, st') => (Ok 10, st')
    | (Raise _, st') => (Ok 30, st')
    end.

(** ** Concrete states used by the examples below *)

Module Examples.
Definition some_input : list (string * string) := [("market", "ETH-USDT")].

Definition queued_item : TaskItem :=
  {| ti_task_id := "TASK_0000000a"; ti_task_type := "risk_assessment";
     ti_input_data := some_input; ti_deadline := None;
     ti_assigned_at := 7; ti_priority := Some 4 |}.

Definition agent (aid : string) (s : AgentStatus) (hb : Z)
    (queue : list TaskItem) : AgentState :=
  {| agent_id := aid; agent_type := RISK_AGENT; status := s;
     capabilities := ["position_sizing"];
     performance_metrics := initial_metrics;
     resource_usage := initial_resource_usage; last_heartbeat := hb;
     agent_task_queue := queue; completed_tasks := 0; failed_tasks := 0 |}.

Definition risk_config : AgentConfig :=
  {| cfg_agent_type := RISK_AGENT; cfg_capabilities := ["position_sizing"];
     resource_limits := _get_resource_limits RISK_AGENT;
     performance_weights := default_performance_weights |}.

(** An orchestrator holding a single agent. *)
Definition single (aid : string) (s : AgentStatus) (hb : Z)
    (queue : list TaskItem) : Orchestrator :=
  set_capability_registry
    (set_agent_configs
       (set_agents (init HYBRID) [(aid, agent aid s hb queue)])
       [(aid, risk_config)])
    {[ "position_sizing" := [aid] ]}.

(** Two registered agents, the first one activated. *)
Definition two_agents : Orchestrator :=
  snd (create_agent_activate "risk_agent_00000001"
         (snd (create_agent_register DECISION_AGENT ["risk_assessment"]
                 "00000002" 5
                 (snd (create_agent_register RISK_AGENT ["position_sizing"]
                         "00000001" 0 (init HYBRID)))))).

(** [two_agents] with the second agent activated as well. *)
Definition both_active : Orchestrator :=
  snd (create_agent_activate "decision_agent_00000002" two_agents).

(** The first call returns, the second raises. *)
Definition one_raises (i : nat) : CallOutcome :=
  match i with O => Returned 0.8 0.9 | _ => Raised end.

(** The first call returns, the second is still running when the
    window closes. *)
Definition one_late (i : nat) : CallOutcome :=
  match i with O => Returned 0.8 0.9 | _ => NotCompleted end.

(** [two_agents] with the reliability of the first agent lowered. *)
Definition less_reliable : Orchestrator :=
  set_agents two_agents
    (PyDict.set (agents two_agents) "risk_agent_00000001"
       (set_performance_metrics
          (set_status (agent "risk_agent_00000001" INITIALIZING 0 []) ACTIVE)
          (set_reliability_score initial_metrics 0.5))).

Definition some_task : Task :=
  new_task "0000000c" 9 "risk_assessment"
    ["position_sizing"; "risk_assessment"] some_input 5 None.

Definition no_sample (_ : string) : UsageSample :=
  {| s_memory := 10; s_cpu := 0.1; s_network := 1 |}.

Definition no_draws (_ : nat) : string * Z := ("00000000", 0).
End Examples.

(** ** Operations reaching a trust ledger *)

(** The steps that write [self.trust_scores]. *)
Inductive Op : Type :=
| OpRegister (t : AgentType) (caps : list string) (hex8 : string) (now : Z)
| OpActivate (aid : string)
| OpTrust (aid : string) (success : bool)
| OpRemove (aid : string) (draws : nat -> string * Z).

Definition step (op : Op) (st : Orchestrator) : Orchestrator :=
  match op with
  | OpRegister t caps hex8 now => snd (create_agent_register t caps hex8 now st)
  | OpActivate aid => snd (create_agent_activate aid st)
  | OpTrust aid success => snd (_update_trust_scores aid success st)
  | OpRemove aid draws => snd (_remove_agent aid draws st)
  end.

Definition run (ops : list Op) (st : Orchestrator) : Orchestrator :=
  fold_left (fun st op => step op st) ops st.

(** The order the queue is kept in: higher priority first and, at equal
    priority, the later creation time first. *)
Definition queue_order (a b : Task) : Prop :=
  priority b < priority a
  \/ (priority a = priority b /\ created_at b <= created_at a).

(** The order with the earlier creation time first at equal priority. *)
Definition fifo_order (a b : Task) : Prop :=
  priority b < priority a
  \/ (priority a = priority b /\ created_at a <= created_at b).

(** The ranges the performance metrics of an agent are kept in. *)
Definition metrics_in_range (m : Metrics) : Prop :=
  (0 <= success_rate m <= 1)%Q
  /\ (0 <= avg_processing_time m)%Q
  /\ (0.1 <= reliability_score m <= 1)%Q
  /\ (0 <= efficiency_score m <= 1)%Q
  /\ (0 <= throughput m <= 60)%Q.

(** ** Assigner *)

Definition set_agent_task_queue (a : AgentState) (q : list TaskItem) : AgentState :=
  {| agent_id := agent_id a; agent_type := agent_type a; status := status a;
     capabilities := capabilities a;
     performance_metrics := performance_metrics a;
     resource_usage := resource_usage a;
     last_heartbeat := last_heartbeat a;
     agent_task_queue := q;
     completed_tasks := completed_tasks a; failed_tasks := failed_tasks a |}.

Definition set_task_status (t : Task) (s : TaskStatus) : Task :=
  {| task_id := task_id t; task_type := task_type t; priority := priority t;
     requirements := requirements t; input_data := input_data t;
     deadline := deadline t; assigned_agent := assigned_agent t;
     task_status := s; created_at := created_at t |}.

Definition set_assigned_agent (t : Task) (aid : option string) : Task :=
  {| task_id := task_id t; task_type := task_type t; priority := priority t;
     requirements := requirements t; input_data := input_data t;
     deadline := deadline t; assigned_agent := aid;
     task_status := task_status t; created_at := created_at t |}.

Definition TaskStatus_eqb (a b : TaskStatus) : bool :=
  match a, b with
  | Pending, Pending | Assigned, Assigned | Running, Running
  | Completed, Completed | Failed, Failed | Expired, Expired
  | Errored, Errored => true
  | _, _ => false
  end.

(** The set gathered by the first loop of [_find_suitable_agents]: the
    agents listed in the registry under some requirement of the task. *)
Definition requirement_candidates (st : Orchestrator) (reqs : list string)
  : gset string :=
  fold_left
    (fun acc req =>
       match capability_registry st !! req with
       | Some ids => acc ∪ list_to_set ids
       | None => acc
       end)
    reqs ∅.

(** The condition of the list comprehension of [_find_suitable_agents];
    [and] evaluates from left to right and stops at the first false
    operand, a missing agent or configuration raises [KeyError]. *)
Definition agent_is_eligible (st : Orchestrator) (aid : string) : result bool :=
  match PyDict.get (agents st) aid with
  | None => Raise (KeyError aid)
  | Some a =>
      if negb (AgentStatus_eqb (status a) ACTIVE) then Ok false
      else
        match PyDict.get (agent_configs st) aid with
        | None => Raise (KeyError aid)
        | Some c =>
            if negb (Z.of_nat (List.length (agent_task_queue a))
                     <? max_concurrent_tasks (resource_limits c))
            then Ok false
            else Ok (Qlt_bool 0.3 (reliability_score (performance_metrics a)))
        end
  end.

Fixpoint filter_eligible (st : Orchestrator) (ids : list string)
  : result (list string) :=
  match ids with
  | [] => Ok []
  | aid :: rest =>
      match agent_is_eligible st aid with
      | Raise e => Raise e
      | Ok keep =>
          match filter_eligible st rest with
          | Raise e => Raise e
          | Ok l => Ok (if keep then aid :: l else l)
          end
      end
  end.

Section Assigner.
(** The order in which Python iterates over a set of strings is not
    specified; [set_order s] is the order met for the set [s]. *)
Variable set_order : gset string -> list string.
(** The random stream of the selection strategies. *)
Variable rand : nat -> Q.
(** [clock i] is what [datetime.now()] answers while the task at position
    [i] of the batch is handled. *)
Variable clock : nat -> Z.

(** [_find_suitable_agents] *)
Definition _find_suitable_agents (st : Orchestrator) (task : Task)
  : result (list string) :=
  let suitable_agents := requirement_candidates st (requirements task) in
  if decide (suitable_agents = ∅) then Ok []
  else filter_eligible st (set_order suitable_agents).

(** The dictionary appended to the local queue of the selected agent. *)
Definition make_task_item (task : Task) (now : Z) : TaskItem :=
  {| ti_task_id := task_id task; ti_task_type := task_type task;
     ti_input_data := input_data task; ti_deadline := deadline task;
     ti_assigned_at := now; ti_priority := Some (priority task) |}.

(** The body of the first loop of [_assign_tasks] for one task of the
    batch: the task as the loop leaves it, whether it was appended to
    [assigned_tasks], the state and the random cursor. *)
Definition assign_one (now : Z) (task : Task) (st : Orchestrator)
    (cursor : nat) : (Task * bool) * Orchestrator * nat :=
  if negb (TaskStatus_eqb (task_status task) Pending)
  then ((task, false), st, cursor)
  else
    match _find_suitable_agents st task with
    | Raise _ => ((set_task_status task Errored, true), st, cursor)
    | Ok [] =>
        match deadline task with
        | Some d =>
            if d <? now then ((set_task_status task Expired, true), st, cursor)
            else ((task, false), st, cursor)
        | None => ((task, false), st, cursor)
        end
    | Ok suitable_agents =>
        match _select_agent_for_task rand st task suitable_agents cursor with
        | (Raise _, cursor') =>
            ((set_task_status task Errored, true), st, cursor')
        | (Ok None, cursor') => ((task, false), st, cursor')
        | (Ok (Some selected_agent), cursor') =>
            if String.eqb selected_agent "" then ((task, false), st, cursor')
            else
              let task1 :=
                set_task_status
                  (set_assigned_agent task (Some selected_agent)) Assigned in
              match PyDict.get (agents st) selected_agent with
              | None => ((set_task_status task1 Errored, true), st, cursor')
              | Some a =>
                  let a' :=
                    set_agent_task_queue a
                      (agent_task_queue a ++ [make_task_item task1 now])%list in
                  ((task1, true),
                   set_agents st (PyDict.set (agents st) selected_agent a'),
                   cursor')
              end
        end
    end.

(** The first loop of [_assign_tasks] over the batch: the tasks as the
    loop leaves them and [assigned_tasks]. *)
Fixpoint assign_loop (batch : list Task) (i : nat) (st : Orchestrator)
    (cursor : nat) : (list Task * list Task) * Orchestrator * nat :=
  match batch with
  | [] => (([], []), st, cursor)
  | task :: rest =>
      let '((task', moved), st1, cursor1) := assign_one (clock i) task st cursor in
      let '((rest', assigned), st2, cursor2) := assign_loop rest (S i) st1 cursor1 in
      ((task' :: rest', if moved then task' :: assigned else assigned),
       st2, cursor2)
  end.

(** [==] on two dictionaries given as association lists: the same keys
    with the same values, whatever the insertion order. *)
Definition dict_eqb (d1 d2 : list (string * string)) : bool :=
  bool_decide
    ((list_to_map d1 : gmap string string) = (list_to_map d2 : gmap string string)).

Definition option_eqb {X} (eqb : X -> X -> bool) (a b : option X) : bool :=
  match a, b with
  | Some x, Some y => eqb x y
  | None, None => true
  | _, _ => false
  end.

Fixpoint list_eqb {X} (eqb : X -> X -> bool) (l1 l2 : list X) : bool :=
  match l1, l2 with
  | [], [] => true
  | x :: l1', y :: l2' => eqb x y && list_eqb eqb l1' l2'
  | _, _ => false
  end.

(** [==] on [Task], the field-wise equality of a dataclass. *)
Definition Task_eqb (a b : Task) : bool :=
  String.eqb (task_id a) (task_id b)
  && String.eqb (task_type a) (task_type b)
  && (priority a =? priority b)
  && list_eqb String.eqb (requirements a) (requirements b)
  && dict_eqb (input_data a) (input_data b)
  && option_eqb Z.eqb (deadline a) (deadline b)
  && option_eqb String.eqb (assigned_agent a) (assigned_agent b)
  && TaskStatus_eqb (task_status a) (task_status b)
  && (created_at a =? created_at b).

(** [if task in queue: queue.remove(task)]: drops the first element equal
    to [task], if any. *)
Fixpoint remove_task (task : Task) (queue : list Task) : list Task :=
  match queue with
  | [] => []
  | t :: queue' =>
      if Task_eqb t task then queue' else t :: remove_task task queue'
  end.

(** The coroutines [_process_agent_task(agent, task_id)] handed to
    [asyncio.create_task] by the last loop of [_assign_tasks]. *)
Definition dispatches (assigned : list Task) : list (string * string) :=
  flat_map
    (fun t =>
       match task_status t, assigned_agent t with
       | Assigned, Some aid =>
           if String.eqb aid "" then [] else [(aid, task_id t)]
       | _, _ => []
       end)
    assigned.

(** [_assign_tasks]: the dispatched coroutines, the state and the random
    cursor after one assignment cycle. *)
Definition _assign_tasks (st : Orchestrator) (cursor : nat)
  : list (string * string) * Orchestrator * nat :=
  match task_queue st with
  | [] => ([], st, cursor)
  | _ =>
      let max_assignments_per_cycle :=
        Nat.min 10 (List.length (task_queue st)) in
      let batch := firstn max_assignments_per_cycle (task_queue st) in
      let '((batch', assigned_tasks), st1, cursor1) :=
        assign_loop batch 0 st cursor in
      let queue1 := (batch' ++ skipn max_assignments_per_cycle (task_queue st))%list in
      let queue2 :=
        fold_left (fun q t => remove_task t q) assigned_tasks queue1 in
      (dispatches assigned_tasks, set_task_queue st1 queue2, cursor1)
  end.
End Assigner.

(** No agent holds more tasks in its local queue than its configuration
    allows. *)
Definition within_capacity (st : Orchestrator) : Prop :=
  forall aid a c,
    PyDict.get (agents st) aid = Some a ->
    PyDict.get (agent_configs st) aid = Some c ->
    Z.of_nat (List.length (agent_task_queue a))
    <= max_concurrent_tasks (resource_limits c).

(** How the first loop of [_assign_tasks] relates the batch, the batch as
    the loop leaves it and [assigned_tasks]: a task is either left as it
    is, or it was pending and is moved to [assigned_tasks] under the same
    identifier. *)
Inductive loop_shape : list Task -> list Task -> list Task -> Prop :=
| loop_nil : loop_shape [] [] []
| loop_keep (t : Task) (l l' a : list Task) :
    loop_shape l l' a -> loop_shape (t :: l) (t :: l') a
| loop_move (t t' : Task) (l l' a : list Task) :
    task_id t' = task_id t -> task_status t = Pending ->
    loop_shape l l' a -> loop_shape (t :: l) (t' :: l') (t' :: a).

(** The tasks of [l] whose identifier is not the identifier of a task of
    [gone]. *)
Definition without_ids (gone l : list Task) : list Task :=
  List.filter
    (fun x => negb (existsb (fun t => String.eqb (task_id x) (task_id t)) gone))
    l.

(** ** Completion handling *)

(** [self.performance_metrics] of the orchestrator, apart from the
    coordination counter kept in [Orchestrator]; [None] stands for the
    [nan] that [np.mean] gives on an empty list. *)
Record SystemMetrics : Type := {
  tasks_completed : Z;
  tasks_failed : Z;
  avg_task_completion_time : option Q;
  agent_utilization : list (string * Q);
  system_throughput : Q;
  error_rate : Q
}.

Definition initial_system_metrics : SystemMetrics :=
  {| tasks_completed := 0; tasks_failed := 0;
     avg_task_completion_time := Some 0.0%Q; agent_utilization := [];
     system_throughput := 0.0; error_rate := 0.0 |}.

Definition set_task_history (st : Orchestrator) (x : list HistoryEntry) : Orchestrator :=
  {| coordination_mode := coordination_mode st; agents := agents st;
     agent_configs := agent_configs st; task_queue := task_queue st;
     coordination_history := coordination_history st;
     coordination_events := coordination_events st;
     capability_registry := capability_registry st;
     trust_scores := trust_scores st; task_history := x;
     is_running := is_running st;
     scheduled_assign_cycles := scheduled_assign_cycles st |}.

Definition count_completion (a : AgentState) (success : bool) : AgentState :=
  {| agent_id := agent_id a; agent_type := agent_type a; status := status a;
     capabilities := capabilities a;
     performance_metrics := performance_metrics a;
     resource_usage := resource_usage a;
     last_heartbeat := last_heartbeat a;
     agent_task_queue := agent_task_queue a;
     completed_tasks := if success then completed_tasks a + 1 else completed_tasks a;
     failed_tasks := if success then failed_tasks a else failed_tasks a + 1 |}.

(** [deque.append] on [deque(maxlen=10000)]: a full deque drops its
    oldest element. *)
Definition history_maxlen : nat := Z.to_nat 10000.

Definition deque_append (d : list HistoryEntry) (x : HistoryEntry)
  : list HistoryEntry :=
  last_n history_maxlen (d ++ [x])%list.

(** The loop of [_update_system_metrics] over [self.agents.items()]; a
    missing configuration raises [KeyError] and leaves the utilizations
    written so far. *)
Fixpoint update_utilization (st : Orchestrator)
    (items : list (string * AgentState)) (util : list (string * Q))
  : result unit * list (string * Q) :=
  match items with
  | [] => (Ok tt, util)
  | (aid, a) :: rest =>
      match PyDict.get (agent_configs st) aid with
      | None => (Raise (KeyError aid), util)
      | Some c =>
          let max_tasks := max_concurrent_tasks (resource_limits c) in
          let current_tasks := Z.of_nat (List.length (agent_task_queue a)) in
          let utilization :=
            if 0 <? max_tasks
            then (inject_Z current_tasks / inject_Z max_tasks)%Q
            else 0.0%Q in
          update_utilization st rest (PyDict.set util aid utilization)
      end
  end.

(** [_update_system_metrics] *)
Definition _update_system_metrics (st : Orchestrator) (m : SystemMetrics)
  : result unit * SystemMetrics :=
  let total_tasks := tasks_completed m + tasks_failed m in
  let avg :=
    if 0 <? total_tasks then
      match last_n 100 (task_history st) with
      | [] => avg_task_completion_time m
      | recent_tasks =>
          np_mean
            (List.filter (fun x => Qlt_bool 0 x)
               (List.map h_processing_time recent_tasks))
      end
    else avg_task_completion_time m in
  match update_utilization st (agents st) (agent_utilization m) with
  | (Raise e, util) =>
      (Raise e,
       {| tasks_completed := tasks_completed m; tasks_failed := tasks_failed m;
          avg_task_completion_time := avg; agent_utilization := util;
          system_throughput := system_throughput m;
          error_rate := error_rate m |})
  | (Ok _, util) =>
      (Ok tt,
       {| tasks_completed := tasks_completed m; tasks_failed := tasks_failed m;
          avg_task_completion_time := avg; agent_utilization := util;
          system_throughput :=
            if 0 <? total_tasks
            then (inject_Z (tasks_completed m) / inject_Z total_tasks)%Q
            else system_throughput m;
          error_rate :=
            if 0 <? total_tasks
            then (inject_Z (tasks_failed m) / inject_Z total_tasks)%Q
            else error_rate m |})
  end.

(** [_handle_task_completion]; [success] is [result['success']], [now1]
    and [now2] are the two readings of [datetime.now()]. *)
Definition _handle_task_completion (aid tid : string) (success : bool)
    (start_time : option Z) (now1 now2 : Z)
    (s : Orchestrator * SystemMetrics)
  : result unit * (Orchestrator * SystemMetrics) :=
  let '(st, m) := s in
  let completion_time : Q :=
    match start_time with
    | Some t0 => total_seconds (now1 - t0)
    | None => 0%Q
    end in
  let m1 :=
    {| tasks_completed := if success then tasks_completed m + 1 else tasks_completed m;
       tasks_failed := if success then tasks_failed m else tasks_failed m + 1;
       avg_task_completion_time := avg_task_completion_time m;
       agent_utilization := agent_utilization m;
       system_throughput := system_throughput m;
       error_rate := error_rate m |} in
  let st1 :=
    match PyDict.get (agents st) aid with
    | Some a =>
        set_agents st (PyDict.set (agents st) aid (count_completion a success))
    | None => st
    end in
  let st2 :=
    set_task_history st1
      (deque_append (task_history st1)
         {| h_task_id := tid; h_agent_id := aid; h_success := success;
            h_processing_time := completion_time; h_timestamp := now2 |}) in
  match _update_system_metrics st2 m1 with
  | (r, m2) => (r, (st2, m2))
  end.

(** ** Contribution provider *)

(** What one call of [_get_agent_contribution] returns. *)
Record ContributionReply : Type := {
  reply_contribution : Q;
  reply_confidence : Q;
  reply_processing_time : Q
}.

(** [_get_agent_contribution] once its sleep is over, on the state found
    at that time; it draws the sleeping time, then the two base values. *)
Definition _get_agent_contribution (rand : nat -> Q) (st : Orchestrator)
    (aid : string) (cursor : nat) : result ContributionReply * nat :=
  let '(processing_time, c1) := uniform rand 0.1 1.0 cursor in
  match PyDict.get (agents st) aid with
  | None => (Raise (KeyError aid), c1)
  | Some a =>
      let '(contribution_base, c2) := uniform rand 0.3 0.9 c1 in
      let '(confidence_base, c3) := uniform rand 0.5 0.95 c2 in
      let performance_boost := (success_rate (performance_metrics a) * 0.2)%Q in
      (Ok {| reply_contribution := py_min 1.0 (contribution_base + performance_boost);
             reply_confidence := py_min 1.0 (confidence_base + performance_boost);
             reply_processing_time := processing_time |},
       c3)
  end.

(** Every registered agent has a configuration. *)
Definition all_configured (st : Orchestrator) : Prop :=
  forall aid a, In (aid, a) (agents st) ->
                exists c, PyDict.get (agent_configs st) aid = Some c.

(** The inputs of one monitor pass: the current time, the resource
    samples and the draws of the resubmissions. *)
Record Tick : Type := {
  tick_time : Z;
  tick_samples : string -> UsageSample;
  tick_draws : string -> nat -> string * Z
}.

(** Successive passes of the loop of [_monitor_agents]. *)
Definition run_ticks (ticks : list Tick) (st : Orchestrator) : Orchestrator :=
  fold_left
    (fun st t => snd (monitor_tick (tick_time t) (tick_samples t) (tick_draws t) st))
    ticks st.

(** The invariant of the trust ledger. *)
Definition trust_in_range (ts : gmap (string * string) Q) : Prop :=
  forall k v, ts !! k = Some v -> (0.1 <= v <= 1.0)%Q.

(** * Properties *)

(** ** Rational comparisons *)

Lemma Qle_bool_true (a b : Q) : Qle_bool a b = true -> (a <= b)%Q.
Proof. apply Qle_bool_iff. Qed.

Lemma Qle_bool_false (a b : Q) : Qle_bool a b = false -> (b < a)%Q.
Proof.
  intros H. apply Qnot_le_lt. intros Hle.
  apply Qle_bool_iff in Hle. congruence.
Qed.

Ltac qcases :=
  repeat match goal with
    | |- context [Qle_bool ?a ?b] =>
        let H := fresh "Hq" in
        destruct (Qle_bool a b) eqn:H;
        [apply Qle_bool_true in H | apply Qle_bool_false in H]
    end.

Lemma py_max_Qmax (a b : Q) : (py_max a b == Qmax a b)%Q.
Proof.
  unfold py_max. qcases.
  - symmetry. apply Q.max_l. assumption.
  - symmetry. apply Q.max_r. apply Qlt_le_weak. assumption.
Qed.

Lemma py_min_Qmin (a b : Q) : (py_min a b == Qmin a b)%Q.
Proof.
  unfold py_min. qcases.
  - symmetry. apply Q.min_l. assumption.
  - symmetry. apply Q.min_r. apply Qlt_le_weak. assumption.
Qed.

Lemma py_max_lower (a b : Q) : (a <= py_max a b)%Q.
Proof. unfold py_max. qcases; [apply Qle_refl | apply Qlt_le_weak; assumption]. Qed.

Lemma py_min_upper (a b : Q) : (py_min a b <= a)%Q.
Proof. unfold py_min. qcases; [apply Qle_refl | apply Qlt_le_weak; assumption]. Qed.

Lemma py_clamp_range (lo hi x : Q) :
  (lo <= hi)%Q -> (lo <= py_max lo (py_min hi x) <= hi)%Q.
Proof.
  intros Hlh. split; [apply py_max_lower |].
  unfold py_max. qcases; [assumption | apply py_min_upper].
Qed.

Lemma py_clamp_mono (lo hi x y : Q) :
  (x <= y)%Q -> (py_max lo (py_min hi x) <= py_max lo (py_min hi y))%Q.
Proof.
  intros Hxy. unfold py_min.
  destruct (Qle_bool hi x) eqn:Hx; destruct (Qle_bool hi y) eqn:Hy;
    [apply Qle_bool_true in Hx | apply Qle_bool_true in Hx
    | apply Qle_bool_false in Hx | apply Qle_bool_false in Hx];
    [apply Qle_bool_true in Hy | apply Qle_bool_false in Hy
    | apply Qle_bool_true in Hy | apply Qle_bool_false in Hy];
    unfold py_max; qcases; lra.
Qed.

Lemma clamp_trust_range (x : Q) : (0.1 <= clamp_trust x <= 1)%Q.
Proof.
  unfold clamp_trust.
  destruct (py_clamp_range 0.1 1.0 x) as [Hlo Hhi]; lra.
Qed.

(** ** Insertion-ordered dictionaries *)

Section DictFacts.
Context {V : Type}.
Implicit Types (d : list (string * V)) (k : string) (v : V).

Lemma get_set_eq d k v : PyDict.get (PyDict.set d k v) k = Some v.
Proof.
  induction d as [| [k' v'] d IH]; simpl.
  - now rewrite String.eqb_refl.
  - destruct (String.eqb k' k) eqn:E; simpl.
    + now rewrite String.eqb_refl.
    + now rewrite E.
Qed.

Lemma get_set_ne d k k' v :
  k <> k' -> PyDict.get (PyDict.set d k v) k' = PyDict.get d k'.
Proof.
  intros Hne. induction d as [| [k0 v0] d IH]; simpl.
  - apply String.eqb_neq in Hne. now rewrite Hne.
  - destruct (String.eqb k0 k) eqn:E; simpl.
    + apply String.eqb_eq in E. subst k0.
      apply String.eqb_neq in Hne. now rewrite Hne.
    + now rewrite IH.
Qed.

Lemma get_del_ne d k k' :
  k <> k' -> PyDict.get (PyDict.del d k) k' = PyDict.get d k'.
Proof.
  intros Hne. induction d as [| [k0 v0] d IH]; simpl; [reflexivity |].
  destruct (String.eqb k0 k) eqn:E; simpl.
  - apply String.eqb_eq in E. subst k0.
    apply String.eqb_neq in Hne. now rewrite Hne.
  - now rewrite IH.
Qed.

Lemma get_Some_In d k v : PyDict.get d k = Some v -> In (k, v) d.
Proof.
  induction d as [| [k0 v0] d IH]; simpl; [discriminate |].
  destruct (String.eqb k0 k) eqn:E.
  - apply String.eqb_eq in E. intros [= ->]. subst. now left.
  - intros H. right. now apply IH.
Qed.

Lemma get_In_keys d k : In k (PyDict.keys d) -> exists v, PyDict.get d k = Some v.
Proof.
  induction d as [| [k0 v0] d IH]; simpl; [tauto |].
  intros [-> | Hin].
  - rewrite String.eqb_refl. eauto.
  - destruct (String.eqb k0 k); eauto.
Qed.

Lemma get_map_values {W} (f : string -> V -> W) d k :
  PyDict.get (List.map (fun kv => (fst kv, f (fst kv) (snd kv))) d) k
  = option_map (f k) (PyDict.get d k).
Proof.
  induction d as [| [k0 v0] d IH]; simpl; [reflexivity |].
  destruct (String.eqb k0 k) eqn:E; [| assumption].
  apply String.eqb_eq in E. now subst.
Qed.
End DictFacts.

(** ** The monad *)

Lemma fold_left_invariant {A B} (P : A -> Prop) (f : A -> B -> A) (l : list B) :
  (forall a b, P a -> P (f a b)) -> forall a, P a -> P (fold_left f l a).
Proof.
  intros Hstep. induction l as [| b l IH]; simpl; intros a Ha; [assumption |].
  apply IH, Hstep, Ha.
Qed.

(** A resubmission of [_remove_agent] passes an empty requirement list,
    so [submit_task] raises before touching the state. *)
Lemma submit_task_no_requirements hex8 now ttype input prio dl st :
  submit_task hex8 now ttype [] input prio dl st
  = (Raise (ValueError "Task must have at least one requirement"), st).
Proof. reflexivity. Qed.

Lemma remove_agent_absent aid draws st :
  PyDict.get (agents st) aid = None -> _remove_agent aid draws st = (Ok tt, st).
Proof.
  intros H. unfold _remove_agent, bind, get_state. now rewrite H.
Qed.

Lemma remove_agent_idle aid draws st a :
  PyDict.get (agents st) aid = Some a -> agent_task_queue a = [] ->
  _remove_agent aid draws st = (Ok tt, unregister_agent aid a st).
Proof.
  intros H Hq. unfold _remove_agent, bind, get_state. rewrite H, Hq.
  reflexivity.
Qed.

Lemma remove_agent_busy aid draws st a :
  PyDict.get (agents st) aid = Some a -> agent_task_queue a <> [] ->
  _remove_agent aid draws st
  = (Raise (ValueError "Task must have at least one requirement"), st).
Proof.
  intros H Hq. unfold _remove_agent, bind, get_state. rewrite H.
  destruct (agent_task_queue a) as [| item q]; [contradiction |].
  reflexivity.
Qed.

(** The three outcomes of [_remove_agent] on the agent dictionary and the
    ledger. *)
Lemma remove_agent_cases aid draws st :
  snd (_remove_agent aid draws st) = st
  \/ exists a, PyDict.get (agents st) aid = Some a
               /\ snd (_remove_agent aid draws st) = unregister_agent aid a st.
Proof.
  destruct (PyDict.get (agents st) aid) as [a |] eqn:H.
  - destruct (agent_task_queue a) as [| item q] eqn:Hq.
    + right. exists a. split; [reflexivity |].
      now rewrite (remove_agent_idle aid draws st a H Hq).
    + left. rewrite (remove_agent_busy aid draws st a H); [reflexivity |].
      rewrite Hq. discriminate.
  - left. now rewrite remove_agent_absent.
Qed.

(** ** TrustLedger *)

Lemma trust_in_range_empty : trust_in_range ∅.
Proof. intros k v H. rewrite lookup_empty in H. discriminate. Qed.

Lemma trust_in_range_insert ts k v :
  trust_in_range ts -> (0.1 <= v <= 1.0)%Q -> trust_in_range (<[k := v]> ts).
Proof.
  intros Hts Hv k' v' H. destruct (decide (k = k')) as [-> | Hne].
  - rewrite lookup_insert_eq in H. now injection H as <-.
  - rewrite lookup_insert_ne in H by assumption. now apply (Hts k').
Qed.

Lemma trust_in_range_bump change ts key :
  trust_in_range ts -> trust_in_range (bump_trust change ts key).
Proof.
  intros Hts. unfold bump_trust. destruct (ts !! key); [| assumption].
  apply trust_in_range_insert; [assumption |].
  pose proof (clamp_trust_range (q + change)). lra.
Qed.

Lemma trust_in_range_seed aid ids ts :
  trust_in_range ts -> trust_in_range (seed_trust aid ids ts).
Proof.
  unfold seed_trust. apply fold_left_invariant. intros ts' other Hts'.
  destruct (String.eqb other aid); [assumption |].
  apply trust_in_range_insert; [apply trust_in_range_insert |]; try assumption; lra.
Qed.

Lemma trust_in_range_filter (P : (string * string) * Q -> Prop)
    `{forall kv, Decision (P kv)} ts :
  trust_in_range ts -> trust_in_range (filter P ts).
Proof.
  intros Hts k v H'. apply map_lookup_filter_Some in H'.
  destruct H' as [Hk _]. now apply (Hts k).
Qed.

Lemma trust_in_range_step op st :
  trust_in_range (trust_scores st) -> trust_in_range (trust_scores (step op st)).
Proof.
  intros Hst. destruct op as [t caps hex8 now | aid | aid success | aid draws]; simpl.
  - now apply trust_in_range_seed.
  - unfold create_agent_activate. now destruct (PyDict.get (agents st) aid).
  - apply fold_left_invariant; [| assumption]. intros ts other Hts.
    destruct (String.eqb other aid); [assumption |].
    now apply trust_in_range_bump, trust_in_range_bump.
  - destruct (remove_agent_cases aid draws st) as [-> | [a [_ ->]]]; [assumption |].
    simpl. now apply trust_in_range_filter.
Qed.

(** C3. Starting from a fresh orchestrator, after any sequence of agent
    registrations and activations ([create_agent]), success or failure
    trust updates ([_update_trust_scores]) and agent removals, every score
    stored in the trust ledger, for every ordered pair of agents, lies in
    the closed interval [0.1, 1.0]. *)
Theorem trust_scores_bounded (mode : CoordinationMode) (ops : list Op)
    (a b : string) (v : Q) :
  trust_scores (run ops (init mode)) !! (a, b) = Some v ->
  (0.1 <= v <= 1.0)%Q.
Proof.
  assert (Hall : trust_in_range (trust_scores (run ops (init mode)))).
  { unfold run.
    apply (fold_left_invariant (fun st => trust_in_range (trust_scores st))).
    - intros st op. apply trust_in_range_step.
    - apply trust_in_range_empty. }
  apply Hall.
Qed.

Lemma trust_scores_bounded_witness :
  trust_scores
    (run [OpRegister RISK_AGENT ["position_sizing"] "00000001" 0;
          OpRegister DECISION_AGENT ["risk_assessment"] "00000002" 5;
          OpTrust "risk_agent_00000001" false]
       (init HYBRID))
    !! ("risk_agent_00000001", "decision_agent_00000002") = Some 0.40%Q
  /\ (0.1 <= 0.40 <= 1.0)%Q.
Proof.
  assert (H : trust_scores
                (run [OpRegister RISK_AGENT ["position_sizing"] "00000001" 0;
                      OpRegister DECISION_AGENT ["risk_assessment"] "00000002" 5;
                      OpTrust "risk_agent_00000001" false]
                   (init HYBRID))
              !! ("risk_agent_00000001", "decision_agent_00000002")
              = Some 0.40%Q) by (vm_compute; reflexivity).
  split; [exact H |].
  exact (trust_scores_bounded HYBRID _ _ _ _ H).
Defined.

(** ** PerformanceTracker *)

(** C8. On a completion processed by [_update_agent_performance] for a
    registered agent, the reliability score moves asymmetrically: on
    success it becomes [min(1, r + 0.02 (1 - r))], on failure
    [max(0.1, r - 0.05 r)]. *)
Theorem reliability_update_asymmetric (st : Orchestrator) (aid : string)
    (a : AgentState) (success : bool) (processing_time : Q) :
  PyDict.get (agents st) aid = Some a ->
  exists a',
    PyDict.get (agents (snd (_update_agent_performance aid success processing_time st))) aid
    = Some a'
    /\ let r := reliability_score (performance_metrics a) in
       let r' := reliability_score (performance_metrics a') in
       (success = true ->
        (r' == Qmin 1 (r + 0.02 * (1 - r)))%Q /\ (r' <= 1)%Q)
       /\ (success = false ->
           (r' == Qmax 0.1 (r - 0.05 * r))%Q /\ (0.1 <= r')%Q).
Proof.
  intros Hget. unfold _update_agent_performance. rewrite Hget. simpl.
  rewrite get_set_eq. eexists. split; [reflexivity |]. simpl.
  split; intros ->; unfold update_reliability.
  - split.
    + rewrite py_min_Qmin. apply Q.min_compat; [reflexivity | reflexivity].
    + pose proof (py_min_upper 1.0 (reliability_score (performance_metrics a)
                                     + 0.02 * (1 - reliability_score (performance_metrics a)))).
      lra.
  - split; [apply py_max_Qmax | apply py_max_lower].
Qed.

Lemma reliability_update_asymmetric_witness :
  exists a',
    PyDict.get
      (agents (snd (_update_agent_performance "risk_agent_00000001" false 2
                      Examples.two_agents)))
      "risk_agent_00000001" = Some a'
    /\ (reliability_score (performance_metrics a') == 0.95)%Q.
Proof.
  destruct (reliability_update_asymmetric Examples.two_agents
              "risk_agent_00000001"
              (set_status (Examples.agent "risk_agent_00000001" INITIALIZING 0 []) ACTIVE)
              false 2 eq_refl) as [a' [Hget [_ Hfail]]].
  exists a'. split; [exact Hget |].
  destruct (Hfail eq_refl) as [Heq _]. rewrite Heq. reflexivity.
Defined.

(** ** TaskQueue *)

Lemma key_ltb_false_queue_order (a b : Task) :
  key_ltb (sort_key a) (sort_key b) = false <-> queue_order a b.
Proof.
  unfold key_ltb, queue_order, sort_key. simpl.
  destruct (Z.ltb_spec (priority a) (priority b));
    destruct (Z.eqb_spec (priority a) (priority b));
    destruct (Z.ltb_spec (created_at a) (created_at b)); simpl;
    split; intros; try discriminate; try lia; try reflexivity.
Qed.

Lemma key_ltb_true_queue_order (a b : Task) :
  key_ltb (sort_key a) (sort_key b) = true -> queue_order b a.
Proof.
  unfold key_ltb, queue_order, sort_key. simpl.
  destruct (Z.ltb_spec (priority a) (priority b));
    destruct (Z.eqb_spec (priority a) (priority b));
    destruct (Z.ltb_spec (created_at a) (created_at b)); simpl;
    intros; try discriminate; lia.
Qed.

Lemma queue_order_trans (a b c : Task) :
  queue_order a b -> queue_order b c -> queue_order a c.
Proof. unfold queue_order. lia. Qed.

Lemma insert_sorted_perm (x : Task) (l : list Task) :
  Permutation (insert_sorted x l) (x :: l).
Proof.
  induction l as [| y l IH]; simpl; [reflexivity |].
  destruct (key_ltb (sort_key y) (sort_key x)); [| reflexivity].
  rewrite IH. apply perm_swap.
Qed.

Lemma stable_sort_perm (l : list Task) : Permutation (stable_sort l) l.
Proof.
  induction l as [| x l IH]; simpl; [reflexivity |].
  rewrite insert_sorted_perm. now apply perm_skip.
Qed.

Lemma sort_reverse_perm (l : list Task) : Permutation (sort_reverse l) l.
Proof.
  unfold sort_reverse. rewrite <- Permutation_rev, stable_sort_perm.
  symmetry. apply Permutation_rev.
Qed.

(** The ascending pass leaves the list sorted for the converse of
    [queue_order]. *)
Lemma insert_sorted_sorted (x : Task) (l : list Task) :
  StronglySorted (fun a b => queue_order b a) l ->
  StronglySorted (fun a b => queue_order b a) (insert_sorted x l).
Proof.
  induction l as [| y l IH]; simpl; intros Hs.
  - constructor; constructor.
  - inversion Hs as [| ? ? Hl Hy]; subst.
    destruct (key_ltb (sort_key y) (sort_key x)) eqn:E.
    + constructor; [now apply IH |].
      eapply Permutation_Forall; [symmetry; apply insert_sorted_perm |].
      constructor; [| assumption].
      now apply key_ltb_true_queue_order.
    + apply key_ltb_false_queue_order in E.
      constructor; [assumption |].
      constructor; [assumption |].
      eapply List.Forall_impl; [| exact Hy].
      intros z Hz. simpl in Hz. eapply queue_order_trans; eassumption.
Qed.

Lemma stable_sort_sorted (l : list Task) :
  StronglySorted (fun a b => queue_order b a) (stable_sort l).
Proof.
  induction l as [| x l IH]; simpl; [constructor |].
  now apply insert_sorted_sorted.
Qed.

Lemma StronglySorted_snoc {A} (R : A -> A -> Prop) (l : list A) (x : A) :
  StronglySorted R l -> Forall (fun y => R y x) l ->
  StronglySorted R (l ++ [x]).
Proof.
  induction l as [| y l IH]; simpl; intros Hs Hall.
  - constructor; constructor.
  - inversion Hs; subst. inversion Hall; subst.
    constructor; [now apply IH |].
    apply Forall_app. split; [assumption |]. now constructor.
Qed.

Lemma StronglySorted_rev {A} (R : A -> A -> Prop) (l : list A) :
  StronglySorted (fun a b => R b a) l -> StronglySorted R (rev l).
Proof.
  induction 1 as [| x l Hs IH Hall]; simpl; [constructor |].
  apply StronglySorted_snoc; [assumption |].
  apply Forall_rev. assumption.
Qed.

Lemma sort_reverse_sorted (l : list Task) :
  StronglySorted queue_order (sort_reverse l).
Proof. apply StronglySorted_rev, stable_sort_sorted. Qed.

(** What a submission that passes validation does to the state. *)
Lemma submit_task_accepted hex8 now ttype reqs input prio dl st :
  reqs <> [] -> input <> [] ->
  submit_task hex8 now ttype reqs input prio dl st
  = (Ok (make_task_id hex8),
     set_scheduled_assign_cycles
       (set_task_queue st
          (sort_reverse
             (task_queue st ++ [new_task hex8 now ttype reqs input prio dl])))
       (S (scheduled_assign_cycles st))).
Proof.
  intros Hr Hi. unfold submit_task.
  destruct reqs; [contradiction |]. destruct input; [contradiction |].
  reflexivity.
Qed.

(** C4. A submission that passes validation stores the supplied priority
    clamped into [1, 10], whatever integer was supplied. *)
Theorem submit_task_priority_clamped (hex8 : string) (now : Z)
    (ttype : string) (reqs : list string) (input : list (string * string))
    (prio : Z) (dl : option Z) (st : Orchestrator) :
  reqs <> [] -> input <> [] ->
  exists st' t,
    submit_task hex8 now ttype reqs input prio dl st = (Ok (task_id t), st')
    /\ In t (task_queue st')
    /\ requirements t = reqs /\ input_data t = input /\ created_at t = now
    /\ 1 <= priority t <= 10
    /\ priority t = Z.max 1 (Z.min 10 prio)
    /\ (prio < 1 -> priority t = 1)
    /\ (10 < prio -> priority t = 10)
    /\ (1 <= prio <= 10 -> priority t = prio).
Proof.
  intros Hr Hi. rewrite (submit_task_accepted _ _ _ _ _ _ _ _ Hr Hi).
  eexists. exists (new_task hex8 now ttype reqs input prio dl).
  split; [reflexivity |]. split.
  { simpl. eapply Permutation_in; [symmetry; apply sort_reverse_perm |].
    apply in_or_app. right. now left. }
  simpl. unfold clamp_priority. repeat split; lia.
Qed.

Lemma submit_task_priority_clamped_witness :
  exists st' t,
    submit_task "0000000a" 3 "risk_assessment" ["position_sizing"]
      Examples.some_input 50 None (init HYBRID) = (Ok (task_id t), st')
    /\ In t (task_queue st') /\ priority t = 10.
Proof.
  destruct (submit_task_priority_clamped "0000000a" 3 "risk_assessment"
              ["position_sizing"] Examples.some_input 50 None (init HYBRID))
    as [st' [t [Hrun [Hin [_ [_ [_ [_ [_ [_ [Hhigh _]]]]]]]]]]].
  - discriminate.
  - discriminate.
  - exists st', t. split; [exact Hrun |]. split; [exact Hin |].
    apply Hhigh. reflexivity.
Defined.

(** C5. [submit_task] raises exactly when the requirement list or the
    input data is empty; the error is a [ValueError] and leaves the whole
    state, hence the global queue, as it was. Otherwise the submission
    succeeds and the queue gains exactly the new task. *)
Theorem submit_task_validation (hex8 : string) (now : Z) (ttype : string)
    (reqs : list string) (input : list (string * string)) (prio : Z)
    (dl : option Z) (st : Orchestrator) :
  ((exists e st', submit_task hex8 now ttype reqs input prio dl st = (Raise e, st'))
   <-> (reqs = [] \/ input = []))
  /\ (reqs = [] \/ input = [] ->
      exists msg,
        submit_task hex8 now ttype reqs input prio dl st
        = (Raise (ValueError msg), st))
  /\ (reqs <> [] /\ input <> [] ->
      exists st',
        submit_task hex8 now ttype reqs input prio dl st
        = (Ok (make_task_id hex8), st')
        /\ Permutation (task_queue st')
             (new_task hex8 now ttype reqs input prio dl :: task_queue st)
        /\ List.length (task_queue st') = S (List.length (task_queue st))).
Proof.
  assert (Hrej : reqs = [] \/ input = [] ->
                 exists msg,
                   submit_task hex8 now ttype reqs input prio dl st
                   = (Raise (ValueError msg), st)).
  { intros [-> | ->].
    - eexists. reflexivity.
    - destruct reqs; eexists; reflexivity. }
  assert (Hacc : reqs <> [] /\ input <> [] ->
                 exists st',
                   submit_task hex8 now ttype reqs input prio dl st
                   = (Ok (make_task_id hex8), st')
                   /\ Permutation (task_queue st')
                        (new_task hex8 now ttype reqs input prio dl :: task_queue st)
                   /\ List.length (task_queue st') = S (List.length (task_queue st))).
  { intros [Hr Hi]. rewrite (submit_task_accepted _ _ _ _ _ _ _ _ Hr Hi).
    eexists. split; [reflexivity |]. simpl.
    assert (Hp : Permutation
                   (sort_reverse
                      (task_queue st ++ [new_task hex8 now ttype reqs input prio dl]))
                   (new_task hex8 now ttype reqs input prio dl :: task_queue st)).
    { rewrite sort_reverse_perm. rewrite Permutation_app_comm. reflexivity. }
    split; [exact Hp |]. apply Permutation_length in Hp. exact Hp. }
  split; [| split; assumption].
  split.
  - intros [e [st' Hrun]].
    destruct reqs as [| r reqs]; [now left |].
    destruct input as [| i input]; [now right |].
    destruct Hacc as [st'' [Hok _]]; [split; discriminate |].
    rewrite Hok in Hrun. discriminate.
  - intros Hempty. destruct (Hrej Hempty) as [msg Hrun]. eauto.
Qed.

Lemma submit_task_validation_witness :
  (exists msg,
     submit_task "0000000a" 3 "risk_assessment" [] Examples.some_input 4 None
       (init HYBRID) = (Raise (ValueError msg), init HYBRID))
  /\ (exists st',
        submit_task "0000000a" 3 "risk_assessment" ["position_sizing"]
          Examples.some_input 4 None (init HYBRID)
        = (Ok "TASK_0000000a", st')
        /\ List.length (task_queue st') = 1%nat).
Proof.
  split.
  - apply (submit_task_validation "0000000a" 3 "risk_assessment" []
             Examples.some_input 4 None (init HYBRID)).
    left. reflexivity.
  - destruct (submit_task_validation "0000000a" 3 "risk_assessment"
                ["position_sizing"] Examples.some_input 4 None (init HYBRID))
      as [_ [_ Hacc]].
    destruct Hacc as [st' [Hrun [_ Hlen]]]; [split; discriminate |].
    exists st'. split; [exact Hrun | exact Hlen].
Defined.

(** C6, as the code has it. After every successful [submit_task] the
    global queue is sorted with the higher priority first and, among
    tasks of equal priority, the later creation time first. *)
Theorem submit_task_queue_sorted (hex8 : string) (now : Z) (ttype : string)
    (reqs : list string) (input : list (string * string)) (prio : Z)
    (dl : option Z) (st : Orchestrator) :
  reqs <> [] -> input <> [] ->
  exists st',
    submit_task hex8 now ttype reqs input prio dl st
    = (Ok (make_task_id hex8), st')
    /\ StronglySorted queue_order (task_queue st').
Proof.
  intros Hr Hi. rewrite (submit_task_accepted _ _ _ _ _ _ _ _ Hr Hi).
  eexists. split; [reflexivity |]. simpl. apply sort_reverse_sorted.
Qed.

Lemma submit_task_queue_sorted_witness :
  exists st',
    submit_task "0000000b" 2 "risk_assessment" ["position_sizing"]
      Examples.some_input 5 None
      (snd (submit_task "0000000a" 1 "risk_assessment" ["position_sizing"]
              Examples.some_input 5 None (init HYBRID)))
    = (Ok "TASK_0000000b", st')
    /\ StronglySorted queue_order (task_queue st').
Proof.
  apply (submit_task_queue_sorted "0000000b" 2 "risk_assessment"
           ["position_sizing"] Examples.some_input 5 None); discriminate.
Defined.

(** C6, as the claim words it, fails: two tasks of priority 5 submitted
    at times 1 and 2 are queued with the task created at time 2 ahead of
    the task created at time 1. *)
Lemma submit_task_not_fifo :
  let st1 :=
    snd (submit_task "0000000a" 1 "risk_assessment" ["position_sizing"]
           Examples.some_input 5 None (init HYBRID)) in
  let r2 :=
    submit_task "0000000b" 2 "risk_assessment" ["position_sizing"]
      Examples.some_input 5 None st1 in
  fst r2 = Ok "TASK_0000000b"
  /\ List.map (fun t => (task_id t, priority t, created_at t)) (task_queue (snd r2))
     = [("TASK_0000000b", 5, 2); ("TASK_0000000a", 5, 1)]
  /\ ~ StronglySorted fifo_order (task_queue (snd r2)).
Proof.
  cbv zeta. split; [reflexivity |]. split; [reflexivity |].
  intros Hs.
  assert (Hq : exists a b,
             task_queue
               (snd (submit_task "0000000b" 2 "risk_assessment" ["position_sizing"]
                       Examples.some_input 5 None
                       (snd (submit_task "0000000a" 1 "risk_assessment"
                               ["position_sizing"] Examples.some_input 5 None
                               (init HYBRID))))) = [a; b]
             /\ priority a = 5 /\ priority b = 5
             /\ created_at a = 2 /\ created_at b = 1).
  { eexists. eexists. split; [vm_compute; reflexivity |]. repeat split. }
  destruct Hq as [a [b [Hq [Hpa [Hpb [Hca Hcb]]]]]].
  rewrite Hq in Hs. inversion Hs as [| ? ? _ Hall]; subst.
  inversion Hall as [| ? ? Hab _]; subst.
  unfold fifo_order in Hab. lia.
Qed.

(** ** Agent removal *)

(** C2, the behaviour of the code. Removing an agent whose local queue
    is not empty resubmits the first queued task with an empty requirement
    list; [submit_task] rejects it, so the removal stops with a
    [ValueError]: the global queue has gained nothing and the agent, with
    its queue, is still registered. *)
Theorem remove_agent_resubmission_rejected (aid : string)
    (draws : nat -> string * Z) (st : Orchestrator) (a : AgentState) :
  PyDict.get (agents st) aid = Some a ->
  agent_task_queue a <> [] ->
  exists msg st',
    _remove_agent aid draws st = (Raise (ValueError msg), st')
    /\ task_queue st' = task_queue st
    /\ PyDict.get (agents st') aid = Some a.
Proof.
  intros Hget Hq. rewrite (remove_agent_busy aid draws st a Hget Hq).
  eexists. exists st. repeat split. assumption.
Qed.

Lemma remove_agent_resubmission_rejected_witness :
  exists msg st',
    _remove_agent "risk_agent_00000001" Examples.no_draws
      (Examples.single "risk_agent_00000001" TERMINATED 0 [Examples.queued_item])
    = (Raise (ValueError msg), st')
    /\ task_queue st' = [].
Proof.
  destruct (remove_agent_resubmission_rejected "risk_agent_00000001"
              Examples.no_draws
              (Examples.single "risk_agent_00000001" TERMINATED 0
                 [Examples.queued_item])
              (Examples.agent "risk_agent_00000001" TERMINATED 0
                 [Examples.queued_item]))
    as [msg [st' [Hrun [Hq _]]]].
  - reflexivity.
  - discriminate.
  - exists msg, st'. split; [exact Hrun | exact Hq].
Defined.

(** ** HealthMonitor *)

Lemma monitor_agent_stale now u a :
  (300 < total_seconds (now - last_heartbeat a))%Q ->
  status (monitor_agent now u a) = ERROR.
Proof.
  intros Hstale. unfold monitor_agent, Qlt_bool.
  destruct (Qle_bool (total_seconds (now - last_heartbeat a)) 300) eqn:E.
  - apply Qle_bool_true in E. lra.
  - reflexivity.
Qed.

Lemma NoDup_keys_get {V} (d : list (string * V)) k v :
  List.NoDup (PyDict.keys d) -> In (k, v) d -> PyDict.get d k = Some v.
Proof.
  induction d as [| [k0 v0] d IH]; simpl; intros Hnd Hin; [contradiction |].
  inversion Hnd as [| ? ? Hnotin Hnd']; subst.
  destruct Hin as [[= -> ->] | Hin].
  - now rewrite String.eqb_refl.
  - destruct (String.eqb k0 k) eqn:E.
    + apply String.eqb_eq in E. subst k0. exfalso. apply Hnotin.
      change k with (fst (k, v)). now apply in_map.
    + now apply IH.
Qed.

(** Removing agents other than [aid] leaves the entry of [aid] alone,
    whether the removals succeed or raise. *)
Lemma for_each_remove_other (aid : string) (draws : string -> nat -> string * Z)
    (ids : list string) :
  ~ In aid ids ->
  forall i st,
    PyDict.get
      (agents (snd (for_each ids i (fun _ x => _remove_agent x (draws x)) st)))
      aid
    = PyDict.get (agents st) aid.
Proof.
  induction ids as [| x ids IH]; intros Hnotin i st; [reflexivity |].
  simpl. unfold bind.
  destruct (_remove_agent x (draws x) st) as [r st1] eqn:Hrun.
  assert (Hst1 : PyDict.get (agents st1) aid = PyDict.get (agents st) aid).
  { destruct (remove_agent_cases x (draws x) st) as [Hsame | [a [_ Hgone]]];
      rewrite Hrun in *; simpl in *; subst st1; [reflexivity |].
    simpl. apply get_del_ne. intros ->. apply Hnotin. now left. }
  destruct r as [[] | e]; simpl.
  - rewrite IH; [exact Hst1 |]. intros Hin. apply Hnotin. now right.
  - exact Hst1.
Qed.

(** C9, as the code has it. On a monitor pass every agent whose last
    heartbeat is more than 300 seconds old has status [ERROR] afterwards,
    whatever its status before the pass. *)
Theorem monitor_tick_stale_agent (now : Z) (samples : string -> UsageSample)
    (draws : string -> nat -> string * Z) (st : Orchestrator) (aid : string)
    (a : AgentState) :
  List.NoDup (PyDict.keys (agents st)) ->
  PyDict.get (agents st) aid = Some a ->
  (300 < total_seconds (now - last_heartbeat a))%Q ->
  exists secs st' a',
    monitor_tick now samples draws st = (Ok secs, st')
    /\ PyDict.get (agents st') aid = Some a'
    /\ status a' = ERROR.
Proof.
  intros Hnd Hget Hstale.
  set (f := fun k v => monitor_agent now (samples k) v).
  set (monitored := List.map (fun kv => (fst kv, f (fst kv) (snd kv))) (agents st)).
  assert (Hmon : PyDict.get monitored aid = Some (f aid a)).
  { unfold monitored. rewrite get_map_values, Hget. reflexivity. }
  assert (Hkeys : PyDict.keys monitored = PyDict.keys (agents st)).
  { unfold monitored, PyDict.keys. rewrite List.map_map. reflexivity. }
  set (ids := List.map fst
                (List.filter (fun kv => AgentStatus_eqb (status (snd kv)) TERMINATED)
                   monitored)).
  assert (Hnotin : ~ In aid ids).
  { unfold ids. intros Hin. apply in_map_iff in Hin.
    destruct Hin as [[k v] [Hk Hin]]. simpl in Hk. subst k.
    apply filter_In in Hin. destruct Hin as [Hin Hterm]. simpl in Hterm.
    apply NoDup_keys_get in Hin; [| now rewrite Hkeys].
    rewrite Hmon in Hin. injection Hin as <-.
    unfold f in Hterm. rewrite monitor_agent_stale in Hterm by assumption.
    discriminate. }
  pose proof (for_each_remove_other aid draws ids Hnotin 0%nat
                (set_agents st monitored)) as Hkeep.
  simpl in Hkeep. rewrite Hmon in Hkeep.
  assert (Htick : monitor_tick now samples draws st
                  = match for_each ids 0 (fun _ x => _remove_agent x (draws x))
                            (set_agents st monitored) with
                    | (Ok _, st') => (Ok 10, st')
                    | (Raise _, st') => (Ok 30, st')
                    end) by reflexivity.
  rewrite Htick.
  destruct (for_each ids 0 (fun _ x => _remove_agent x (draws x))
              (set_agents st monitored)) as [r st'] eqn:Hrun.
  destruct r as [u | e]; eexists; exists st', (f aid a);
    (split; [reflexivity |]); (split; [exact Hkeep |]);
    apply monitor_agent_stale; assumption.
Qed.

Lemma monitor_tick_stale_agent_witness :
  exists secs st' a',
    monitor_tick 301000000 Examples.no_sample (fun _ => Examples.no_draws)
      (Examples.single "risk_agent_00000001" ACTIVE 0 [])
    = (Ok secs, st')
    /\ PyDict.get (agents st') "risk_agent_00000001" = Some a'
    /\ status a' = ERROR.
Proof.
  apply (monitor_tick_stale_agent 301000000 Examples.no_sample
           (fun _ => Examples.no_draws)
           (Examples.single "risk_agent_00000001" ACTIVE 0 [])
           "risk_agent_00000001"
           (Examples.agent "risk_agent_00000001" ACTIVE 0 [])).
  - repeat constructor. simpl. tauto.
  - reflexivity.
  - reflexivity.
Defined.

(** C9, as the claim words it, fails: a paused agent whose heartbeat is
    301 seconds old is moved to [ERROR] by the heartbeat check. *)
Lemma monitor_tick_paused_agent_errors :
  let st := Examples.single "risk_agent_00000001" PAUSED 0 [] in
  let st' :=
    snd (monitor_tick 301000000 Examples.no_sample (fun _ => Examples.no_draws) st) in
  option_map status (PyDict.get (agents st) "risk_agent_00000001") = Some PAUSED
  /\ option_map status (PyDict.get (agents st') "risk_agent_00000001") = Some ERROR.
Proof. split; reflexivity. Qed.

(** ** SelectionStrategies *)

(** C10. When the suitable-agent list holds exactly one agent,
    [_select_agent_for_task] returns that agent in every coordination
    mode without scoring anything: the random cursor is unchanged, and
    the answer is the same for every state (hence every mode and every
    score), every task and every random stream. *)
Theorem select_single_candidate (rand : nat -> Q) (st : Orchestrator)
    (task : Task) (suitable_agents : list string) (cursor : nat) :
  List.length suitable_agents = 1%nat ->
  exists aid,
    suitable_agents = [aid]
    /\ _select_agent_for_task rand st task suitable_agents cursor
       = (Ok (Some aid), cursor)
    /\ forall rand' st' task' cursor',
         _select_agent_for_task rand' st' task' suitable_agents cursor'
         = (Ok (Some aid), cursor').
Proof.
  intros Hlen.
  destruct suitable_agents as [| aid rest]; [discriminate |].
  destruct rest as [| other rest]; [| discriminate].
  exists aid. split; [reflexivity |]. split; [reflexivity |].
  intros rand' st' task' cursor'. reflexivity.
Qed.

Lemma select_single_candidate_witness :
  exists aid,
    _select_agent_for_task (fun _ => 0.5%Q) Examples.both_active
      Examples.some_task ["decision_agent_00000002"] 0
    = (Ok (Some aid), 0%nat).
Proof.
  destruct (select_single_candidate (fun _ => 0.5%Q) Examples.both_active
              Examples.some_task ["decision_agent_00000002"] 0 eq_refl)
    as [aid [_ [Hrun _]]].
  exists aid. exact Hrun.
Defined.

Lemma clamp_score_mono (x y : Q) :
  (x <= y)%Q -> (clamp_score (Some x) <= clamp_score (Some y))%Q.
Proof. intros H. unfold clamp_score. now apply py_clamp_mono. Qed.

(** C7. The collaborative score of an agent is monotone in its
    reliability score: for two states that give the agent the same
    configuration with a positive reliability weight, the same success
    rate, efficiency score, load and capabilities, and that agree on the
    known agents and the trust ledger, the state where the agent is more
    reliable does not give it a lower score. *)
Theorem collaborative_score_monotone (st1 st2 : Orchestrator) (task : Task)
    (aid : string) (a1 a2 : AgentState) (c : AgentConfig) :
  PyDict.get (agents st1) aid = Some a1 ->
  PyDict.get (agents st2) aid = Some a2 ->
  PyDict.get (agent_configs st1) aid = Some c ->
  PyDict.get (agent_configs st2) aid = Some c ->
  PyDict.keys (agents st1) = PyDict.keys (agents st2) ->
  trust_scores st1 = trust_scores st2 ->
  success_rate (performance_metrics a1) = success_rate (performance_metrics a2) ->
  efficiency_score (performance_metrics a1) = efficiency_score (performance_metrics a2) ->
  List.length (agent_task_queue a1) = List.length (agent_task_queue a2) ->
  capabilities a1 = capabilities a2 ->
  requirements task <> [] ->
  (0 < w_reliability (performance_weights c))%Q ->
  (reliability_score (performance_metrics a1)
   <= reliability_score (performance_metrics a2))%Q ->
  exists s1 s2,
    collaborative_score st1 task aid = Ok s1
    /\ collaborative_score st2 task aid = Ok s2
    /\ (s1 <= s2)%Q.
Proof.
  intros Hg1 Hg2 Hc1 Hc2 Hkeys Htrust Hsr Heff Hload Hcaps Hreq Hw Hrel.
  unfold collaborative_score.
  rewrite Hg1, Hg2, Hc1, Hc2, Hkeys, Htrust, Hsr, Heff, Hload, Hcaps.
  destruct (requirements task) as [| r reqs] eqn:Hreqs; [contradiction |].
  cbn [is_empty].
  eexists. eexists. split; [reflexivity |]. split; [reflexivity |].
  destruct (np_mean _) as [t |]; [| apply Qle_refl].
  apply clamp_score_mono.
  assert (Hprod : (reliability_score (performance_metrics a1)
                   * w_reliability (performance_weights c)
                   <= reliability_score (performance_metrics a2)
                      * w_reliability (performance_weights c))%Q).
  { apply Qmult_le_compat_r; [assumption | now apply Qlt_le_weak]. }
  set (p1 := (reliability_score (performance_metrics a1)
              * w_reliability (performance_weights c))%Q) in *.
  set (p2 := (reliability_score (performance_metrics a2)
              * w_reliability (performance_weights c))%Q) in *.
  lra.
Qed.

Lemma collaborative_score_monotone_witness :
  exists s1 s2,
    collaborative_score Examples.less_reliable Examples.some_task
      "risk_agent_00000001" = Ok s1
    /\ collaborative_score Examples.two_agents Examples.some_task
         "risk_agent_00000001" = Ok s2
    /\ (s1 <= s2)%Q.
Proof.
  apply (collaborative_score_monotone Examples.less_reliable
           Examples.two_agents Examples.some_task "risk_agent_00000001"
           (set_performance_metrics
              (set_status (Examples.agent "risk_agent_00000001" INITIALIZING 0 []) ACTIVE)
              (set_reliability_score initial_metrics 0.5))
           (set_status (Examples.agent "risk_agent_00000001" INITIALIZING 0 []) ACTIVE)
           {| cfg_agent_type := RISK_AGENT;
              cfg_capabilities := ["position_sizing"];
              resource_limits := _get_resource_limits RISK_AGENT;
              performance_weights := default_performance_weights |});
    try reflexivity.
  - discriminate.
  - vm_compute. discriminate.
Defined.

(** ** CoordinationCoordinator *)

Lemma in_split_last (x : string) (l : list string) :
  In x l -> exists pre post, l = (pre ++ x :: post)%list /\ ~ In x post.
Proof.
  induction l as [| y l IH]; simpl; [tauto |].
  intros Hin.
  destruct (in_dec String.string_dec x l) as [Hl | Hl].
  - destruct (IH Hl) as [pre [post [-> Hpost]]].
    exists (y :: pre), post. split; [reflexivity | assumption].
  - destruct Hin as [-> | Hin]; [| contradiction].
    exists [], l. split; [reflexivity | assumption].
Qed.

Lemma process_results_other (aid : string) (results : list (option (Q * Q)))
    (available : list string) :
  ~ In aid available ->
  forall i acc,
    PyDict.get (process_results available i results acc) aid
    = PyDict.get acc aid.
Proof.
  induction available as [| x rest IH]; simpl; intros Hnotin i acc;
    [reflexivity |].
  rewrite IH by tauto. apply get_set_ne. intros ->. tauto.
Qed.

(** The entry of an agent is the one made at its last position. *)
Lemma process_results_last (aid : string) (results : list (option (Q * Q)))
    (pre post : list string) :
  ~ In aid post ->
  forall i acc,
    PyDict.get (process_results (pre ++ aid :: post) i results acc) aid
    = Some (make_entry aid results (i + List.length pre)).
Proof.
  intros Hpost. induction pre as [| x pre IH]; simpl; intros i acc.
  - rewrite process_results_other by assumption.
    rewrite get_set_eq, Nat.add_0_r. reflexivity.
  - rewrite IH. do 2 f_equal. lia.
Qed.

Lemma keys_set_In {V} (d : list (string * V)) (k k' : string) (v : V) :
  In k' (PyDict.keys (PyDict.set d k v)) -> k' = k \/ In k' (PyDict.keys d).
Proof.
  induction d as [| [k0 v0] d IH]; simpl.
  - intros [<- | []]. now left.
  - destruct (String.eqb k0 k) eqn:E; simpl.
    + apply String.eqb_eq in E. subst k0. tauto.
    + intros [<- | Hin]; [tauto |]. destruct (IH Hin); tauto.
Qed.

Lemma process_results_keys (results : list (option (Q * Q)))
    (available : list string) :
  forall i acc k,
    In k (PyDict.keys (process_results available i results acc)) ->
    In k available \/ In k (PyDict.keys acc).
Proof.
  induction available as [| x rest IH]; simpl; intros i acc k Hin; [tauto |].
  destruct (IH _ _ _ Hin) as [H | H]; [tauto |].
  destruct (keys_set_In _ _ _ _ H) as [-> | H']; tauto.
Qed.

Lemma is_available_registered (st : Orchestrator) (aid : string) :
  is_available st aid = true -> exists a, PyDict.get (agents st) aid = Some a.
Proof.
  unfold is_available. destruct (PyDict.get (agents st) aid); [eauto | discriminate].
Qed.

(** The collaborative loop cannot fail on the entries of registered
    agents. *)
Lemma collaborative_weights_ok (st : Orchestrator)
    (results : list (string * Contribution)) :
  (forall k, In k (PyDict.keys results) ->
             exists a, PyDict.get (agents st) k = Some a) ->
  forall weighted total_weight,
  exists w t, collaborative_weights st results weighted total_weight = Ok (w, t).
Proof.
  induction results as [| [k r] results IH]; simpl; intros Hreg weighted total.
  - eauto.
  - destruct (c_error r); [apply IH; auto |].
    destruct (Hreg k) as [a ->]; [now left |].
    apply IH; auto.
Qed.

Lemma combine_registered (st : Orchestrator)
    (results : list (string * Contribution)) (mode : CoordinationMode) :
  results <> [] ->
  (forall k, In k (PyDict.keys results) ->
             exists a, PyDict.get (agents st) k = Some a) ->
  exists v,
    _combine_coordination_results st results mode
    = Ok (PayloadCombined v (PyDict.keys results) results mode).
Proof.
  intros Hne Hreg. unfold _combine_coordination_results.
  destruct results as [| kr results]; [contradiction |]. cbn [is_empty].
  assert (Hv : exists v, collaborative_value st (kr :: results) = Ok v).
  { unfold collaborative_value.
    destruct (collaborative_weights_ok st (kr :: results) Hreg [] 0%Q)
      as [w [t ->]].
    destruct (Qlt_bool 0 t); eauto. }
  destruct Hv as [v Hv].
  destruct mode; rewrite ?Hv; eauto.
Qed.

Lemma gather_wait_for_late (calls : list CallOutcome) :
  existsb not_completed calls = true -> gather_wait_for calls = Raise TimeoutError.
Proof. intros H. unfold gather_wait_for. now rewrite H. Qed.

Lemma gather_wait_for_done (calls : list CallOutcome) :
  existsb not_completed calls = false ->
  exists results,
    gather_wait_for calls = Ok results
    /\ forall i, nth_error calls i = Some Raised -> nth_error results i = Some None.
Proof.
  intros H. unfold gather_wait_for. rewrite H. eexists. split; [reflexivity |].
  intros i Hi. rewrite nth_error_map, Hi. reflexivity.
Qed.

(** C1, as the code has it. With at least one active candidate:
    when some contribution call is still running as the window closes,
    [coordinate_agents] returns, and records in the history, a failure
    result carrying the error "Coordination timeout"; when every call is
    over in time, it returns and records a successful combined result in
    which every available agent has an entry, the entry of an agent whose
    call raised being the zero-contribution, zero-confidence entry. *)
Theorem coordinate_agents_window (tid : string) (agent_ids : list string)
    (mode : CoordinationMode) (calls : nat -> CallOutcome) (hex8 : string)
    (now : Z) (st : Orchestrator) :
  let available := List.filter (is_available st) agent_ids in
  let outcomes := List.map calls (seq 0 (List.length available)) in
  available <> [] ->
  (existsb not_completed outcomes = true ->
   exists r st',
     coordinate_agents tid agent_ids mode calls hex8 now st = (Ok r, st')
     /\ cr_success r = false
     /\ cr_result r = PayloadError "Coordination timeout"
     /\ participating_agents r = available
     /\ coordination_history st' = (coordination_history st ++ [r])%list)
  /\ (existsb not_completed outcomes = false ->
      exists r st' v entries,
        coordinate_agents tid agent_ids mode calls hex8 now st = (Ok r, st')
        /\ cr_success r = true
        /\ cr_result r = PayloadCombined v (PyDict.keys entries) entries mode
        /\ participating_agents r = available
        /\ coordination_history st' = (coordination_history st ++ [r])%list
        /\ (forall aid, In aid available ->
                        exists c, PyDict.get entries aid = Some c)
        /\ (forall pre aid post,
               available = (pre ++ aid :: post)%list -> ~ In aid post ->
               calls (List.length pre) = Raised ->
               PyDict.get entries aid = Some (zero_entry aid))).
Proof.
  intros available outcomes Hne.
  assert (Hrun : coordinate_agents tid agent_ids mode calls hex8 now st
                 = (if is_empty available then
                      ret {| coordination_id := make_coordination_id hex8;
                             cr_task_id := tid; participating_agents := [];
                             cr_result := PayloadError "No available agents for coordination";
                             cr_coordination_mode := mode; cr_timestamp := now;
                             cr_success := false |}
                    else
                      match gather_wait_for outcomes with
                      | Raise TimeoutError =>
                          let error_result :=
                            {| coordination_id := make_coordination_id hex8;
                               cr_task_id := tid;
                               participating_agents := available;
                               cr_result := PayloadError "Coordination timeout";
                               cr_coordination_mode := mode; cr_timestamp := now;
                               cr_success := false |} in
                          modify (fun st => set_coordination_history st
                                              (coordination_history st ++ [error_result])%list) ;;
                          ret error_result
                      | Raise e => raise e
                      | Ok results =>
                          match _combine_coordination_results
                                  (set_coordination_events st (coordination_events st + 1))
                                  (process_results available 0 results []) mode with
                          | Raise e => raise e
                          | Ok combined_result =>
                              let coordination_result :=
                                {| coordination_id := make_coordination_id hex8;
                                   cr_task_id := tid;
                                   participating_agents := available;
                                   cr_result := combined_result;
                                   cr_coordination_mode := mode;
                                   cr_timestamp := now; cr_success := true |} in
                              modify (fun st => set_coordination_history st
                                                  (coordination_history st ++ [coordination_result])%list) ;;
                              ret coordination_result
                          end
                      end)
                     (set_coordination_events st (coordination_events st + 1)))
    by reflexivity.
  rewrite Hrun. clear Hrun.
  assert (Hfirst : is_empty available = false /\ exists a0, In a0 available).
  { clear - Hne. clearbody available.
    destruct available as [| a0 rest]; [contradiction |].
    split; [reflexivity | exists a0; now left]. }
  destruct Hfirst as [-> [a0 Ha0]]. split.
  - intros Hlate. rewrite (gather_wait_for_late _ Hlate).
    cbv beta iota zeta delta [bind modify ret].
    eexists. eexists. split; [reflexivity |]. repeat split.
  - intros Hdone.
    destruct (gather_wait_for_done _ Hdone) as [results [-> Hraised]].
    set (entries := process_results available 0 results []).
    assert (Hcover : forall aid, In aid available ->
                                 exists c, PyDict.get entries aid = Some c).
    { intros aid Hin. destruct (in_split_last aid available Hin)
        as [pre [post [Hsplit Hpost]]].
      unfold entries. rewrite Hsplit, process_results_last by assumption.
      eauto. }
    assert (Hentries : entries <> []).
    { destruct (Hcover a0 Ha0) as [c Hc].
      intros Hnil. rewrite Hnil in Hc. discriminate. }
    assert (Hreg : forall k, In k (PyDict.keys entries) ->
                             exists a, PyDict.get (agents st) k = Some a).
    { intros k Hk. apply process_results_keys in Hk.
      destruct Hk as [Hk | []].
      apply is_available_registered.
      unfold available in Hk. apply filter_In in Hk. tauto. }
    destruct (combine_registered
                (set_coordination_events st (coordination_events st + 1))
                entries mode Hentries Hreg) as [v Hv].
    rewrite Hv. cbv beta iota zeta delta [bind modify ret].
    eexists. eexists. exists v, entries. split; [reflexivity |].
    repeat split; [exact Hcover |].
    intros pre aid post Hsplit Hpost Hcall.
    unfold entries. rewrite Hsplit, process_results_last by assumption.
    unfold make_entry. rewrite (Hraised (0 + List.length pre)%nat); [reflexivity |].
    unfold outcomes. rewrite nth_error_map, nth_error_seq.
    rewrite Hsplit, List.length_app. simpl.
    destruct (Nat.ltb_spec (List.length pre) (List.length pre + S (List.length post)));
      [simpl; now rewrite Hcall | lia].
Qed.

Lemma coordinate_agents_window_witness :
  exists r st' v entries,
    coordinate_agents "TASK_0000000a"
      ["risk_agent_00000001"; "decision_agent_00000002"] COLLABORATIVE
      Examples.one_raises "0000000d" 9 Examples.both_active = (Ok r, st')
    /\ cr_success r = true
    /\ cr_result r = PayloadCombined v (PyDict.keys entries) entries COLLABORATIVE
    /\ PyDict.get entries "decision_agent_00000002"
       = Some (zero_entry "decision_agent_00000002").
Proof.
  destruct (coordinate_agents_window "TASK_0000000a"
              ["risk_agent_00000001"; "decision_agent_00000002"] COLLABORATIVE
              Examples.one_raises "0000000d" 9 Examples.both_active)
    as [_ Hdone].
  - vm_compute. discriminate.
  - destruct Hdone as [r [st' [v [entries [Hrun [Hs [Hres [_ [_ [_ Hzero]]]]]]]]]].
    + reflexivity.
    + exists r, st', v, entries.
      split; [exact Hrun |]. split; [exact Hs |]. split; [exact Hres |].
      apply (Hzero ["risk_agent_00000001"] "decision_agent_00000002" []).
      * reflexivity.
      * simpl. tauto.
      * reflexivity.
Defined.

(** C1, as the claim words it, fails: with two active candidates, one
    whose call returned a contribution and one whose call is still running
    when the window closes, the coordination does not combine the response
    that completed; it returns the failure result of the timeout. *)
Lemma coordinate_agents_timeout_fails :
  let ids := ["risk_agent_00000001"; "decision_agent_00000002"] in
  let r :=
    fst (coordinate_agents "TASK_0000000a" ids COLLABORATIVE Examples.one_late
           "0000000d" 9 Examples.both_active) in
  List.filter (is_available Examples.both_active) ids = ids
  /\ Examples.one_late 0 = Returned 0.8 0.9
  /\ Examples.one_late 1 = NotCompleted
  /\ exists cr,
       r = Ok cr /\ cr_success cr = false
       /\ cr_result cr = PayloadError "Coordination timeout".
Proof.
  cbv zeta. split; [reflexivity |]. split; [reflexivity |].
  split; [reflexivity |].
  eexists. split; [reflexivity |]. split; reflexivity.
Qed.

(** * Further properties of the orchestrator *)

(** ** AgentRegistry and TrustLedger *)

Section DictMoreFacts.
Context {V : Type}.
Implicit Types (d : list (string * V)) (k : string) (v : V).

Lemma keys_set_keep d k k' v :
  In k' (PyDict.keys d) -> In k' (PyDict.keys (PyDict.set d k v)).
Proof.
  induction d as [| [k0 v0] d IH]; simpl; [tauto |].
  destruct (String.eqb k0 k) eqn:E; simpl.
  - apply String.eqb_eq in E. subst k0. tauto.
  - intros [-> | Hin]; [now left | right; now apply IH].
Qed.


Lemma set_fresh d k v :
  PyDict.get d k = None -> PyDict.set d k v = (d ++ [(k, v)])%list.
Proof.
  induction d as [| [k0 v0] d IH]; simpl; [reflexivity |].
  destruct (String.eqb k0 k); [discriminate |].
  intros H. now rewrite IH.
Qed.

Lemma del_set_fresh d k v :
  PyDict.get d k = None -> PyDict.del (PyDict.set d k v) k = d.
Proof.
  induction d as [| [k0 v0] d IH]; simpl.
  - now rewrite String.eqb_refl.
  - destruct (String.eqb k0 k) eqn:E; [discriminate |].
    intros H. simpl. rewrite E. now rewrite IH.
Qed.

Lemma keys_del_In d k k' :
  In k' (PyDict.keys (PyDict.del d k)) -> In k' (PyDict.keys d).
Proof.
  induction d as [| [k0 v0] d IH]; simpl; [tauto |].
  destruct (String.eqb k0 k); simpl; [tauto |].
  intros [-> | Hin]; [now left | right; now apply IH].
Qed.

Lemma NoDup_keys_del d k :
  List.NoDup (PyDict.keys d) -> List.NoDup (PyDict.keys (PyDict.del d k)).
Proof.
  induction d as [| [k0 v0] d IH]; simpl; intros Hnd; [constructor |].
  inversion Hnd as [| ? ? Hnotin Hnd']; subst.
  destruct (String.eqb k0 k); simpl; [assumption |].
  constructor; [| now apply IH].
  intros Hin. apply Hnotin. eapply keys_del_In. eassumption.
Qed.


Lemma NoDup_keys_set d k v :
  List.NoDup (PyDict.keys d) -> List.NoDup (PyDict.keys (PyDict.set d k v)).
Proof.
  induction d as [| [k0 v0] d IH]; simpl; intros Hnd.
  - constructor; [simpl; tauto | constructor].
  - inversion Hnd as [| ? ? Hnotin Hnd']; subst.
    destruct (String.eqb k0 k) eqn:E; simpl.
    + apply String.eqb_eq in E. subst k0. now constructor.
    + constructor; [| now apply IH].
      intros Hin. apply keys_set_In in Hin. destruct Hin as [-> | Hin].
      * rewrite String.eqb_refl in E. discriminate.
      * contradiction.
Qed.
End DictMoreFacts.

Lemma seed_trust_other (aid : string) (ids : list string)
    (ts : gmap (string * string) Q) (k : string * string) :
  fst k <> aid -> snd k <> aid -> seed_trust aid ids ts !! k = ts !! k.
Proof.
  intros Hf Hs. unfold seed_trust. revert ts.
  induction ids as [| x ids IH]; simpl; intros ts; [reflexivity |].
  rewrite IH. destruct (String.eqb x aid); [reflexivity |].
  rewrite !lookup_insert_ne; [reflexivity | |]; intros <-; simpl in *; congruence.
Qed.

Lemma seed_trust_keeps_half (aid : string) (ids : list string)
    (ts : gmap (string * string) Q) (k : string * string) :
  ts !! k = Some 0.5%Q -> seed_trust aid ids ts !! k = Some 0.5%Q.
Proof.
  unfold seed_trust. revert ts.
  induction ids as [| x ids IH]; simpl; intros ts Hk; [assumption |].
  apply IH. destruct (String.eqb x aid); [assumption |].
  destruct (decide ((x, aid) = k)) as [<- | Hne1].
  { apply lookup_insert_eq. }
  rewrite lookup_insert_ne by assumption.
  destruct (decide ((aid, x) = k)) as [<- | Hne2].
  { apply lookup_insert_eq. }
  now rewrite lookup_insert_ne.
Qed.

Lemma seed_trust_pair (aid other : string) (ids : list string)
    (ts : gmap (string * string) Q) :
  In other ids -> other <> aid ->
  seed_trust aid ids ts !! (aid, other) = Some 0.5%Q
  /\ seed_trust aid ids ts !! (other, aid) = Some 0.5%Q.
Proof.
  intros Hin Hne. revert ts.
  induction ids as [| x ids IH]; simpl in *; intros ts; [contradiction |].
  destruct (String.eqb_spec x other) as [-> | Hx].
  - apply String.eqb_neq in Hne. unfold seed_trust. simpl. rewrite Hne.
    split; apply (seed_trust_keeps_half aid ids).
    + rewrite lookup_insert_ne by (intros [= -> _]; now rewrite String.eqb_refl in Hne).
      apply lookup_insert_eq.
    + apply lookup_insert_eq.
  - destruct Hin as [-> | Hin]; [contradiction |].
    unfold seed_trust. simpl. apply (IH Hin).
Qed.

(** X1. Registering an agent seeds a trust score of 0.5, in both
    directions, between the new agent and every other agent already
    registered. *)
Theorem create_agent_seeds_trust (t : AgentType) (caps : list string)
    (hex8 : string) (now : Z) (st : Orchestrator) (other : string) :
  In other (PyDict.keys (agents st)) ->
  other <> make_agent_id t hex8 ->
  let st' := snd (create_agent_register t caps hex8 now st) in
  trust_scores st' !! (make_agent_id t hex8, other) = Some 0.5%Q
  /\ trust_scores st' !! (other, make_agent_id t hex8) = Some 0.5%Q.
Proof.
  intros Hin Hne. simpl. apply seed_trust_pair; [| assumption].
  now apply keys_set_keep.
Qed.

Lemma create_agent_seeds_trust_witness :
  trust_scores Examples.two_agents
    !! ("decision_agent_00000002", "risk_agent_00000001") = Some 0.5%Q
  /\ trust_scores Examples.two_agents
       !! ("risk_agent_00000001", "decision_agent_00000002") = Some 0.5%Q.
Proof.
  apply (create_agent_seeds_trust DECISION_AGENT ["risk_assessment"]
           "00000002" 5
           (snd (create_agent_register RISK_AGENT ["position_sizing"]
                   "00000001" 0 (init HYBRID)))
           "risk_agent_00000001").
  - simpl. tauto.
  - discriminate.
Defined.

(** X2. Registering an agent leaves every trust edge between two other
    agents as it was. *)
Theorem create_agent_keeps_other_trust (t : AgentType) (caps : list string)
    (hex8 : string) (now : Z) (st : Orchestrator) (a b : string) :
  a <> make_agent_id t hex8 -> b <> make_agent_id t hex8 ->
  trust_scores (snd (create_agent_register t caps hex8 now st)) !! (a, b)
  = trust_scores st !! (a, b).
Proof. intros Ha Hb. simpl. now apply seed_trust_other. Qed.

Lemma create_agent_keeps_other_trust_witness :
  trust_scores
    (snd (create_agent_register MONITORING_AGENT ["system_health"] "00000003" 8
            Examples.two_agents))
    !! ("risk_agent_00000001", "decision_agent_00000002")
  = trust_scores Examples.two_agents
      !! ("risk_agent_00000001", "decision_agent_00000002").
Proof.
  apply (create_agent_keeps_other_trust MONITORING_AGENT ["system_health"]
           "00000003" 8 Examples.two_agents); discriminate.
Defined.

Lemma registry_append_keeps (reg : gmap string (list string))
    (cap cap' aid x : string) :
  In x (default [] (reg !! cap)) ->
  In x (default [] (registry_append reg cap' aid !! cap)).
Proof.
  intros Hin. unfold registry_append.
  destruct (decide (cap' = cap)) as [-> | Hne].
  - rewrite lookup_insert_eq. simpl. apply in_or_app. now left.
  - now rewrite lookup_insert_ne.
Qed.

Lemma registry_fold_keeps (aid x cap : string) (caps : list string)
    (reg : gmap string (list string)) :
  In x (default [] (reg !! cap)) ->
  In x (default []
          (fold_left (fun reg cap => registry_append reg cap aid) caps reg !! cap)).
Proof.
  revert reg. induction caps as [| c caps IH]; simpl; intros reg Hin;
    [assumption |].
  apply IH. now apply registry_append_keeps.
Qed.

Lemma registry_fold_lists (aid cap : string) (caps : list string)
    (reg : gmap string (list string)) :
  In cap caps ->
  In aid (default []
            (fold_left (fun reg cap => registry_append reg cap aid) caps reg !! cap)).
Proof.
  revert reg. induction caps as [| c caps IH]; simpl; intros reg Hin;
    [contradiction |].
  destruct (String.eqb_spec c cap) as [-> | Hc].
  - apply registry_fold_keeps. unfold registry_append.
    rewrite lookup_insert_eq. simpl. apply in_or_app. right. now left.
  - destruct Hin as [-> | Hin]; [contradiction |]. now apply IH.
Qed.

(** X3. [create_agent] makes the agent selectable only once its
    initialization is over: after the registration step the agent is
    registered with status [INITIALIZING] and is not available; after the
    activation step it is available, with an empty local queue, the
    optimistic initial metrics, the resource limits of its type, and it is
    listed in the capability registry under each of its capabilities. *)
Theorem create_agent_becomes_available (t : AgentType) (caps : list string)
    (hex8 : string) (now : Z) (st : Orchestrator) (cap : string) :
  In cap caps ->
  let aid := make_agent_id t hex8 in
  let st1 := snd (create_agent_register t caps hex8 now st) in
  let st2 := snd (create_agent_activate aid st1) in
  fst (create_agent_register t caps hex8 now st) = Ok aid
  /\ is_available st1 aid = false
  /\ is_available st2 aid = true
  /\ (exists a,
        PyDict.get (agents st2) aid = Some a
        /\ status a = ACTIVE /\ agent_task_queue a = []
        /\ capabilities a = caps /\ performance_metrics a = initial_metrics
        /\ last_heartbeat a = now)
  /\ (exists c,
        PyDict.get (agent_configs st2) aid = Some c
        /\ resource_limits c = _get_resource_limits t
        /\ performance_weights c = default_performance_weights)
  /\ In aid (default [] (capability_registry st2 !! cap)).
Proof.
  intros Hcap aid st1 st2.
  assert (H1 : exists a1, PyDict.get (agents st1) aid = Some a1
                          /\ status a1 = INITIALIZING
                          /\ agent_task_queue a1 = []
                          /\ capabilities a1 = caps
                          /\ performance_metrics a1 = initial_metrics
                          /\ last_heartbeat a1 = now).
  { eexists. split; [apply get_set_eq |]. repeat split. }
  destruct H1 as [a1 [Hg1 [Hs1 [Hq1 [Hc1 [Hm1 Hh1]]]]]].
  assert (Hst2 : st2 = set_agents st1 (PyDict.set (agents st1) aid (set_status a1 ACTIVE))).
  { unfold st2, create_agent_activate. now rewrite Hg1. }
  split; [reflexivity |]. split.
  { unfold is_available. rewrite Hg1, Hs1. reflexivity. }
  split.
  { unfold is_available. rewrite Hst2. simpl. rewrite get_set_eq. reflexivity. }
  split.
  { exists (set_status a1 ACTIVE). rewrite Hst2. simpl. rewrite get_set_eq.
    repeat split; assumption. }
  split.
  { rewrite Hst2. simpl. eexists. split; [apply get_set_eq |]. split; reflexivity. }
  rewrite Hst2. simpl. now apply registry_fold_lists.
Qed.

Lemma create_agent_becomes_available_witness :
  let st2 :=
    snd (create_agent_activate "decision_agent_00000002"
           (snd (create_agent_register DECISION_AGENT ["risk_assessment"]
                   "00000002" 5
                   (snd (create_agent_register RISK_AGENT ["position_sizing"]
                           "00000001" 0 (init HYBRID)))))) in
  is_available st2 "decision_agent_00000002" = true
  /\ In "decision_agent_00000002"
       (default [] (capability_registry st2 !! "risk_assessment")).
Proof.
  destruct (create_agent_becomes_available DECISION_AGENT ["risk_assessment"]
              "00000002" 5
              (snd (create_agent_register RISK_AGENT ["position_sizing"]
                      "00000001" 0 (init HYBRID)))
              "risk_assessment")
    as [_ [_ [Hav [_ [_ Hreg]]]]].
  - simpl. tauto.
  - split; [exact Hav | exact Hreg].
Defined.

Lemma clamp_trust_minmax (x : Q) : (clamp_trust x == Qmax 0.1 (Qmin 1 x))%Q.
Proof.
  unfold clamp_trust. rewrite py_max_Qmax, py_min_Qmin.
  apply Q.max_compat; [reflexivity |]. apply Q.min_compat; reflexivity.
Qed.

Lemma bump_trust_lookup (change : Q) (ts : gmap (string * string) Q)
    (k k' : string * string) :
  bump_trust change ts k !! k'
  = if decide (k = k')
    then (fun v => clamp_trust (v + change)) <$> ts !! k
    else ts !! k'.
Proof.
  unfold bump_trust. destruct (ts !! k) as [v |] eqn:Hk.
  - destruct (decide (k = k')) as [<- | Hne].
    + now rewrite lookup_insert_eq.
    + now rewrite lookup_insert_ne.
  - destruct (decide (k = k')) as [<- | Hne]; [now rewrite Hk | reflexivity].
Qed.

(** One iteration of the loop of [_update_trust_scores]. *)
Lemma trust_step_untouched (change : Q) (aid x : string)
    (ts : gmap (string * string) Q) (k : string * string) :
  k <> (aid, x) -> k <> (x, aid) ->
  bump_trust change (bump_trust change ts (aid, x)) (x, aid) !! k = ts !! k.
Proof.
  intros H1 H2. rewrite !bump_trust_lookup.
  destruct (decide ((x, aid) = k)); [congruence |].
  destruct (decide ((aid, x) = k)); [congruence | reflexivity].
Qed.

Lemma trust_fold_untouched (change : Q) (aid : string) (ids : list string)
    (k : string * string) :
  (forall x, In x ids -> x <> aid -> k <> (aid, x) /\ k <> (x, aid)) ->
  forall ts,
    fold_left
      (fun ts other =>
         if String.eqb other aid then ts
         else bump_trust change (bump_trust change ts (aid, other)) (other, aid))
      ids ts !! k
    = ts !! k.
Proof.
  induction ids as [| x ids IH]; simpl; intros Hk ts; [reflexivity |].
  rewrite IH by auto.
  destruct (String.eqb_spec x aid) as [-> | Hx]; [reflexivity |].
  destruct (Hk x) as [H1 H2]; [now left | assumption |].
  now apply trust_step_untouched.
Qed.

Lemma trust_fold_pair (change : Q) (aid other : string) (ids : list string) :
  List.NoDup ids -> In other ids -> other <> aid ->
  forall ts,
    let ts' :=
      fold_left
        (fun ts x =>
           if String.eqb x aid then ts
           else bump_trust change (bump_trust change ts (aid, x)) (x, aid))
        ids ts in
    ts' !! (aid, other) = (fun v => clamp_trust (v + change)) <$> ts !! (aid, other)
    /\ ts' !! (other, aid) = (fun v => clamp_trust (v + change)) <$> ts !! (other, aid).
Proof.
  intros Hnd Hin Hne.
  induction ids as [| x ids IH]; simpl in *; intros ts; [contradiction |].
  inversion Hnd as [| ? ? Hnotin Hnd']; subst.
  destruct (String.eqb_spec x other) as [-> | Hx].
  - apply String.eqb_neq in Hne. rewrite Hne. apply String.eqb_neq in Hne.
    rewrite !trust_fold_untouched.
    + rewrite !bump_trust_lookup.
      destruct (decide ((other, aid) = (aid, other))) as [[= E _] |]; [congruence |].
      destruct (decide ((aid, other) = (aid, other))); [| congruence].
      destruct (decide ((other, aid) = (other, aid))); [| congruence].
      destruct (decide ((aid, other) = (other, aid))) as [[= E _] |]; [congruence |].
      split; reflexivity.
    + intros y Hy _. split; intros [= ]; subst; contradiction.
    + intros y Hy _. split; intros [= ]; subst; contradiction.
  - destruct Hin as [-> | Hin]; [contradiction |].
    destruct (IH Hnd' Hin
                (if String.eqb x aid then ts
                 else bump_trust change (bump_trust change ts (aid, x)) (x, aid)))
      as [Hf Hb].
    rewrite Hf, Hb.
    destruct (String.eqb_spec x aid) as [-> | Hxa]; [split; reflexivity |].
    rewrite !trust_step_untouched; [split; reflexivity | | | |];
      intros [= ]; subst; congruence.
Qed.

(** X4. A completion of agent [aid] shifts each trust edge between
    [aid] and another registered agent exactly once, by +0.05 on success
    and -0.1 on failure, and clamps the outcome into [0.1, 1.0]. *)
Theorem update_trust_shifts_edges (st : Orchestrator) (aid other : string)
    (success : bool) (v w : Q) :
  List.NoDup (PyDict.keys (agents st)) ->
  In other (PyDict.keys (agents st)) ->
  other <> aid ->
  trust_scores st !! (aid, other) = Some v ->
  trust_scores st !! (other, aid) = Some w ->
  let change : Q := if success then 0.05%Q else (-0.1)%Q in
  let ts' := trust_scores (snd (_update_trust_scores aid success st)) in
  exists v' w',
    ts' !! (aid, other) = Some v' /\ ts' !! (other, aid) = Some w'
    /\ (v' == Qmax 0.1 (Qmin 1 (v + change)))%Q
    /\ (w' == Qmax 0.1 (Qmin 1 (w + change)))%Q.
Proof.
  intros Hnd Hin Hne Hv Hw change ts'.
  destruct (trust_fold_pair change aid other (PyDict.keys (agents st))
              Hnd Hin Hne (trust_scores st)) as [Hf Hb].
  exists (clamp_trust (v + change)), (clamp_trust (w + change)).
  unfold ts', _update_trust_scores. simpl. fold change.
  rewrite Hf, Hb, Hv, Hw. repeat split; apply clamp_trust_minmax.
Qed.

Lemma update_trust_shifts_edges_witness :
  exists v' w',
    trust_scores (snd (_update_trust_scores "risk_agent_00000001" true
                         Examples.two_agents))
      !! ("risk_agent_00000001", "decision_agent_00000002") = Some v'
    /\ trust_scores (snd (_update_trust_scores "risk_agent_00000001" true
                            Examples.two_agents))
         !! ("decision_agent_00000002", "risk_agent_00000001") = Some w'
    /\ (v' == 0.55)%Q /\ (w' == 0.55)%Q.
Proof.
  destruct (update_trust_shifts_edges Examples.two_agents
              "risk_agent_00000001" "decision_agent_00000002" true 0.5 0.5)
    as [v' [w' [Hv [Hw [Ev Ew]]]]].
  - repeat constructor; simpl; intuition discriminate.
  - simpl. tauto.
  - discriminate.
  - vm_compute. reflexivity.
  - vm_compute. reflexivity.
  - exists v', w'. split; [exact Hv |]. split; [exact Hw |].
    split; [rewrite Ev | rewrite Ew]; reflexivity.
Defined.

(** X5. A completion of agent [aid] never creates or deletes a trust
    edge, and leaves every edge that does not touch [aid] as it was. *)
Theorem update_trust_frame (st : Orchestrator) (aid : string) (success : bool)
    (k : string * string) :
  let ts' := trust_scores (snd (_update_trust_scores aid success st)) in
  (ts' !! k = None <-> trust_scores st !! k = None)
  /\ (fst k <> aid -> snd k <> aid -> ts' !! k = trust_scores st !! k).
Proof.
  simpl. split.
  - apply (fold_left_invariant
             (fun ts => ts !! k = None <-> trust_scores st !! k = None)).
    + intros ts other IH. destruct (String.eqb other aid); [assumption |].
      rewrite <- IH. rewrite !bump_trust_lookup.
      destruct (decide ((other, aid) = k)) as [<- |].
      * destruct (decide ((aid, other) = (other, aid))) as [E |].
        -- rewrite E. destruct (ts !! (other, aid)); simpl; split; congruence.
        -- destruct (ts !! (other, aid)); simpl; split; congruence.
      * destruct (decide ((aid, other) = k)) as [<- |]; [| reflexivity].
        destruct (ts !! (aid, other)); simpl; split; congruence.
    + reflexivity.
  - intros Hf Hs. apply trust_fold_untouched.
    intros x _ _. split; intros ->; simpl in *; congruence.
Qed.

Lemma update_trust_frame_witness :
  trust_scores
    (snd (_update_trust_scores "monitoring_agent_00000003" false
            Examples.two_agents))
    !! ("risk_agent_00000001", "decision_agent_00000002")
  = Some 0.5%Q.
Proof.
  destruct (update_trust_frame Examples.two_agents "monitoring_agent_00000003"
              false ("risk_agent_00000001", "decision_agent_00000002"))
    as [_ Hframe].
  rewrite Hframe; [vm_compute; reflexivity | discriminate | discriminate].
Defined.

(** ** Agent removal *)






Lemma remove_first_app_notin (aid : string) (l r : list string) :
  ~ In aid l -> remove_first aid (l ++ aid :: r) = (l ++ r)%list.
Proof.
  induction l as [| x l IH]; simpl; intros Hnotin.
  - now rewrite String.eqb_refl.
  - destruct (String.eqb_spec x aid) as [-> | Hx]; [tauto |].
    rewrite IH by tauto. reflexivity.
Qed.

Lemma remove_first_notin (aid : string) (l : list string) :
  ~ In aid l -> remove_first aid l = l.
Proof.
  induction l as [| x l IH]; simpl; intros Hnotin; [reflexivity |].
  destruct (String.eqb_spec x aid) as [-> | Hx]; [tauto |].
  rewrite IH by tauto. reflexivity.
Qed.

Lemma registry_append_fold_list (aid cap : string) (caps : list string) :
  forall reg : gmap string (list string),
    default []
      (fold_left (fun reg c => registry_append reg c aid) caps reg !! cap)
    = (default [] (reg !! cap)
       ++ repeat aid (count_occ String.string_dec caps cap))%list.
Proof.
  induction caps as [| c caps IH]; simpl; intros reg.
  - now rewrite app_nil_r.
  - rewrite IH. unfold registry_append.
    destruct (String.string_dec c cap) as [-> | Hc].
    + rewrite lookup_insert_eq. simpl. now rewrite <- app_assoc.
    + now rewrite lookup_insert_ne.
Qed.

Lemma registry_remove_fold_list (aid cap : string) (l : list string)
    (caps : list string) :
  ~ In aid l ->
  forall (reg : gmap string (list string)) (n : nat),
    default [] (reg !! cap) = (l ++ repeat aid n)%list ->
    default []
      (fold_left (fun reg c => registry_remove reg c aid) caps reg !! cap)
    = (l ++ repeat aid (n - count_occ String.string_dec caps cap))%list.
Proof.
  intros Hl. induction caps as [| c caps IH]; simpl; intros reg n Hreg.
  - now rewrite Nat.sub_0_r.
  - destruct (String.string_dec c cap) as [-> | Hc].
    + rewrite (IH _ (Nat.pred n)).
      * f_equal. f_equal. lia.
      * unfold registry_remove. rewrite lookup_insert_eq. simpl. rewrite Hreg.
        destruct n as [| n]; simpl.
        -- rewrite app_nil_r. now apply remove_first_notin.
        -- now apply remove_first_app_notin.
    + apply IH. unfold registry_remove. now rewrite lookup_insert_ne.
Qed.

(** X7. Registering an agent under a fresh identifier and removing it
    before it receives any task restores the agent dictionary, the
    configurations, the trust ledger, the global queue and every list of
    the capability registry. *)
Theorem register_then_remove_restores (t : AgentType) (caps : list string)
    (hex8 : string) (now : Z) (draws : nat -> string * Z) (st : Orchestrator) :
  PyDict.get (agents st) (make_agent_id t hex8) = None ->
  PyDict.get (agent_configs st) (make_agent_id t hex8) = None ->
  (forall k v, trust_scores st !! k = Some v ->
               fst k <> make_agent_id t hex8 /\ snd k <> make_agent_id t hex8) ->
  (forall cap, ~ In (make_agent_id t hex8)
                    (default [] (capability_registry st !! cap))) ->
  exists st',
    _remove_agent (make_agent_id t hex8) draws
      (snd (create_agent_register t caps hex8 now st)) = (Ok tt, st')
    /\ agents st' = agents st
    /\ agent_configs st' = agent_configs st
    /\ trust_scores st' = trust_scores st
    /\ task_queue st' = task_queue st
    /\ forall cap,
         default [] (capability_registry st' !! cap)
         = default [] (capability_registry st !! cap).
Proof.
  intros Hfresh Hfreshc Htrust Hreg.
  set (aid := make_agent_id t hex8) in *.
  set (st4 := snd (create_agent_register t caps hex8 now st)).
  assert (Hget : exists a, PyDict.get (agents st4) aid = Some a
                           /\ agent_task_queue a = [] /\ capabilities a = caps
                           /\ agents st4 = PyDict.set (agents st) aid a).
  { eexists. split; [apply get_set_eq |]. repeat split. }
  destruct Hget as [a [Hget [Hq [Hcaps Hagents]]]].
  rewrite (remove_agent_idle aid draws st4 a Hget Hq).
  eexists. split; [reflexivity |].
  split.
  { simpl. fold aid. now apply del_set_fresh. }
  split.
  { simpl. fold aid. now apply del_set_fresh. }
  split.
  { simpl. fold aid. apply map_eq. intros k.
    destruct (trust_scores st !! k) as [v |] eqn:Hk.
    - destruct (Htrust k v Hk) as [Hf Hs].
      apply map_lookup_filter_Some. split; [| simpl; tauto].
      now rewrite seed_trust_other.
    - apply map_lookup_filter_None.
      destruct (decide (fst k = aid)) as [Hf | Hf]; [right; simpl; tauto |].
      destruct (decide (snd k = aid)) as [Hs | Hs]; [right; simpl; tauto |].
      left. now rewrite seed_trust_other. }
  split; [reflexivity |].
  intros cap. simpl. fold aid. rewrite Hcaps.
  rewrite (registry_remove_fold_list aid cap
             (default [] (capability_registry st !! cap)) caps (Hreg cap) _
             (count_occ String.string_dec caps cap)).
  - rewrite Nat.sub_diag. simpl. apply app_nil_r.
  - apply registry_append_fold_list.
Qed.

Lemma register_then_remove_restores_witness :
  exists st',
    _remove_agent "monitoring_agent_00000003" Examples.no_draws
      (snd (create_agent_register MONITORING_AGENT ["system_health"] "00000003"
              8 (init HYBRID))) = (Ok tt, st')
    /\ agents st' = [] /\ trust_scores st' = ∅.
Proof.
  destruct (register_then_remove_restores MONITORING_AGENT ["system_health"]
              "00000003" 8 Examples.no_draws (init HYBRID))
    as [st' [Hrun [Hag [_ [Hts _]]]]].
  - reflexivity.
  - reflexivity.
  - intros k v Hk. simpl in Hk. rewrite lookup_empty in Hk. discriminate.
  - intros cap Hin. simpl in Hin. rewrite lookup_empty in Hin. exact Hin.
  - exists st'. split; [exact Hrun |]. split; [exact Hag | exact Hts].
Defined.

(** ** SelectionStrategies *)

Lemma Qlt_bool_true (a b : Q) : Qlt_bool a b = true -> (a < b)%Q.
Proof.
  unfold Qlt_bool. intros H. apply negb_true_iff in H.
  now apply Qle_bool_false.
Qed.

Lemma Qlt_bool_false (a b : Q) : Qlt_bool a b = false -> (b <= a)%Q.
Proof.
  unfold Qlt_bool. intros H. apply negb_false_iff in H.
  now apply Qle_bool_true.
Qed.

(** [argmax_from] answers with the first entry, the running best
    included, that no entry exceeds. *)
Lemma argmax_from_first_max (d : list (string * Q)) :
  forall best : string * Q,
    (argmax_from best d = fst best
     /\ forall kv, In kv d -> (snd kv <= snd best)%Q)
    \/ exists pre k v post,
         d = (pre ++ (k, v) :: post)%list
         /\ argmax_from best d = k
         /\ (snd best < v)%Q
         /\ (forall kv, In kv pre -> (snd kv < v)%Q)
         /\ (forall kv, In kv post -> (snd kv <= v)%Q).
Proof.
  induction d as [| kv d IH]; intros best; simpl.
  - left. split; [reflexivity | tauto].
  - destruct (Qlt_bool (snd best) (snd kv)) eqn:E.
    + apply Qlt_bool_true in E. right.
      destruct (IH kv) as [[Hk Hall] | [pre [k [v [post [Hd [Hk [Hv [Hpre Hpost]]]]]]]]].
      * exists [], (fst kv), (snd kv), d. simpl.
        split; [now destruct kv |]. repeat split; try assumption; tauto.
      * exists (kv :: pre), k, v, post. simpl.
        split; [now rewrite Hd |]. split; [assumption |].
        split; [lra |]. split; [| assumption].
        intros kv' [<- | Hin]; [assumption | now apply Hpre].
    + apply Qlt_bool_false in E.
      destruct (IH best) as [[Hk Hall] | [pre [k [v [post [Hd [Hk [Hv [Hpre Hpost]]]]]]]]].
      * left. split; [assumption |].
        intros kv' [<- | Hin]; [assumption | now apply Hall].
      * right. exists (kv :: pre), k, v, post. simpl.
        split; [now rewrite Hd |]. split; [assumption |].
        split; [assumption |]. split; [| assumption].
        intros kv' [<- | Hin]; [lra | now apply Hpre].
Qed.

(** The answer of [argmax] splits the dictionary at the first entry that
    carries the greatest value. *)
Lemma argmax_split (d : list (string * Q)) (k : string) :
  argmax d = Ok k ->
  exists pre v post,
    d = (pre ++ (k, v) :: post)%list
    /\ (forall kv, In kv pre -> (snd kv < v)%Q)
    /\ (forall kv, In kv post -> (snd kv <= v)%Q).
Proof.
  destruct d as [| [k0 v0] d]; simpl; [discriminate |].
  intros [= <-].
  destruct (argmax_from_first_max d (k0, v0))
    as [[Hk Hall] | [pre [k [v [post [Hd [Hk [Hv [Hpre Hpost]]]]]]]]].
  - exists [], v0, d. rewrite Hk. simpl.
    split; [reflexivity |]. split; [tauto | assumption].
  - exists ((k0, v0) :: pre), v, post. rewrite Hk, Hd. simpl.
    split; [reflexivity |]. split; [| assumption].
    intros kv [<- | Hin]; [assumption | now apply Hpre].
Qed.

(** X8. [max(d.items(), key=...)] as used by the strategies: the answer
    is the first key, in insertion order, that carries the greatest
    value: the entries before it carry strictly smaller values, the
    entries after it values that are not greater. *)
Theorem argmax_first_greatest (d : list (string * Q)) (k : string) :
  argmax d = Ok k ->
  exists pre v post,
    d = (pre ++ (k, v) :: post)%list
    /\ (forall kv, In kv pre -> (snd kv < v)%Q)
    /\ (forall kv, In kv post -> (snd kv <= v)%Q).
Proof. apply argmax_split. Qed.

Lemma argmax_first_greatest_witness :
  exists pre v post,
    [("a", 0.2%Q); ("b", 0.7%Q); ("c", 0.7%Q)]
    = (pre ++ ("b", v) :: post)%list
    /\ (forall kv, In kv pre -> (snd kv < v)%Q)
    /\ (forall kv, In kv post -> (snd kv <= v)%Q).
Proof.
  apply (argmax_first_greatest [("a", 0.2%Q); ("b", 0.7%Q); ("c", 0.7%Q)] "b").
  reflexivity.
Defined.

Lemma argmax_is_key (d : list (string * Q)) (k : string) :
  argmax d = Ok k -> In k (PyDict.keys d).
Proof.
  intros H. destruct (argmax_split d k H) as [pre [v [post [-> _]]]].
  unfold PyDict.keys. rewrite List.map_app. apply in_or_app. right. now left.
Qed.

Lemma score_all_keys {S} (score : string -> S -> result Q * S)
    (ids : list string) :
  forall acc s d s',
    score_all score ids acc s = (Ok d, s') ->
    forall k, In k (PyDict.keys d) -> In k ids \/ In k (PyDict.keys acc).
Proof.
  induction ids as [| x ids IH]; simpl; intros acc s d s' Hrun k Hk.
  - injection Hrun as <- _. now right.
  - destruct (score x s) as [[v | e] s1]; [| discriminate].
    destruct (IH _ _ _ _ Hrun k Hk) as [H | H]; [tauto |].
    apply keys_set_In in H. destruct H as [-> | H]; tauto.
Qed.

Lemma select_collaborative_member st task ids k :
  _select_agent_collaborative st task ids = Ok k -> In k ids.
Proof.
  unfold _select_agent_collaborative.
  destruct (score_all _ ids [] tt) as [[d | e] u] eqn:Hrun; [| discriminate].
  intros H. apply argmax_is_key in H.
  destruct (score_all_keys _ _ _ _ _ _ Hrun k H) as [Hin | []]. exact Hin.
Qed.

Lemma select_competitive_member rand st task ids cursor k cursor' :
  _select_agent_competitive rand st task ids cursor = (Ok k, cursor') ->
  In k ids.
Proof.
  unfold _select_agent_competitive.
  destruct (score_all _ ids [] cursor) as [[d | e] u] eqn:Hrun; [| discriminate].
  intros [= H _]. apply argmax_is_key in H.
  destruct (score_all_keys _ _ _ _ _ _ Hrun k H) as [Hin | []]. exact Hin.
Qed.

(** The answer of [_select_agent_for_task] comes from its candidates. *)
Lemma select_agent_member (rand : nat -> Q) (st : Orchestrator)
    (task : Task) (suitable_agents : list string) (cursor cursor' : nat)
    (choice : option string) :
  _select_agent_for_task rand st task suitable_agents cursor
  = (Ok choice, cursor') ->
  match choice with
  | Some aid => In aid suitable_agents
  | None => suitable_agents = []
  end.
Proof.
  unfold _select_agent_for_task.
  destruct suitable_agents as [| a0 [| a1 rest]].
  - intros [= <- _]. reflexivity.
  - intros [= <- _]. now left.
  - set (ids := a0 :: a1 :: rest).
    destruct (coordination_mode st).
    + destruct (_select_agent_collaborative st task ids) as [k | e] eqn:Hc;
        intros [= <- _]. now apply select_collaborative_member in Hc.
    + destruct (_select_agent_competitive rand st task ids cursor)
        as [[k | e] c1] eqn:Hc; intros [= <- _].
      now apply select_competitive_member in Hc.
    + unfold _select_agent_hybrid.
      destruct ((8 <=? priority task) || (3 <? List.length (requirements task))%nat).
      * destruct (_select_agent_collaborative st task ids) as [k | e] eqn:Hc;
          intros [= <- _]. now apply select_collaborative_member in Hc.
      * destruct (priority task <=? 3).
        -- destruct (_select_agent_competitive rand st task ids cursor)
             as [[k | e] c1] eqn:Hc; intros [= <- _].
           now apply select_competitive_member in Hc.
        -- destruct (_select_agent_collaborative st task ids) as [k | e] eqn:Hc;
             [| intros [= ]].
           destruct (_select_agent_competitive rand st task ids cursor)
             as [[k' | e] c1] eqn:Hc'; [| intros [= ]].
           apply select_collaborative_member in Hc.
           apply select_competitive_member in Hc'.
           destruct (Qlt_bool 0.3 (rand c1)); intros [= <- _]; assumption.
Qed.

(** X9. Whatever the coordination mode and the random draws, an agent
    chosen by [_select_agent_for_task] is one of the suitable agents it
    was given, and [None] is answered only for an empty list. *)
Theorem select_agent_is_suitable (rand : nat -> Q) (st : Orchestrator)
    (task : Task) (suitable_agents : list string) (cursor cursor' : nat)
    (choice : option string) :
  _select_agent_for_task rand st task suitable_agents cursor
  = (Ok choice, cursor') ->
  match choice with
  | Some aid => In aid suitable_agents
  | None => suitable_agents = []
  end.
Proof. apply select_agent_member. Qed.

Lemma select_agent_is_suitable_witness :
  In "risk_agent_00000001"
    ["risk_agent_00000001"; "decision_agent_00000002"].
Proof.
  apply (select_agent_is_suitable (fun _ => 0.5%Q) Examples.both_active
           Examples.some_task
           ["risk_agent_00000001"; "decision_agent_00000002"] 0 3
           (Some "risk_agent_00000001")).
  vm_compute. reflexivity.
Defined.

Lemma In_set_cases {V} (d : list (string * V)) (k k' : string) (v v' : V) :
  In (k', v') (PyDict.set d k v) -> (k', v') = (k, v) \/ In (k', v') d.
Proof.
  induction d as [| [k0 v0] d IH]; simpl.
  - intros [H | []]. left. now symmetry.
  - destruct (String.eqb k0 k); simpl.
    + intros [H | H]; [left; now symmetry | tauto].
    + intros [H | H]; [tauto |]. destruct (IH H); tauto.
Qed.

Lemma keys_set_new {V} (d : list (string * V)) (k : string) (v : V) :
  In k (PyDict.keys (PyDict.set d k v)).
Proof.
  induction d as [| [k0 v0] d IH]; simpl; [now left |].
  destruct (String.eqb_spec k0 k) as [-> | Hne]; simpl; [now left | now right].
Qed.

(** A scoring loop whose score does not depend on the threaded state
    stores, for every candidate, the score of that candidate. *)
Lemma score_all_pure (f : string -> result Q) (ids : list string) :
  forall acc d u,
    score_all (fun aid (_ : unit) => (f aid, tt)) ids acc tt = (Ok d, u) ->
    (forall k v, In (k, v) acc -> f k = Ok v) ->
    (forall k v, In (k, v) d -> f k = Ok v)
    /\ (forall c, In c ids \/ In c (PyDict.keys acc) -> In c (PyDict.keys d)).
Proof.
  induction ids as [| x ids IH]; simpl; intros acc d u Hrun Hacc.
  - injection Hrun as <- _. split; [assumption | tauto].
  - destruct (f x) as [v |] eqn:Hfx; [| discriminate].
    destruct (IH _ _ _ Hrun) as [Hd Hkeys].
    + intros k v' Hin. apply In_set_cases in Hin.
      destruct Hin as [[= -> ->] | Hin]; [assumption | now apply Hacc].
    + split; [assumption |].
      intros c [[-> | Hc] | Hc]; apply Hkeys; [right | left | right]; try assumption.
      * apply keys_set_new.
      * now apply keys_set_keep.
Qed.

Lemma clamp_score_range (total : option Q) : (0 <= clamp_score total <= 1)%Q.
Proof.
  destruct total as [x |]; simpl.
  - destruct (py_clamp_range 0.0 1.0 x) as [Hlo Hhi]; lra.
  - unfold py_max. qcases; lra.
Qed.

(** X10. Every score the collaborative strategy stores lies in [0, 1],
    also when the trust mean is undefined because no other agent is
    known. *)
Theorem collaborative_score_range (st : Orchestrator) (task : Task)
    (aid : string) (s : Q) :
  collaborative_score st task aid = Ok s -> (0 <= s <= 1)%Q.
Proof.
  unfold collaborative_score.
  destruct (PyDict.get (agents st) aid); [| discriminate].
  destruct (PyDict.get (agent_configs st) aid); [| discriminate].
  destruct (is_empty (requirements task)); [discriminate |].
  intros [= <-]. apply clamp_score_range.
Qed.

Lemma collaborative_score_range_witness :
  exists s,
    collaborative_score
      (Examples.single "risk_agent_00000001" ACTIVE 0 []) Examples.some_task
      "risk_agent_00000001" = Ok s
    /\ (0 <= s <= 1)%Q.
Proof.
  eexists. split; [vm_compute; reflexivity |].
  eapply (collaborative_score_range
            (Examples.single "risk_agent_00000001" ACTIVE 0 [])
            Examples.some_task "risk_agent_00000001").
  vm_compute. reflexivity.
Defined.

(** X11. The collaborative strategy answers with a candidate whose
    score no candidate exceeds; it answers only when the score of every
    candidate is defined. *)
Theorem select_collaborative_greatest (st : Orchestrator) (task : Task)
    (ids : list string) (k : string) :
  _select_agent_collaborative st task ids = Ok k ->
  In k ids
  /\ exists s,
       collaborative_score st task k = Ok s
       /\ forall c, In c ids ->
                    exists s', collaborative_score st task c = Ok s'
                               /\ (s' <= s)%Q.
Proof.
  intros Hsel. split; [now apply select_collaborative_member in Hsel |].
  unfold _select_agent_collaborative in Hsel.
  destruct (score_all _ ids [] tt) as [[d | e] u] eqn:Hrun; [| discriminate].
  destruct u.
  destruct (score_all_pure (collaborative_score st task) ids [] d tt Hrun)
    as [Hd Hkeys]; [intros ? ? [] |].
  destruct (argmax_split d k Hsel) as [pre [v [post [Hsplit [Hpre Hpost]]]]].
  exists v. split.
  { apply Hd. rewrite Hsplit. apply in_or_app. right. now left. }
  intros c Hc.
  assert (Hin : In c (PyDict.keys d)) by (apply Hkeys; now left).
  apply in_map_iff in Hin. destruct Hin as [[c' s'] [Hfst Hin]].
  simpl in Hfst. subst c'. exists s'. split; [now apply Hd |].
  rewrite Hsplit in Hin. apply in_app_or in Hin.
  destruct Hin as [Hin | [[= _ <-] | Hin]].
  - apply Qlt_le_weak. exact (Hpre _ Hin).
  - apply Qle_refl.
  - exact (Hpost _ Hin).
Qed.

Lemma select_collaborative_greatest_witness :
  exists k s,
    _select_agent_collaborative Examples.both_active Examples.some_task
      ["risk_agent_00000001"; "decision_agent_00000002"] = Ok k
    /\ collaborative_score Examples.both_active Examples.some_task k = Ok s
    /\ exists s',
         collaborative_score Examples.both_active Examples.some_task
           "decision_agent_00000002" = Ok s'
         /\ (s' <= s)%Q.
Proof.
  assert (Hsel : _select_agent_collaborative Examples.both_active
                   Examples.some_task
                   ["risk_agent_00000001"; "decision_agent_00000002"]
                 = Ok "risk_agent_00000001") by (vm_compute; reflexivity).
  destruct (select_collaborative_greatest _ _ _ _ Hsel) as [_ [s [Hs Hall]]].
  exists "risk_agent_00000001", s. split; [exact Hsel |]. split; [exact Hs |].
  apply Hall. simpl. tauto.
Defined.

(** ** PerformanceTracker *)

Lemma update_reliability_strict (success : bool) (r : Q) :
  (0.1 <= r <= 1)%Q ->
  let r' := update_reliability success r in
  (0.1 <= r' <= 1)%Q
  /\ (success = true -> (r < 1)%Q -> (r < r')%Q)
  /\ (success = false -> (0.1 < r)%Q -> (r' < r)%Q).
Proof.
  intros [Hlo Hhi]. unfold update_reliability.
  destruct success; simpl.
  - unfold py_min. qcases; repeat split; intros; try discriminate; lra.
  - unfold py_max. qcases; repeat split; intros; try discriminate; lra.
Qed.



Lemma Qdiv_unit_range (c t : Z) :
  0 <= c -> 0 <= t - c -> 0 < t ->
  (0 <= inject_Z c / inject_Z t * 60 <= 60)%Q.
Proof.
  intros Hc Hf Ht.
  assert (Htq : (0 < inject_Z t)%Q) by (change 0%Q with (inject_Z 0); now rewrite <- Zlt_Qlt).
  assert (Hcq : (0 <= inject_Z c)%Q) by (change 0%Q with (inject_Z 0); now rewrite <- Zle_Qle).
  assert (Hct : (inject_Z c <= inject_Z t)%Q) by (rewrite <- Zle_Qle; lia).
  assert (Hdiv : (0 <= inject_Z c / inject_Z t <= 1)%Q).
  { split.
    - apply Qle_shift_div_l; [assumption | lra].
    - apply Qle_shift_div_r; [assumption | lra]. }
  lra.
Qed.

(** X13. [_update_agent_performance] keeps the metrics of the agent in
    their ranges: for a processing time that is not negative and
    completion counters that are not negative, success rate and
    efficiency stay in [0, 1], reliability in [0.1, 1], the average
    processing time stays non-negative and the throughput in [0, 60]. *)
Theorem update_performance_keeps_ranges (st : Orchestrator) (aid : string)
    (a : AgentState) (success : bool) (processing_time : Q) :
  PyDict.get (agents st) aid = Some a ->
  metrics_in_range (performance_metrics a) ->
  (0 <= processing_time)%Q ->
  0 <= completed_tasks a -> 0 <= failed_tasks a ->
  exists a',
    PyDict.get (agents (snd (_update_agent_performance aid success processing_time st))) aid
    = Some a'
    /\ metrics_in_range (performance_metrics a').
Proof.
  intros Hget Hrange Hpt Hc Hf.
  unfold _update_agent_performance. rewrite Hget. simpl.
  rewrite get_set_eq. eexists. split; [reflexivity |]. simpl.
  destruct Hrange as [Hsr [Hapt [Hrel [Heff Hthr]]]].
  set (lr := if (List.length _ <? 10)%nat then 0.1%Q else 0.05%Q).
  assert (Hlr : (0 < lr < 1)%Q) by (unfold lr; destruct (_ <? _)%nat; lra).
  assert (Hcs : (0 <= bool_to_float success <= 1)%Q)
    by (destruct success; simpl; lra).
  assert (Hmin : (0 <= py_min processing_time 10.0 <= 10)%Q).
  { unfold py_min. qcases; lra. }
  unfold metrics_in_range. simpl.
  split; [split; nra |].
  split.
  { unfold Qlt_bool. qcases; simpl; [assumption | nra]. }
  split; [apply (update_reliability_strict success _ Hrel) |].
  split.
  { assert (He : (0 <= 1.0 - py_min processing_time 10.0 / 10.0 <= 1)%Q).
    { assert (Hd : (py_min processing_time 10.0 / 10.0
                    == py_min processing_time 10.0 * (1 # 10))%Q).
      { unfold Qdiv. apply Qmult_comp; reflexivity. }
      rewrite Hd. lra. }
    split; nra. }
  destruct (Z.ltb_spec 0 (completed_tasks a + failed_tasks a)); [| assumption].
  apply Qdiv_unit_range; lia.
Qed.

Lemma update_performance_keeps_ranges_witness :
  exists a',
    PyDict.get
      (agents (snd (_update_agent_performance "risk_agent_00000001" false 12
                      Examples.two_agents)))
      "risk_agent_00000001" = Some a'
    /\ metrics_in_range (performance_metrics a').
Proof.
  apply (update_performance_keeps_ranges Examples.two_agents
           "risk_agent_00000001"
           (set_status (Examples.agent "risk_agent_00000001" INITIALIZING 0 []) ACTIVE)
           false 12).
  - reflexivity.
  - unfold metrics_in_range. simpl. lra.
  - lra.
  - simpl. lia.
  - simpl. lia.
Defined.

(** ** CoordinationCoordinator *)

(** X14. With no active candidate [coordinate_agents] awaits nothing and
    answers with an explicit failure result: no participant, the error
    "No available agents for coordination", whatever the contribution
    calls would have returned. The event is counted, but, unlike a
    timeout, it is not appended to the coordination history. *)
Theorem coordinate_agents_no_candidate (tid : string) (agent_ids : list string)
    (mode : CoordinationMode) (calls : nat -> CallOutcome) (hex8 : string)
    (now : Z) (st : Orchestrator) :
  List.filter (is_available st) agent_ids = [] ->
  exists r st',
    coordinate_agents tid agent_ids mode calls hex8 now st = (Ok r, st')
    /\ cr_success r = false
    /\ cr_result r = PayloadError "No available agents for coordination"
    /\ participating_agents r = []
    /\ coordination_events st' = coordination_events st + 1
    /\ coordination_history st' = coordination_history st
    /\ forall calls',
         coordinate_agents tid agent_ids mode calls' hex8 now st = (Ok r, st').
Proof.
  intros Hnone.
  assert (Hrun : forall c,
             coordinate_agents tid agent_ids mode c hex8 now st
             = (Ok {| coordination_id := make_coordination_id hex8;
                      cr_task_id := tid; participating_agents := [];
                      cr_result := PayloadError "No available agents for coordination";
                      cr_coordination_mode := mode; cr_timestamp := now;
                      cr_success := false |},
                set_coordination_events st (coordination_events st + 1))).
  { intros c. unfold coordinate_agents, bind, modify, get_state.
    change (is_available (set_coordination_events st (coordination_events st + 1)))
      with (is_available st).
    rewrite Hnone. reflexivity. }
  eexists. eexists. split; [apply Hrun |]. repeat split. apply Hrun.
Qed.

Lemma coordinate_agents_no_candidate_witness :
  exists r st',
    coordinate_agents "TASK_0000000a" ["risk_agent_00000001"] HYBRID
      Examples.one_raises "0000000d" 9
      (Examples.single "risk_agent_00000001" PAUSED 0 []) = (Ok r, st')
    /\ cr_success r = false
    /\ coordination_events st' = 1
    /\ coordination_history st' = [].
Proof.
  destruct (coordinate_agents_no_candidate "TASK_0000000a"
              ["risk_agent_00000001"] HYBRID Examples.one_raises "0000000d" 9
              (Examples.single "risk_agent_00000001" PAUSED 0 []))
    as [r [st' [Hrun [Hs [_ [_ [Hev [Hh _]]]]]]]].
  - reflexivity.
  - exists r, st'. split; [exact Hrun |]. split; [exact Hs |].
    split; [exact Hev | exact Hh].
Defined.

(** The competitive loop ends on the running best, when no entry beats
    it, or on the first entry that carries the greatest score. *)
Lemma competitive_best_spec (results : list (string * Contribution)) :
  forall bs bc : Q,
    let out := competitive_best results bs bc in
    (forall k r, In (k, r) results -> c_error r = false ->
                 (c_contribution r * c_confidence r <= fst out)%Q)
    /\ (bs <= fst out)%Q
    /\ (out = (bs, bc)
        \/ exists k r,
             In (k, r) results /\ c_error r = false
             /\ fst out = (c_contribution r * c_confidence r)%Q
             /\ snd out = c_contribution r /\ (bs < fst out)%Q).
Proof.
  induction results as [| [k0 r0] results IH]; intros bs bc; simpl.
  - split; [tauto |]. split; [apply Qle_refl | now left].
  - destruct (c_error r0) eqn:Herr.
    + destruct (IH bs bc) as [Hall [Hge Hcase]].
      split; [| split; [assumption |]].
      * intros k r [[= <- <-] | Hin] He; [congruence | eauto].
      * destruct Hcase as [-> | [k [r [Hin Hrest]]]]; [now left |].
        right. exists k, r. tauto.
    + destruct (Qlt_bool bs (c_contribution r0 * c_confidence r0)) eqn:E.
      * apply Qlt_bool_true in E.
        destruct (IH (c_contribution r0 * c_confidence r0)%Q (c_contribution r0))
          as [Hall [Hge Hcase]].
        split; [| split; [lra |]].
        -- intros k r [[= <- <-] | Hin] He; [assumption | eauto].
        -- right. destruct Hcase as [-> | [k [r [Hin [He [Hf [Hs Hlt]]]]]]].
           ++ exists k0, r0. simpl. tauto.
           ++ exists k, r. repeat split; try tauto. lra.
      * apply Qlt_bool_false in E.
        destruct (IH bs bc) as [Hall [Hge Hcase]].
        split; [| split; [assumption |]].
        -- intros k r [[= <- <-] | Hin] He; [lra | eauto].
        -- destruct Hcase as [-> | [k [r [Hin Hrest]]]]; [now left |].
           right. exists k, r. tauto.
Qed.

(** The two outcomes of the competitive combination. *)
Lemma competitive_value_cases (results : list (string * Contribution)) :
  (forall k r, In (k, r) results -> c_error r = false ->
               (0 <= c_contribution r)%Q /\ (0 <= c_confidence r)%Q) ->
  ((forall k r, In (k, r) results -> c_error r = true)
   /\ competitive_value results = 0.0%Q)
  \/ exists k r,
       In (k, r) results /\ c_error r = false
       /\ competitive_value results = c_contribution r
       /\ forall k' r', In (k', r') results -> c_error r' = false ->
                        (c_contribution r' * c_confidence r'
                         <= c_contribution r * c_confidence r)%Q.
Proof.
  intros Hpos. unfold competitive_value.
  destruct (competitive_best_spec results (-1)%Q 0%Q) as [Hall [Hge Hcase]].
  destruct (competitive_best results (-1)%Q 0%Q) as [bs bc] eqn:Hbest.
  simpl in *.
  destruct Hcase as [[= -> ->] | [k [r [Hin [He [Hf [Hs Hlt]]]]]]].
  - left. split; [| reflexivity].
    intros k r Hin. destruct (c_error r) eqn:He; [reflexivity |].
    destruct (Hpos k r Hin He) as [H1 H2]. pose proof (Hall k r Hin He).
    assert (0 <= c_contribution r * c_confidence r)%Q by nra. lra.
  - right. exists k, r. split; [assumption |]. split; [assumption |].
    destruct (Hpos k r Hin He) as [H1 H2].
    assert (Hnn : (0 <= bs)%Q) by (rewrite Hf; nra).
    apply Qle_bool_iff in Hnn. rewrite Hnn.
    split; [assumption |]. intros k' r' Hin' He'. rewrite <- Hf. eauto.
Qed.

(** X15. Competitive combination: when the contributions and the
    confidences are not negative, the combined value is the contribution
    of an entry without error whose product contribution x confidence no
    other such entry exceeds; it is 0 when every entry carries an error. *)
Theorem competitive_value_best (results : list (string * Contribution)) :
  (forall k r, In (k, r) results -> c_error r = false ->
               (0 <= c_contribution r)%Q /\ (0 <= c_confidence r)%Q) ->
  ((forall k r, In (k, r) results -> c_error r = true)
   /\ competitive_value results = 0.0%Q)
  \/ exists k r,
       In (k, r) results /\ c_error r = false
       /\ competitive_value results = c_contribution r
       /\ forall k' r', In (k', r') results -> c_error r' = false ->
                        (c_contribution r' * c_confidence r'
                         <= c_contribution r * c_confidence r)%Q.
Proof. apply competitive_value_cases. Qed.

Lemma competitive_value_best_witness :
  competitive_value
    [("risk_agent_00000001",
      {| c_agent_id := "risk_agent_00000001"; c_contribution := 0.8;
         c_confidence := 0.5; c_error := false |});
     ("decision_agent_00000002",
      {| c_agent_id := "decision_agent_00000002"; c_contribution := 0.6;
         c_confidence := 0.9; c_error := false |});
     ("monitoring_agent_00000003", zero_entry "monitoring_agent_00000003")]
  = 0.6%Q.
Proof.
  destruct (competitive_value_best
              [("risk_agent_00000001",
                {| c_agent_id := "risk_agent_00000001"; c_contribution := 0.8;
                   c_confidence := 0.5; c_error := false |});
               ("decision_agent_00000002",
                {| c_agent_id := "decision_agent_00000002"; c_contribution := 0.6;
                   c_confidence := 0.9; c_error := false |});
               ("monitoring_agent_00000003", zero_entry "monitoring_agent_00000003")])
    as [[Hall _] | [k [r [_ [_ [Hval _]]]]]].
  - intros k r [[= <- <-] | [[= <- <-] | [[= <- <-] | []]]] He; simpl in *;
      try discriminate; split; lra.
  - specialize (Hall "risk_agent_00000001" _ (or_introl eq_refl)).
    discriminate.
  - reflexivity.
Defined.

Lemma inject_nat_succ (n : nat) :
  (inject_Z (Z.of_nat (S n)) == inject_Z (Z.of_nat n) + 1)%Q.
Proof. rewrite Nat2Z.inj_succ. unfold Z.succ. now rewrite inject_Z_plus. Qed.

Lemma fold_sum_bounds (lo hi : Q) (xs : list Q) :
  (forall x, In x xs -> (lo <= x <= hi)%Q) ->
  forall acc : Q,
    (acc + inject_Z (Z.of_nat (List.length xs)) * lo
     <= fold_left Qplus xs acc
     <= acc + inject_Z (Z.of_nat (List.length xs)) * hi)%Q.
Proof.
  induction xs as [| x xs IH]; intros Hall acc.
  - cbn [fold_left List.length]. change (inject_Z (Z.of_nat 0)) with 0%Q. lra.
  - cbn [fold_left List.length]. rewrite inject_nat_succ.
    destruct (IH (fun y Hy => Hall y (or_intror Hy)) (acc + x)%Q) as [H1 H2].
    destruct (Hall x (or_introl eq_refl)) as [H3 H4].
    set (n := inject_Z (Z.of_nat (List.length xs))) in *.
    split; nra.
Qed.

(** [np.mean] of values of an interval lies in the interval. *)
Lemma np_mean_bounds (lo hi : Q) (xs : list Q) (m : Q) :
  (forall x, In x xs -> (lo <= x <= hi)%Q) ->
  np_mean xs = Some m -> (lo <= m <= hi)%Q.
Proof.
  intros Hall. unfold np_mean. destruct xs as [| x xs]; [discriminate |].
  intros [= <-]. unfold py_sum.
  destruct (fold_sum_bounds lo hi (x :: xs) Hall 0%Q) as [H1 H2].
  set (n := inject_Z (Z.of_nat (List.length (x :: xs)))) in *.
  assert (Hn : (0 < n)%Q).
  { unfold n. change 0%Q with (inject_Z 0). rewrite <- Zlt_Qlt. simpl. lia. }
  change (inject_Z (Z.of_nat (S (List.length xs)))) with n.
  set (total := fold_left Qplus (x :: xs) 0%Q) in *.
  clearbody n total.
  split.
  - apply Qle_shift_div_l; [assumption | nra].
  - apply Qle_shift_div_r; [assumption | nra].
Qed.

Lemma np_mean_nonempty (xs : list Q) :
  xs <> [] -> exists m, np_mean xs = Some m.
Proof. destruct xs; [contradiction | intros _; simpl; eauto]. Qed.




(** The combination reads the state only through the agent dictionary. *)
Lemma combine_agents_ext (st1 st2 : Orchestrator)
    (results : list (string * Contribution)) (mode : CoordinationMode) :
  agents st1 = agents st2 ->
  _combine_coordination_results st1 results mode
  = _combine_coordination_results st2 results mode.
Proof.
  intros Hag.
  assert (Hw : forall weighted total,
             collaborative_weights st1 results weighted total
             = collaborative_weights st2 results weighted total).
  { induction results as [| [k r] results IH]; simpl; intros weighted total;
      [reflexivity |].
    rewrite Hag. destruct (c_error r); [apply IH |].
    destruct (PyDict.get (agents st2) k); [apply IH | reflexivity]. }
  unfold _combine_coordination_results, collaborative_value.
  now rewrite Hw.
Qed.

(** The path of [coordinate_agents] when every call is over in time. *)
Lemma coordinate_agents_completed (tid : string) (agent_ids : list string)
    (mode : CoordinationMode) (calls : nat -> CallOutcome) (hex8 : string)
    (now : Z) (st : Orchestrator) (results : list (option (Q * Q)))
    (payload : CoordinationPayload) :
  let available := List.filter (is_available st) agent_ids in
  available <> [] ->
  gather_wait_for (List.map calls (seq 0 (List.length available))) = Ok results ->
  _combine_coordination_results st (process_results available 0 results []) mode
  = Ok payload ->
  let r :=
    {| coordination_id := make_coordination_id hex8; cr_task_id := tid;
       participating_agents := available; cr_result := payload;
       cr_coordination_mode := mode; cr_timestamp := now; cr_success := true |} in
  coordinate_agents tid agent_ids mode calls hex8 now st
  = (Ok r,
     set_coordination_history
       (set_coordination_events st (coordination_events st + 1))
       (coordination_history st ++ [r])%list).
Proof.
  intros available Hne Hgather Hcombine r.
  unfold coordinate_agents, bind, modify, get_state.
  change (is_available (set_coordination_events st (coordination_events st + 1)))
    with (is_available st).
  fold available.
  assert (Hemp : is_empty available = false).
  { clear - Hne. clearbody available.
    destruct available; [contradiction | reflexivity]. }
  rewrite Hemp, Hgather.
  rewrite (combine_agents_ext
             (set_coordination_events st (coordination_events st + 1)) st
             (process_results available 0 results []) mode eq_refl).
  rewrite Hcombine. reflexivity.
Qed.

Lemma process_results_all_zero (results : list (option (Q * Q)))
    (available : list string) :
  (forall i, nth_error results i = Some None \/ nth_error results i = None) ->
  forall i acc k c,
    In (k, c) (process_results available i results acc) ->
    c = zero_entry k \/ In (k, c) acc.
Proof.
  intros Hnone. induction available as [| x rest IH]; simpl; intros i acc k c Hin.
  - now right.
  - destruct (IH _ _ _ _ Hin) as [H | H]; [now left |].
    apply In_set_cases in H. destruct H as [[= -> ->] | H]; [| now right].
    left. unfold make_entry. destruct (Hnone i) as [-> | ->]; reflexivity.
Qed.

Lemma collaborative_weights_all_errors (st : Orchestrator)
    (results : list (string * Contribution)) (weighted : list Q) (total : Q) :
  (forall k r, In (k, r) results -> c_error r = true) ->
  collaborative_weights st results weighted total = Ok (weighted, total).
Proof.
  induction results as [| [k r] results IH]; simpl; intros Hall; [reflexivity |].
  rewrite (Hall k r (or_introl eq_refl)). apply IH. eauto.
Qed.

Lemma competitive_best_all_errors (results : list (string * Contribution))
    (bs bc : Q) :
  (forall k r, In (k, r) results -> c_error r = true) ->
  competitive_best results bs bc = (bs, bc).
Proof.
  induction results as [| [k r] results IH]; simpl; intros Hall; [reflexivity |].
  rewrite (Hall k r (or_introl eq_refl)). apply IH. eauto.
Qed.

(** Combining entries that are all zero entries gives the value 0 in
    every mode. *)
Lemma combine_all_zero (st : Orchestrator)
    (results : list (string * Contribution)) (mode : CoordinationMode) :
  results <> [] ->
  (forall k r, In (k, r) results -> r = zero_entry k) ->
  exists x,
    _combine_coordination_results st results mode
    = Ok (PayloadCombined (Some x) (PyDict.keys results) results mode)
    /\ (x == 0)%Q.
Proof.
  intros Hne Hzero.
  assert (Herr : forall k r, In (k, r) results -> c_error r = true).
  { intros k r Hin. now rewrite (Hzero k r Hin). }
  assert (Hmean : forall f : Contribution -> Q,
             (forall k, f (zero_entry k) = 0.0%Q) ->
             exists m, np_mean (List.map f (PyDict.values results)) = Some m
                       /\ (m == 0)%Q).
  { intros f Hf.
    destruct (np_mean_nonempty (List.map f (PyDict.values results))) as [m Hm].
    { destruct results; [contradiction | discriminate]. }
    exists m. split; [assumption |].
    assert (Hb : (0 <= m <= 0)%Q).
    { apply (np_mean_bounds 0 0 (List.map f (PyDict.values results)) m);
        [| assumption].
      intros x Hx. unfold PyDict.values in Hx. rewrite List.map_map in Hx.
      apply in_map_iff in Hx. destruct Hx as [[k r] [<- Hin]]. simpl.
      rewrite (Hzero k r Hin), Hf. lra. }
    lra. }
  destruct (Hmean c_contribution (fun _ => eq_refl)) as [mc [Hmc Emc]].
  destruct (Hmean c_confidence (fun _ => eq_refl)) as [mq [Hmq Emq]].
  assert (Hcv : collaborative_value st results = Ok (Some mc)).
  { unfold collaborative_value.
    rewrite (collaborative_weights_all_errors st results [] 0%Q Herr).
    simpl. now rewrite Hmc. }
  assert (Hcomp : competitive_value results = 0.0%Q).
  { unfold competitive_value.
    now rewrite (competitive_best_all_errors results (-1)%Q 0%Q Herr). }
  unfold _combine_coordination_results.
  destruct results as [| kr results]; [contradiction |]. cbn [is_empty].
  destruct mode.
  - rewrite Hcv. eauto.
  - rewrite Hcomp. eexists. split; [reflexivity | reflexivity].
  - rewrite Hcv, Hcomp, Hmq. simpl. eexists. split; [reflexivity |].
    rewrite Emc, Emq. reflexivity.
Qed.

(** X17. When every contribution call raises within the window, the
    coordination still reports success: every available agent gets the
    zero entry and the combined value is 0 in every mode. *)
Theorem coordinate_agents_all_raised (tid : string) (agent_ids : list string)
    (mode : CoordinationMode) (calls : nat -> CallOutcome) (hex8 : string)
    (now : Z) (st : Orchestrator) :
  List.filter (is_available st) agent_ids <> [] ->
  (forall i, calls i = Raised) ->
  exists r st' x entries,
    coordinate_agents tid agent_ids mode calls hex8 now st = (Ok r, st')
    /\ cr_success r = true
    /\ cr_result r = PayloadCombined (Some x) (PyDict.keys entries) entries mode
    /\ (x == 0)%Q
    /\ (forall k c, In (k, c) entries -> c = zero_entry k)
    /\ coordination_history st' = (coordination_history st ++ [r])%list.
Proof.
  intros Hne Hraised.
  set (available := List.filter (is_available st) agent_ids) in *.
  set (outcomes := List.map calls (seq 0 (List.length available))).
  assert (Hdone : existsb not_completed outcomes = false).
  { unfold outcomes. induction (seq 0 (List.length available)) as [| i l IH];
      simpl; [reflexivity |]. now rewrite Hraised. }
  destruct (gather_wait_for_done outcomes Hdone) as [results [Hgather _]].
  assert (Hres : forall i, nth_error results i = Some None \/ nth_error results i = None).
  { unfold gather_wait_for in Hgather. rewrite Hdone in Hgather.
    injection Hgather as <-. intros i. unfold outcomes.
    rewrite !nth_error_map.
    destruct (nth_error (seq 0 (List.length available)) i); simpl;
      [left; now rewrite Hraised | now right]. }
  set (entries := process_results available 0 results []).
  assert (Hzero : forall k c, In (k, c) entries -> c = zero_entry k).
  { intros k c Hin.
    destruct (process_results_all_zero results available Hres 0%nat [] k c Hin)
      as [H | []]. exact H. }
  assert (Hentries : entries <> []).
  { assert (Hfirst : exists a0, In a0 available).
    { clear - Hne. clearbody available.
      destruct available as [| a0 rest]; [contradiction | exists a0; now left]. }
    destruct Hfirst as [a0 Ha0].
    destruct (in_split_last a0 available Ha0) as [pre [post [Hsplit Hpost]]].
    intros Hnil.
    assert (Hget : PyDict.get entries a0
                   = Some (make_entry a0 results (0 + List.length pre)))
      by (unfold entries; rewrite Hsplit; now apply process_results_last).
    rewrite Hnil in Hget. discriminate. }
  destruct (combine_all_zero st entries mode Hentries Hzero) as [x [Hcombine Hx]].
  pose proof (coordinate_agents_completed tid agent_ids mode calls hex8 now st
                results _ Hne Hgather Hcombine) as Hrun.
  cbv zeta in Hrun. rewrite Hrun.
  eexists. eexists. exists x, entries. split; [reflexivity |].
  repeat split; assumption.
Qed.

Lemma coordinate_agents_all_raised_witness :
  exists r st' x entries,
    coordinate_agents "TASK_0000000a"
      ["risk_agent_00000001"; "decision_agent_00000002"] COMPETITIVE
      (fun _ => Raised) "0000000d" 9 Examples.both_active = (Ok r, st')
    /\ cr_success r = true
    /\ cr_result r = PayloadCombined (Some x) (PyDict.keys entries) entries COMPETITIVE
    /\ (x == 0)%Q.
Proof.
  destruct (coordinate_agents_all_raised "TASK_0000000a"
              ["risk_agent_00000001"; "decision_agent_00000002"] COMPETITIVE
              (fun _ => Raised) "0000000d" 9 Examples.both_active)
    as [r [st' [x [entries [Hrun [Hs [Hres [Hx _]]]]]]]].
  - vm_compute. discriminate.
  - reflexivity.
  - exists r, st', x, entries. repeat split; assumption.
Defined.

(** ** HealthMonitor *)

Lemma remove_agent_cases_idle aid draws st :
  snd (_remove_agent aid draws st) = st
  \/ exists a, PyDict.get (agents st) aid = Some a
               /\ agent_task_queue a = []
               /\ _remove_agent aid draws st = (Ok tt, unregister_agent aid a st).
Proof.
  destruct (PyDict.get (agents st) aid) as [a |] eqn:H.
  - destruct (agent_task_queue a) as [| item q] eqn:Hq.
    + right. exists a. split; [reflexivity |]. split; [assumption |].
      now apply remove_agent_idle.
    + left. rewrite (remove_agent_busy aid draws st a H); [reflexivity |].
      rewrite Hq. discriminate.
  - left. now rewrite remove_agent_absent.
Qed.

(** A property kept by the removal of an idle agent is kept by the whole
    removal loop of a monitor pass. *)
Lemma for_each_remove_invariant (P : Orchestrator -> Prop)
    (draws : string -> nat -> string * Z) :
  (forall st x a, P st -> PyDict.get (agents st) x = Some a ->
                  agent_task_queue a = [] -> P (unregister_agent x a st)) ->
  forall ids i st,
    P st -> P (snd (for_each ids i (fun _ x => _remove_agent x (draws x)) st)).
Proof.
  intros Hstep. induction ids as [| x ids IH]; intros i st HP; [assumption |].
  simpl. unfold bind.
  destruct (remove_agent_cases_idle x (draws x) st) as [Hsame | [a [Hget [Hq Hrun]]]].
  - destruct (_remove_agent x (draws x) st) as [[[] | e] st1]; simpl in *; subst st1.
    + now apply IH.
    + assumption.
  - rewrite Hrun. apply IH. now apply Hstep.
Qed.

Lemma monitor_tick_unfold now samples draws st :
  let monitored :=
    List.map (fun kv => (fst kv, monitor_agent now (samples (fst kv)) (snd kv)))
      (agents st) in
  let ids :=
    List.map fst
      (List.filter (fun kv => AgentStatus_eqb (status (snd kv)) TERMINATED)
         monitored) in
  let out :=
    for_each ids 0 (fun _ x => _remove_agent x (draws x)) (set_agents st monitored) in
  monitor_tick now samples draws st
  = (Ok (match fst out with Ok _ => 10 | Raise _ => 30 end), snd out).
Proof.
  intros monitored ids out. unfold monitor_tick. fold monitored. fold ids.
  change (for_each ids 0 (fun (_ : nat) (aid : string) => _remove_agent aid (draws aid))
            (set_agents st monitored)) with out.
  now destruct out as [[u | e] st'].
Qed.

Lemma monitored_keys now samples (d : list (string * AgentState)) :
  PyDict.keys
    (List.map (fun kv => (fst kv, monitor_agent now (samples (fst kv)) (snd kv))) d)
  = PyDict.keys d.
Proof. unfold PyDict.keys. rewrite List.map_map. reflexivity. Qed.

Lemma monitor_agent_frame now u a :
  agent_task_queue (monitor_agent now u a) = agent_task_queue a
  /\ performance_metrics (monitor_agent now u a) = performance_metrics a
  /\ capabilities (monitor_agent now u a) = capabilities a
  /\ agent_id (monitor_agent now u a) = agent_id a.
Proof.
  unfold monitor_agent.
  destruct (Qlt_bool 300 (total_seconds (now - last_heartbeat a))); simpl;
    try match goal with
      | |- context [AgentStatus_eqb ?s ACTIVE] => destruct (AgentStatus_eqb s ACTIVE)
      end; repeat split.
Qed.

Lemma monitor_agent_fresh now u a :
  (total_seconds (now - last_heartbeat a) <= 300)%Q ->
  status (monitor_agent now u a) = status a
  /\ last_heartbeat (monitor_agent now u a)
     = if AgentStatus_eqb (status a) ACTIVE then now else last_heartbeat a.
Proof.
  intros Hfresh. unfold monitor_agent, Qlt_bool.
  apply Qle_bool_iff in Hfresh. rewrite Hfresh. simpl.
  destruct (AgentStatus_eqb (status a) ACTIVE); split; reflexivity.
Qed.

(** An agent that is not [TERMINATED] after the heartbeat check leaves
    the pass as the check made it. *)
Lemma monitor_tick_kept now samples draws st aid a :
  List.NoDup (PyDict.keys (agents st)) ->
  PyDict.get (agents st) aid = Some a ->
  status (monitor_agent now (samples aid) a) <> TERMINATED ->
  PyDict.get (agents (snd (monitor_tick now samples draws st))) aid
  = Some (monitor_agent now (samples aid) a).
Proof.
  intros Hnd Hget Hstatus.
  rewrite monitor_tick_unfold. cbv zeta. cbn [snd].
  set (monitored := List.map _ (agents st)).
  assert (Hmon : PyDict.get monitored aid = Some (monitor_agent now (samples aid) a)).
  { unfold monitored.
    rewrite (get_map_values (fun k v => monitor_agent now (samples k) v)), Hget.
    reflexivity. }
  rewrite for_each_remove_other; [exact Hmon |].
  intros Hin. apply in_map_iff in Hin.
  destruct Hin as [[k v] [Hk Hin]]. simpl in Hk. subst k.
  apply filter_In in Hin. destruct Hin as [Hin Hterm]. simpl in Hterm.
  apply NoDup_keys_get in Hin;
    [| unfold monitored; now rewrite monitored_keys].
  rewrite Hmon in Hin. injection Hin as <-.
  destruct (status (monitor_agent now (samples aid) a)); try discriminate.
  now apply Hstatus.
Qed.

(** X18. A monitor pass leaves an agent that is not stale (last
    heartbeat at most 300 seconds old) and not [TERMINATED] registered
    with its status, its local queue and its metrics; its heartbeat is
    refreshed to the current time exactly when it is [ACTIVE]. *)
Theorem monitor_tick_fresh_agent (now : Z) (samples : string -> UsageSample)
    (draws : string -> nat -> string * Z) (st : Orchestrator) (aid : string)
    (a : AgentState) :
  List.NoDup (PyDict.keys (agents st)) ->
  PyDict.get (agents st) aid = Some a ->
  (total_seconds (now - last_heartbeat a) <= 300)%Q ->
  status a <> TERMINATED ->
  exists a',
    PyDict.get (agents (snd (monitor_tick now samples draws st))) aid = Some a'
    /\ status a' = status a
    /\ last_heartbeat a'
       = (if AgentStatus_eqb (status a) ACTIVE then now else last_heartbeat a)
    /\ agent_task_queue a' = agent_task_queue a
    /\ performance_metrics a' = performance_metrics a.
Proof.
  intros Hnd Hget Hfresh Hstatus.
  destruct (monitor_agent_fresh now (samples aid) a Hfresh) as [Hs Hh].
  destruct (monitor_agent_frame now (samples aid) a) as [Hq [Hm _]].
  exists (monitor_agent now (samples aid) a).
  split; [| repeat split; assumption].
  apply monitor_tick_kept; try assumption. now rewrite Hs.
Qed.

Lemma monitor_tick_fresh_agent_witness :
  exists a',
    PyDict.get
      (agents (snd (monitor_tick 20000000 Examples.no_sample
                      (fun _ => Examples.no_draws) Examples.two_agents)))
      "risk_agent_00000001" = Some a'
    /\ status a' = ACTIVE /\ last_heartbeat a' = 20000000.
Proof.
  destruct (monitor_tick_fresh_agent 20000000 Examples.no_sample
              (fun _ => Examples.no_draws) Examples.two_agents
              "risk_agent_00000001"
              (set_status (Examples.agent "risk_agent_00000001" INITIALIZING 0 []) ACTIVE))
    as [a' [Hget [Hs [Hh _]]]].
  - repeat constructor; simpl; intuition discriminate.
  - reflexivity.
  - vm_compute. discriminate.
  - discriminate.
  - exists a'. split; [exact Hget |]. split; [exact Hs | exact Hh].
Defined.

Lemma get_del_None {V} (d : list (string * V)) (k k' : string) :
  PyDict.get d k = None -> PyDict.get (PyDict.del d k') k = None.
Proof.
  induction d as [| [k0 v0] d IH]; simpl; [reflexivity |].
  destruct (String.eqb k0 k) eqn:E; [discriminate |].
  intros H. destruct (String.eqb k0 k'); simpl; [assumption |].
  rewrite E. now apply IH.
Qed.

(** What one monitor pass keeps, whatever it removes. *)
Lemma monitor_tick_preserves now samples draws st :
  List.NoDup (PyDict.keys (agents st)) ->
  let st' := snd (monitor_tick now samples draws st) in
  List.NoDup (PyDict.keys (agents st'))
  /\ task_queue st' = task_queue st
  /\ forall aid a,
       PyDict.get (agents st) aid = Some a -> agent_task_queue a <> [] ->
       exists a', PyDict.get (agents st') aid = Some a'
                  /\ agent_task_queue a' = agent_task_queue a.
Proof.
  intros Hnd. rewrite monitor_tick_unfold. cbv zeta. cbn [snd].
  set (monitored := List.map _ (agents st)).
  split; [| split].
  - apply (for_each_remove_invariant
             (fun s => List.NoDup (PyDict.keys (agents s)))).
    + intros s x a Hs _ _. simpl. now apply NoDup_keys_del.
    + simpl. unfold monitored. now rewrite monitored_keys.
  - apply (for_each_remove_invariant (fun s => task_queue s = task_queue st)).
    + intros s x a Hs _ _. exact Hs.
    + reflexivity.
  - intros aid a Hget Hq.
    apply (for_each_remove_invariant
             (fun s => exists a', PyDict.get (agents s) aid = Some a'
                                  /\ agent_task_queue a' = agent_task_queue a)).
    + intros s x a0 [a' [Hs Hq']] Hx Hidle. exists a'. split; [| assumption].
      simpl. rewrite get_del_ne; [assumption |].
      intros Heq. subst x. rewrite Hs in Hx. injection Hx as Heq.
      apply Hq. rewrite <- Hq', Heq. exact Hidle.
    + exists (monitor_agent now (samples aid) a). simpl. split.
      * unfold monitored.
        rewrite (get_map_values (fun k v => monitor_agent now (samples k) v)), Hget.
        reflexivity.
      * apply monitor_agent_frame.
Qed.

Lemma run_ticks_cons (t : Tick) (ticks : list Tick) (st : Orchestrator) :
  run_ticks (t :: ticks) st
  = run_ticks ticks
      (snd (monitor_tick (tick_time t) (tick_samples t) (tick_draws t) st)).
Proof. reflexivity. Qed.



Lemma monitor_agent_error now u a :
  status a = ERROR -> status (monitor_agent now u a) = ERROR.
Proof.
  intros Hs. unfold monitor_agent.
  destruct (Qlt_bool 300 (total_seconds (now - last_heartbeat a))); simpl;
    [reflexivity |].
  rewrite Hs. simpl. exact Hs.
Qed.

(** X20. The monitor never restores nor removes an agent in status
    [ERROR]: after any sequence of monitor passes the agent is still
    registered, still in [ERROR], with the same local queue. *)
Theorem monitor_error_is_absorbing (ticks : list Tick) (st : Orchestrator)
    (aid : string) (a : AgentState) :
  List.NoDup (PyDict.keys (agents st)) ->
  PyDict.get (agents st) aid = Some a ->
  status a = ERROR ->
  exists a',
    PyDict.get (agents (run_ticks ticks st)) aid = Some a'
    /\ status a' = ERROR
    /\ agent_task_queue a' = agent_task_queue a.
Proof.
  revert st a. induction ticks as [| t ticks IH]; intros st a Hnd Hget Hs.
  - eauto.
  - rewrite run_ticks_cons.
    destruct (monitor_tick_preserves (tick_time t) (tick_samples t)
                (tick_draws t) st Hnd) as [Hnd' _].
    pose proof (monitor_agent_error (tick_time t) (tick_samples t aid) a Hs) as Hs1.
    assert (Hget1 : PyDict.get
                      (agents (snd (monitor_tick (tick_time t) (tick_samples t)
                                      (tick_draws t) st))) aid
                    = Some (monitor_agent (tick_time t) (tick_samples t aid) a)).
    { apply monitor_tick_kept; try assumption. rewrite Hs1. discriminate. }
    destruct (IH _ _ Hnd' Hget1 Hs1) as [a' [Hget' [Hs' Hq']]].
    exists a'. split; [assumption |]. split; [assumption |].
    rewrite Hq'. apply monitor_agent_frame.
Qed.

Lemma monitor_error_is_absorbing_witness :
  exists a',
    PyDict.get
      (agents
         (run_ticks
            [ {| tick_time := 10000000; tick_samples := Examples.no_sample;
                 tick_draws := fun _ => Examples.no_draws |};
              {| tick_time := 20000000; tick_samples := Examples.no_sample;
                 tick_draws := fun _ => Examples.no_draws |} ]
            (Examples.single "risk_agent_00000001" ERROR 0 [])))
      "risk_agent_00000001" = Some a'
    /\ status a' = ERROR.
Proof.
  destruct (monitor_error_is_absorbing
              [ {| tick_time := 10000000; tick_samples := Examples.no_sample;
                   tick_draws := fun _ => Examples.no_draws |};
                {| tick_time := 20000000; tick_samples := Examples.no_sample;
                   tick_draws := fun _ => Examples.no_draws |} ]
              (Examples.single "risk_agent_00000001" ERROR 0 [])
              "risk_agent_00000001"
              (Examples.agent "risk_agent_00000001" ERROR 0 []))
    as [a' [Hget [Hs _]]].
  - repeat constructor. simpl. tauto.
  - reflexivity.
  - reflexivity.
  - exists a'. split; [exact Hget | exact Hs].
Defined.

Lemma remove_agent_outcome aid draws st :
  (PyDict.get (agents st) aid = None /\ _remove_agent aid draws st = (Ok tt, st))
  \/ (exists a, PyDict.get (agents st) aid = Some a /\ agent_task_queue a = []
                /\ _remove_agent aid draws st = (Ok tt, unregister_agent aid a st))
  \/ (exists a msg, PyDict.get (agents st) aid = Some a /\ agent_task_queue a <> []
                    /\ _remove_agent aid draws st = (Raise (ValueError msg), st)).
Proof.
  destruct (PyDict.get (agents st) aid) as [a |] eqn:H.
  - destruct (agent_task_queue a) as [| item q] eqn:Hq.
    + right. left. exists a. repeat split; [assumption |].
      now apply remove_agent_idle.
    + right. right. exists a. eexists. split; [reflexivity |].
      split; [rewrite Hq; discriminate |].
      apply (remove_agent_busy aid draws st a); [assumption | rewrite Hq; discriminate].
  - left. split; [reflexivity | now apply remove_agent_absent].
Qed.


(** A removal loop raises as soon as one of its agents still has a task
    in its local queue. *)
Lemma for_each_raise_busy (draws : string -> nat -> string * Z)
    (ids : list string) (y : string) (a : AgentState) :
  agent_task_queue a <> [] ->
  forall i st,
    In y ids -> PyDict.get (agents st) y = Some a ->
    exists e,
      fst (for_each ids i (fun _ x => _remove_agent x (draws x)) st) = Raise e.
Proof.
  intros Hq. induction ids as [| x ids IH]; intros i st Hin Hget; [contradiction |].
  simpl. unfold bind.
  destruct (remove_agent_outcome x (draws x) st)
    as [[Hnone Hrun] | [[a0 [Hget0 [Hq0 Hrun]]] | [a0 [msg [_ [_ Hrun]]]]]];
    rewrite Hrun; [| | simpl; eauto].
  - destruct Hin as [-> | Hin]; [congruence | now apply IH].
  - destruct Hin as [-> | Hin]; [congruence |].
    destruct (String.eqb_spec x y) as [-> | Hxy]; [congruence |].
    apply IH; [assumption |]. simpl. now rewrite get_del_ne.
Qed.



(** X22. A terminated agent that still has a task in its local queue
    blocks its own removal: the pass ends in the exception branch (the one
    followed by the 30-second sleep) and the agent stays registered, still
    [TERMINATED], with its queue. *)
Theorem monitor_blocked_by_queued_task (now : Z)
    (samples : string -> UsageSample) (draws : string -> nat -> string * Z)
    (st : Orchestrator) (aid : string) (a : AgentState) :
  List.NoDup (PyDict.keys (agents st)) ->
  PyDict.get (agents st) aid = Some a ->
  status a = TERMINATED ->
  (total_seconds (now - last_heartbeat a) <= 300)%Q ->
  agent_task_queue a <> [] ->
  fst (monitor_tick now samples draws st) = Ok 30
  /\ exists a',
       PyDict.get (agents (snd (monitor_tick now samples draws st))) aid = Some a'
       /\ status a' = TERMINATED
       /\ agent_task_queue a' = agent_task_queue a.
Proof.
  intros Hnd Hget Hs Hfresh Hq.
  destruct (monitor_agent_fresh now (samples aid) a Hfresh) as [Hs1 _].
  destruct (monitor_agent_frame now (samples aid) a) as [Hq1 _].
  rewrite monitor_tick_unfold. cbv zeta. cbn [fst snd].
  set (monitored := List.map _ (agents st)).
  set (ids := List.map fst (List.filter _ monitored)).
  assert (Hmon : PyDict.get monitored aid = Some (monitor_agent now (samples aid) a)).
  { unfold monitored.
    rewrite (get_map_values (fun k v => monitor_agent now (samples k) v)), Hget.
    reflexivity. }
  assert (Hin : In aid ids).
  { unfold ids. apply in_map_iff. exists (aid, monitor_agent now (samples aid) a).
    split; [reflexivity |]. apply filter_In. split.
    - now apply get_Some_In.
    - simpl. now rewrite Hs1, Hs. }
  split.
  - destruct (for_each_raise_busy draws ids aid (monitor_agent now (samples aid) a))
      with (i := 0%nat) (st := set_agents st monitored) as [e ->];
      [congruence | assumption | exact Hmon | reflexivity].
  - apply (for_each_remove_invariant
             (fun s => exists a', PyDict.get (agents s) aid = Some a'
                                  /\ status a' = TERMINATED
                                  /\ agent_task_queue a' = agent_task_queue a)).
    + intros s x a0 [a' [Hg [Hst Hq']]] Hx Hidle. exists a'.
      split; [| split; assumption]. simpl. rewrite get_del_ne; [assumption |].
      intros Heq. subst x. rewrite Hg in Hx. injection Hx as Heq.
      apply Hq. rewrite <- Hq', Heq. exact Hidle.
    + exists (monitor_agent now (samples aid) a).
      split; [exact Hmon |]. split; [congruence | assumption].
Qed.

Lemma monitor_blocked_by_queued_task_witness :
  fst (monitor_tick 10000000 Examples.no_sample (fun _ => Examples.no_draws)
         (Examples.single "risk_agent_00000001" TERMINATED 0 [Examples.queued_item]))
  = Ok 30.
Proof.
  apply (monitor_blocked_by_queued_task 10000000 Examples.no_sample
           (fun _ => Examples.no_draws)
           (Examples.single "risk_agent_00000001" TERMINATED 0 [Examples.queued_item])
           "risk_agent_00000001"
           (Examples.agent "risk_agent_00000001" TERMINATED 0 [Examples.queued_item])).
  - repeat constructor. simpl. tauto.
  - reflexivity.
  - reflexivity.
  - vm_compute. discriminate.
  - discriminate.
Defined.

(** ** Assigner *)

Lemma requirement_candidates_elem (st : Orchestrator) (reqs : list string)
    (aid : string) :
  aid ∈ requirement_candidates st reqs
  <-> exists req ids,
        In req reqs /\ capability_registry st !! req = Some ids /\ In aid ids.
Proof.
  unfold requirement_candidates.
  assert (Hgen : forall acc : gset string,
             aid ∈ fold_left
                     (fun acc req =>
                        match capability_registry st !! req with
                        | Some ids => acc ∪ list_to_set ids
                        | None => acc
                        end) reqs acc
             <-> aid ∈ acc
                 \/ exists req ids,
                      In req reqs /\ capability_registry st !! req = Some ids
                      /\ In aid ids).
  { induction reqs as [| r reqs IH]; simpl; intros acc.
    - split; [tauto |]. intros [H | [req [ids [[] _]]]]. exact H.
    - rewrite IH. split.
      + intros [Hacc | [req [ids [Hin Hrest]]]].
        * destruct (capability_registry st !! r) as [ids |] eqn:Hr; [| now left].
          apply elem_of_union in Hacc. destruct Hacc as [Hacc | Hl]; [now left |].
          right. exists r, ids. split; [now left |]. split; [assumption |].
          apply list_elem_of_In. now apply elem_of_list_to_set in Hl.
        * right. exists req, ids. tauto.
      + intros [Hacc | [req [ids [[-> | Hin] [Hreg Haid]]]]].
        * left. destruct (capability_registry st !! r); [| assumption].
          apply elem_of_union. now left.
        * left. rewrite Hreg. apply elem_of_union. right.
          apply elem_of_list_to_set. now apply list_elem_of_In.
        * right. exists req, ids. tauto. }
  rewrite Hgen. split; [| tauto].
  intros [H | H]; [| exact H]. now apply not_elem_of_empty in H.
Qed.

Lemma agent_is_eligible_true (st : Orchestrator) (aid : string) :
  agent_is_eligible st aid = Ok true
  <-> exists a c,
        PyDict.get (agents st) aid = Some a
        /\ PyDict.get (agent_configs st) aid = Some c
        /\ status a = ACTIVE
        /\ Z.of_nat (List.length (agent_task_queue a))
           < max_concurrent_tasks (resource_limits c)
        /\ (0.3 < reliability_score (performance_metrics a))%Q.
Proof.
  unfold agent_is_eligible. split.
  - destruct (PyDict.get (agents st) aid) as [a |]; [| discriminate].
    destruct (status a) eqn:Hs; simpl; try discriminate.
    destruct (PyDict.get (agent_configs st) aid) as [c |]; [| discriminate].
    destruct (Z.ltb_spec (Z.of_nat (List.length (agent_task_queue a)))
                (max_concurrent_tasks (resource_limits c))); simpl;
      [| discriminate].
    intros [= Hr]. apply Qlt_bool_true in Hr.
    exists a, c. repeat split; assumption.
  - intros [a [c [-> [-> [-> [Hlen Hr]]]]]]. simpl.
    apply Z.ltb_lt in Hlen. rewrite Hlen. simpl. f_equal.
    unfold Qlt_bool. apply negb_true_iff.
    destruct (Qle_bool (reliability_score (performance_metrics a)) 0.3) eqn:E;
      [| reflexivity].
    apply Qle_bool_true in E. lra.
Qed.

Lemma filter_eligible_spec (st : Orchestrator) (ids : list string) :
  forall l,
    filter_eligible st ids = Ok l ->
    (forall aid, In aid l <-> In aid ids /\ agent_is_eligible st aid = Ok true)
    /\ (List.NoDup ids -> List.NoDup l).
Proof.
  induction ids as [| x ids IH]; simpl; intros l.
  - intros [= <-]. split; [simpl; tauto | auto].
  - destruct (agent_is_eligible st x) as [keep |] eqn:Hx; [| discriminate].
    destruct (filter_eligible st ids) as [l' |]; [| discriminate].
    intros [= <-]. destruct (IH l' eq_refl) as [Hmem Hnd]. split.
    + intros aid. destruct keep; simpl; rewrite Hmem.
      * split; [intros [-> | H]; tauto |].
        intros [[-> | H] He]; tauto.
      * split; [tauto |]. intros [[-> | H] He]; [congruence | tauto].
    + intros Hndx. inversion Hndx as [| ? ? Hnotin Hnd']; subst.
      destruct keep; [| auto]. constructor; [| auto].
      rewrite Hmem. tauto.
Qed.

Lemma filter_eligible_raises (st : Orchestrator) (ids : list string)
    (aid : string) :
  In aid ids -> PyDict.get (agents st) aid = None ->
  exists e, filter_eligible st ids = Raise e.
Proof.
  intros Hin Hnone. induction ids as [| x ids IH]; simpl; [contradiction |].
  destruct (agent_is_eligible st x) as [keep |] eqn:Hx; [| eauto].
  destruct Hin as [-> | Hin].
  - unfold agent_is_eligible in Hx. rewrite Hnone in Hx. discriminate.
  - destruct (IH Hin) as [e ->]. eauto.
Qed.

(** X23. [_find_suitable_agents] answers, without repetition and for
    any iteration order of the candidate set, exactly the agents that are
    listed in the registry under some requirement of the task and that are
    [ACTIVE], hold fewer tasks than their concurrency limit and have a
    reliability above 0.3. *)
Theorem find_suitable_agents_exact (set_order : gset string -> list string)
    (st : Orchestrator) (task : Task) (l : list string) :
  (forall s, Permutation (set_order s) (elements s)) ->
  _find_suitable_agents set_order st task = Ok l ->
  List.NoDup l
  /\ forall aid,
       In aid l
       <-> (exists req ids,
              In req (requirements task)
              /\ capability_registry st !! req = Some ids /\ In aid ids)
           /\ exists a c,
                PyDict.get (agents st) aid = Some a
                /\ PyDict.get (agent_configs st) aid = Some c
                /\ status a = ACTIVE
                /\ Z.of_nat (List.length (agent_task_queue a))
                   < max_concurrent_tasks (resource_limits c)
                /\ (0.3 < reliability_score (performance_metrics a))%Q.
Proof.
  intros Hperm. unfold _find_suitable_agents.
  set (s := requirement_candidates st (requirements task)).
  assert (Hin : forall aid, In aid (set_order s) <-> aid ∈ s).
  { intros aid. rewrite <- list_elem_of_In, (Hperm s). apply elem_of_elements. }
  destruct (decide (s = ∅)) as [Hempty | Hne].
  - intros [= <-]. split; [constructor |]. intros aid. split; [intros [] |].
    intros [Hcand _]. apply requirement_candidates_elem in Hcand.
    fold s in Hcand. rewrite Hempty in Hcand. now apply not_elem_of_empty in Hcand.
  - intros Hrun. destruct (filter_eligible_spec st (set_order s) l Hrun) as [Hmem Hnd].
    split.
    + apply Hnd. apply NoDup_ListNoDup. rewrite (Hperm s). apply NoDup_elements.
    + intros aid. rewrite Hmem, Hin, agent_is_eligible_true.
      unfold s. rewrite requirement_candidates_elem. reflexivity.
Qed.

(** X24. A registry entry naming an agent that is not registered makes
    [_find_suitable_agents] raise [KeyError] for every task requiring
    that capability; the assignment loop then marks such a pending task
    as in error and takes it out of the queue. *)
Theorem stale_registry_entry_fails_task
    (set_order : gset string -> list string) (rand : nat -> Q)
    (st : Orchestrator) (task : Task) (req aid : string) (ids : list string)
    (now : Z) (cursor : nat) :
  (forall s, Permutation (set_order s) (elements s)) ->
  In req (requirements task) ->
  capability_registry st !! req = Some ids ->
  In aid ids ->
  PyDict.get (agents st) aid = None ->
  task_status task = Pending ->
  (exists e, _find_suitable_agents set_order st task = Raise e)
  /\ assign_one set_order rand now task st cursor
     = ((set_task_status task Errored, true), st, cursor).
Proof.
  intros Hperm Hreq Hreg Hin Hnone Hpending.
  assert (Hraise : exists e, _find_suitable_agents set_order st task = Raise e).
  { unfold _find_suitable_agents.
    set (s := requirement_candidates st (requirements task)).
    assert (Hs : aid ∈ s).
    { apply requirement_candidates_elem. exists req, ids. tauto. }
    destruct (decide (s = ∅)) as [Hempty | Hne].
    - rewrite Hempty in Hs. now apply not_elem_of_empty in Hs.
    - apply (filter_eligible_raises st (set_order s) aid); [| assumption].
      apply list_elem_of_In. rewrite (Hperm s). now apply elem_of_elements. }
  split; [assumption |].
  destruct Hraise as [e He]. unfold assign_one. rewrite Hpending, He. reflexivity.
Qed.

Lemma find_suitable_agents_exact_witness :
  exists l,
    _find_suitable_agents elements Examples.both_active Examples.some_task = Ok l
    /\ List.NoDup l
    /\ In "decision_agent_00000002" l.
Proof.
  assert (Hrun : exists l,
             _find_suitable_agents elements Examples.both_active
               Examples.some_task = Ok l)
    by (eexists; vm_compute; reflexivity).
  destruct Hrun as [l Hrun]. exists l. split; [exact Hrun |].
  destruct (find_suitable_agents_exact elements Examples.both_active
              Examples.some_task l (fun s => Permutation_refl _) Hrun)
    as [Hnd Hmem].
  split; [exact Hnd |]. apply Hmem. split.
  - exists "risk_assessment", ["decision_agent_00000002"].
    split; [simpl; tauto |]. split; [vm_compute; reflexivity | simpl; tauto].
  - eexists. eexists. split; [vm_compute; reflexivity |].
    split; [vm_compute; reflexivity |]. split; [reflexivity |].
    split; [vm_compute; reflexivity | vm_compute; reflexivity].
Defined.

Lemma stale_registry_entry_fails_task_witness :
  assign_one elements (fun _ => 0.5%Q) 9 Examples.some_task
    (set_capability_registry (init HYBRID)
       {[ "position_sizing" := ["risk_agent_0000dead"] ]}) 0
  = ((set_task_status Examples.some_task Errored, true),
     set_capability_registry (init HYBRID)
       {[ "position_sizing" := ["risk_agent_0000dead"] ]}, 0%nat).
Proof.
  apply (stale_registry_entry_fails_task elements (fun _ => 0.5%Q)
           (set_capability_registry (init HYBRID)
              {[ "position_sizing" := ["risk_agent_0000dead"] ]})
           Examples.some_task "position_sizing" "risk_agent_0000dead"
           ["risk_agent_0000dead"] 9 0).
  - intros s. reflexivity.
  - simpl. tauto.
  - vm_compute. reflexivity.
  - simpl. tauto.
  - reflexivity.
  - reflexivity.
Defined.

Lemma find_suitable_agents_eligible (set_order : gset string -> list string)
    (st : Orchestrator) (task : Task) (l : list string) (aid : string) :
  _find_suitable_agents set_order st task = Ok l -> In aid l ->
  agent_is_eligible st aid = Ok true.
Proof.
  unfold _find_suitable_agents.
  destruct (decide (requirement_candidates st (requirements task) = ∅)).
  - intros [= <-] [].
  - intros Hrun Hin. destruct (filter_eligible_spec st _ l Hrun) as [Hmem _].
    now apply Hmem in Hin.
Qed.

(** The three ways the assignment loop leaves a task: untouched and
    still queued; marked in error or expired, the state untouched; or
    assigned to a suitable agent, whose local queue receives it. *)
Lemma assign_one_cases (set_order : gset string -> list string)
    (rand : nat -> Q) (now : Z) (task : Task) (st : Orchestrator)
    (cursor : nat) :
  let out := assign_one set_order rand now task st cursor in
  let task' := fst (fst (fst out)) in
  let moved := snd (fst (fst out)) in
  let st' := snd (fst out) in
  (moved = false /\ task' = task /\ st' = st)
  \/ (moved = true /\ st' = st /\ task_id task' = task_id task
      /\ task_status task = Pending
      /\ (task_status task' = Errored \/ task_status task' = Expired))
  \/ (moved = true /\ task_status task = Pending
      /\ exists sel a,
           agent_is_eligible st sel = Ok true
           /\ sel <> ""
           /\ PyDict.get (agents st) sel = Some a
           /\ task' = set_task_status (set_assigned_agent task (Some sel)) Assigned
           /\ st' = set_agents st
                      (PyDict.set (agents st) sel
                         (set_agent_task_queue a
                            (agent_task_queue a ++ [make_task_item task' now])%list))).
Proof.
  cbv zeta. unfold assign_one.
  destruct (task_status task) eqn:Hstatus; simpl; try (left; tauto).
  destruct (_find_suitable_agents set_order st task) as [suitable | e] eqn:Hfind.
  2: { right. left. simpl. tauto. }
  destruct suitable as [| s0 rest].
  { destruct (deadline task) as [d |]; [| left; simpl; tauto].
    destruct (d <? now); [right; left | left]; simpl; tauto. }
  destruct (_select_agent_for_task rand st task (s0 :: rest) cursor)
    as [[[sel |] | e] cursor'] eqn:Hsel.
  - apply select_agent_member in Hsel.
    pose proof (find_suitable_agents_eligible set_order st task _ sel Hfind Hsel)
      as Hel.
    destruct (String.eqb_spec sel "") as [-> | Hne]; [left; simpl; tauto |].
    destruct (PyDict.get (agents st) sel) as [a |] eqn:Hget.
    + right. right. simpl. split; [reflexivity |]. split; [reflexivity |].
      exists sel, a. repeat split; assumption.
    + right. left. simpl. tauto.
  - left. simpl. tauto.
  - right. left. simpl. tauto.
Qed.

Lemma assign_one_capacity (set_order : gset string -> list string)
    (rand : nat -> Q) (now : Z) (task : Task) (st : Orchestrator)
    (cursor : nat) :
  within_capacity st ->
  within_capacity (snd (fst (assign_one set_order rand now task st cursor))).
Proof.
  intros Hcap.
  destruct (assign_one_cases set_order rand now task st cursor)
    as [[_ [_ ->]] | [[_ [-> _]] | [_ [_ [sel [a [Hel [_ [Hget [_ ->]]]]]]]]]];
    try assumption.
  apply agent_is_eligible_true in Hel.
  destruct Hel as [a0 [c0 [Hget0 [Hcfg0 [_ [Hlen _]]]]]].
  rewrite Hget in Hget0. injection Hget0 as <-.
  intros aid a1 c1 Hg Hc. simpl in *.
  destruct (String.eqb_spec sel aid) as [-> | Hne].
  - rewrite get_set_eq in Hg. injection Hg as <-.
    rewrite Hcfg0 in Hc. injection Hc as <-.
    simpl. rewrite List.length_app. simpl. lia.
  - rewrite get_set_ne in Hg by assumption. now apply (Hcap aid).
Qed.

Lemma assign_loop_capacity (set_order : gset string -> list string)
    (rand : nat -> Q) (clock : nat -> Z) (batch : list Task) :
  forall i st cursor,
    within_capacity st ->
    within_capacity (snd (fst (assign_loop set_order rand clock batch i st cursor))).
Proof.
  induction batch as [| task rest IH]; intros i st cursor Hcap; [assumption |].
  simpl.
  pose proof (assign_one_capacity set_order rand (clock i) task st cursor Hcap) as H1.
  destruct (assign_one set_order rand (clock i) task st cursor)
    as [[[task' moved] st1] cursor1].
  simpl in H1. specialize (IH (S i) st1 cursor1 H1).
  destruct (assign_loop set_order rand clock rest (S i) st1 cursor1)
    as [[[rest' assigned] st2] cursor2].
  exact IH.
Qed.

(** X25. An assignment cycle never overloads an agent: when no agent
    holds more tasks than its configured [max_concurrent_tasks] before
    [_assign_tasks], none does after it, whatever the strategies choose
    and whatever order the candidate sets are iterated in. *)
Theorem assign_tasks_respects_capacity (set_order : gset string -> list string)
    (rand : nat -> Q) (clock : nat -> Z) (st : Orchestrator) (cursor : nat) :
  within_capacity st ->
  within_capacity (snd (fst (_assign_tasks set_order rand clock st cursor))).
Proof.
  intros Hcap. unfold _assign_tasks.
  destruct (task_queue st) as [| t q] eqn:Hq; [assumption |].
  pose proof (assign_loop_capacity set_order rand clock
                (firstn (Nat.min 10 (List.length (t :: q))) (t :: q)) 0%nat st
                cursor Hcap) as H.
  destruct (assign_loop set_order rand clock
              (firstn (Nat.min 10 (List.length (t :: q))) (t :: q)) 0 st cursor)
    as [[[batch' assigned] st1] cursor1].
  simpl in H. exact H.
Qed.

Lemma within_capacity_two_agents : within_capacity Examples.both_active.
Proof.
  intros aid a c Hg Hc. apply get_Some_In in Hg.
  unfold Examples.both_active, Examples.two_agents in Hg. simpl in Hg.
  destruct Hg as [[= <- <-] | [[= <- <-] | []]];
    vm_compute in Hc; injection Hc as <-; vm_compute; discriminate.
Qed.

Lemma assign_tasks_respects_capacity_witness :
  within_capacity
    (snd (fst (_assign_tasks elements (fun _ => 0.5%Q) (fun _ => 9)
                 (snd (submit_task "0000000a" 1 "risk_assessment"
                         ["position_sizing"] Examples.some_input 5 None
                         Examples.both_active))
                 0))).
Proof.
  apply (assign_tasks_respects_capacity elements (fun _ => 0.5%Q) (fun _ => 9)).
  intros aid a c Hg Hc. apply (within_capacity_two_agents aid a c); assumption.
Defined.

Lemma Task_eqb_refl (t : Task) : Task_eqb t t = true.
Proof.
  unfold Task_eqb.
  assert (Hl : list_eqb String.eqb (requirements t) (requirements t) = true).
  { induction (requirements t) as [| x l IH]; simpl; [reflexivity |].
    now rewrite String.eqb_refl. }
  assert (Hd : dict_eqb (input_data t) (input_data t) = true)
    by (unfold dict_eqb; now apply bool_decide_eq_true).
  rewrite !String.eqb_refl, !Z.eqb_refl, Hl, Hd.
  destruct (deadline t), (assigned_agent t), (task_status t); simpl;
    rewrite ?Z.eqb_refl, ?String.eqb_refl; reflexivity.
Qed.

Lemma Task_eqb_id (a b : Task) : Task_eqb a b = true -> task_id a = task_id b.
Proof.
  unfold Task_eqb. intros H.
  repeat (apply andb_true_iff in H; destruct H as [H _]).
  now apply String.eqb_eq.
Qed.

Lemma filter_all {A} (f : A -> bool) (l : list A) :
  (forall x, In x l -> f x = true) -> List.filter f l = l.
Proof.
  induction l as [| x l IH]; simpl; intros H; [reflexivity |].
  rewrite (H x) by now left. rewrite IH; [reflexivity |]. intros y Hy. apply H. now right.
Qed.

(** With distinct identifiers, [queue.remove(task)] removes the task
    with that identifier. *)
Lemma remove_task_by_id (t : Task) (l : list Task) :
  List.NoDup (List.map task_id l) -> In t l ->
  remove_task t l = without_ids [t] l.
Proof.
  unfold without_ids. induction l as [| x l IH]; simpl; intros Hnd Hin;
    [contradiction |].
  inversion Hnd as [| ? ? Hnotin Hnd']; subst.
  destruct (Task_eqb x t) eqn:E.
  - apply Task_eqb_id in E. rewrite E, String.eqb_refl. simpl.
    symmetry. apply filter_all. intros y Hy.
    destruct (String.eqb_spec (task_id y) (task_id t)) as [Heq |]; [| reflexivity].
    exfalso. apply Hnotin. rewrite E, <- Heq. now apply in_map.
  - destruct Hin as [-> | Hin]; [now rewrite Task_eqb_refl in E |].
    destruct (String.eqb_spec (task_id x) (task_id t)) as [Heq | Hne]; simpl.
    + exfalso. apply Hnotin. rewrite Heq. now apply in_map.
    + now rewrite IH.
Qed.

Lemma without_ids_NoDup (gone l : list Task) :
  List.NoDup (List.map task_id l) ->
  List.NoDup (List.map task_id (without_ids gone l)).
Proof.
  unfold without_ids. induction l as [| x l IH]; simpl; intros Hnd; [constructor |].
  inversion Hnd as [| ? ? Hnotin Hnd']; subst.
  destruct (negb _); simpl; [| auto].
  constructor; [| auto]. intros Hin. apply Hnotin.
  apply in_map_iff in Hin. destruct Hin as [y [Hy Hin]].
  apply filter_In in Hin. rewrite <- Hy. apply in_map. tauto.
Qed.

Lemma without_ids_compose (g1 g2 l : list Task) :
  without_ids g2 (without_ids g1 l) = without_ids (g1 ++ g2) l.
Proof.
  unfold without_ids. induction l as [| x l IH]; simpl; [reflexivity |].
  rewrite existsb_app.
  destruct (existsb (fun t => String.eqb (task_id x) (task_id t)) g1); simpl;
    [assumption |].
  destruct (existsb (fun t => String.eqb (task_id x) (task_id t)) g2); simpl;
    [assumption | now rewrite IH].
Qed.

(** The second loop of [_assign_tasks] on a queue with distinct
    identifiers. *)
Lemma remove_all_by_id (gone : list Task) :
  forall l,
    List.NoDup (List.map task_id l) ->
    List.NoDup (List.map task_id gone) ->
    (forall t, In t gone -> In t l) ->
    fold_left (fun q t => remove_task t q) gone l = without_ids gone l.
Proof.
  induction gone as [| t gone IH]; intros l Hnd Hndg Hincl; simpl.
  - unfold without_ids. simpl. symmetry. now apply filter_all.
  - inversion Hndg as [| ? ? Hnotin Hndg']; subst.
    rewrite remove_task_by_id by (auto; apply Hincl; now left).
    rewrite IH.
    + apply (without_ids_compose [t] gone l).
    + now apply without_ids_NoDup.
    + assumption.
    + intros u Hu. unfold without_ids. apply filter_In.
      split; [apply Hincl; now right |]. simpl.
      destruct (String.eqb_spec (task_id u) (task_id t)) as [Heq |]; [| reflexivity].
      exfalso. apply Hnotin. rewrite <- Heq. now apply in_map.
Qed.

Lemma assign_loop_shape (set_order : gset string -> list string)
    (rand : nat -> Q) (clock : nat -> Z) (batch : list Task) :
  forall i st cursor,
    let out := assign_loop set_order rand clock batch i st cursor in
    loop_shape batch (fst (fst (fst out))) (snd (fst (fst out))).
Proof.
  induction batch as [| task rest IH]; intros i st cursor; [constructor |].
  cbv zeta. simpl.
  pose proof (assign_one_cases set_order rand (clock i) task st cursor) as Hone.
  destruct (assign_one set_order rand (clock i) task st cursor)
    as [[[task' moved] st1] cursor1].
  specialize (IH (S i) st1 cursor1). cbv zeta in IH, Hone. simpl in Hone.
  destruct (assign_loop set_order rand clock rest (S i) st1 cursor1)
    as [[[rest' assigned] st2] cursor2].
  simpl in *.
  destruct Hone as [[-> [-> _]] | [[-> [_ [Hid [Hp _]]]] | [-> [Hp [sel [a [_ [_ [_ [Ht _]]]]]]]]]].
  - now constructor.
  - now constructor.
  - constructor; [rewrite Ht; reflexivity | assumption | assumption].
Qed.

Lemma loop_shape_ids (l l' a : list Task) :
  loop_shape l l' a ->
  List.map task_id l' = List.map task_id l
  /\ (forall t, In t a -> In t l').
Proof.
  induction 1 as [| t l l' a _ [IHids IHin] | t t' l l' a Hid _ _ [IHids IHin]];
    simpl.
  - split; [reflexivity | tauto].
  - split; [now rewrite IHids | intros u Hu; right; now apply IHin].
  - split; [now rewrite IHids, Hid |].
    intros u [<- | Hu]; [now left | right; now apply IHin].
Qed.

Lemma loop_shape_assigned_NoDup (l l' a : list Task) :
  loop_shape l l' a ->
  List.NoDup (List.map task_id l') -> List.NoDup (List.map task_id a).
Proof.
  induction 1 as [| t l l' a Hs IH | t t' l l' a Hid Hp Hs IH]; simpl; intros Hnd.
  - constructor.
  - inversion Hnd; subst. auto.
  - inversion Hnd as [| ? ? Hnotin Hnd']; subst. constructor; [| auto].
    intros Hin. apply Hnotin. apply in_map_iff in Hin.
    destruct Hin as [u [Hu Hin]]. rewrite <- Hu. apply in_map.
    now apply (proj2 (loop_shape_ids _ _ _ Hs)).
Qed.

Lemma without_ids_unlisted (gone l : list Task) :
  (forall x t, In x l -> In t gone -> task_id x <> task_id t) ->
  without_ids gone l = l.
Proof.
  intros Hdis. unfold without_ids. apply filter_all. intros x Hx.
  apply negb_true_iff. destruct (existsb _ gone) eqn:E; [| reflexivity].
  apply existsb_exists in E. destruct E as [t [Ht E]].
  apply String.eqb_eq in E. now destruct (Hdis x t Hx Ht).
Qed.

Lemma without_ids_cons_fresh (t : Task) (gone l : list Task) :
  ~ In (task_id t) (List.map task_id l) ->
  without_ids (t :: gone) l = without_ids gone l.
Proof.
  intros Hfresh. unfold without_ids. apply filter_ext_in. intros x Hx. simpl.
  destruct (String.eqb_spec (task_id x) (task_id t)) as [Heq |]; [| reflexivity].
  exfalso. apply Hfresh. rewrite <- Heq. now apply in_map.
Qed.

(** What stays of a batch with distinct identifiers once the moved tasks
    are taken out: a sub-list of the batch, and only pending tasks are
    missing from it. *)
Lemma loop_shape_kept (l l' a : list Task) :
  loop_shape l l' a ->
  List.NoDup (List.map task_id l) ->
  sublist (without_ids a l') l
  /\ (forall t, In t l -> ~ In t (without_ids a l') -> task_status t = Pending).
Proof.
  induction 1 as [| t l l' a Hs IH | t t' l l' a Hid Hp Hs IH]; intros Hnd.
  - split; [constructor | simpl; tauto].
  - simpl in Hnd. inversion Hnd as [| ? ? Hnotin Hnd']; subst.
    destruct (IH Hnd') as [Hsub Hgone].
    destruct (loop_shape_ids _ _ _ Hs) as [Hids Hincl].
    assert (Hkeep : existsb (fun u => String.eqb (task_id t) (task_id u)) a = false).
    { destruct (existsb _ a) eqn:E; [| reflexivity].
      apply existsb_exists in E. destruct E as [u [Hu E]].
      apply String.eqb_eq in E. exfalso. apply Hnotin.
      rewrite E, <- Hids. apply in_map. now apply Hincl. }
    unfold without_ids in *. simpl. rewrite Hkeep. simpl. split.
    + now constructor.
    + intros u [<- | Hu] Hnot; [exfalso; apply Hnot; now left |].
      apply Hgone; [assumption |]. intros Hin. apply Hnot. now right.
  - simpl in Hnd. inversion Hnd as [| ? ? Hnotin Hnd']; subst.
    destruct (IH Hnd') as [Hsub Hgone].
    destruct (loop_shape_ids _ _ _ Hs) as [Hids Hincl].
    assert (Hdrop : without_ids (t' :: a) (t' :: l') = without_ids a l').
    { rewrite <- (without_ids_cons_fresh t' a l')
        by (rewrite Hids, Hid; assumption).
      unfold without_ids. simpl. now rewrite String.eqb_refl. }
    rewrite Hdrop. split.
    + now constructor.
    + intros u [<- | Hu] Hnot; [assumption | now apply Hgone].
Qed.

Lemma firstn_skipn_min {A} (l : list A) :
  firstn (Nat.min 10 (List.length l)) l = firstn 10 l
  /\ skipn (Nat.min 10 (List.length l)) l = skipn 10 l.
Proof.
  destruct (Nat.le_gt_cases (List.length l) 10) as [Hle | Hgt].
  - rewrite Nat.min_r by assumption.
    rewrite !firstn_all2, !skipn_all2 by lia. split; reflexivity.
  - rewrite Nat.min_l by lia. split; reflexivity.
Qed.

Lemma assign_tasks_unfold (set_order : gset string -> list string)
    (rand : nat -> Q) (clock : nat -> Z) (st : Orchestrator) (cursor : nat) :
  _assign_tasks set_order rand clock st cursor
  = if is_empty (task_queue st) then ([], st, cursor)
    else
      let n := Nat.min 10 (List.length (task_queue st)) in
      let '((batch', assigned_tasks), st1, cursor1) :=
        assign_loop set_order rand clock (firstn n (task_queue st)) 0 st cursor in
      (dispatches assigned_tasks,
       set_task_queue st1
         (fold_left (fun q t => remove_task t q) assigned_tasks
            (batch' ++ skipn n (task_queue st))%list),
       cursor1).
Proof. unfold _assign_tasks. now destruct (task_queue st). Qed.

(** X26. One assignment cycle handles the first ten tasks of the queue
    only. For a queue whose task identifiers are distinct, the queue after
    [_assign_tasks] is a sub-list of the first ten tasks, in their order
    and unchanged, followed by all the tasks beyond the tenth; only tasks
    that were pending leave the queue. *)
Theorem assign_tasks_queue_after (set_order : gset string -> list string)
    (rand : nat -> Q) (clock : nat -> Z) (st : Orchestrator) (cursor : nat) :
  List.NoDup (List.map task_id (task_queue st)) ->
  exists kept,
    task_queue (snd (fst (_assign_tasks set_order rand clock st cursor)))
    = (kept ++ skipn 10 (task_queue st))%list
    /\ sublist kept (firstn 10 (task_queue st))
    /\ forall t, In t (firstn 10 (task_queue st)) -> ~ In t kept ->
                 task_status t = Pending.
Proof.
  intros Hnd. rewrite assign_tasks_unfold.
  destruct (task_queue st) as [| t0 q0] eqn:Hq.
  { exists []. simpl. rewrite Hq. split; [reflexivity |]. split; [constructor | tauto]. }
  cbn [is_empty]. cbv zeta. rewrite <- Hq. rewrite <- Hq in Hnd. clear Hq t0 q0.
  destruct (firstn_skipn_min (task_queue st)) as [-> ->].
  pose proof (assign_loop_shape set_order rand clock (firstn 10 (task_queue st))
                0%nat st cursor) as Hshape.
  destruct (assign_loop set_order rand clock (firstn 10 (task_queue st)) 0 st cursor)
    as [[[batch' assigned] st1] cursor1].
  cbv zeta in Hshape. simpl in Hshape. simpl.
  destruct (loop_shape_ids _ _ _ Hshape) as [Hids Hincl].
  assert (Hsplit : List.map task_id (task_queue st)
                   = (List.map task_id (firstn 10 (task_queue st))
                      ++ List.map task_id (skipn 10 (task_queue st)))%list).
  { rewrite <- List.map_app. now rewrite firstn_skipn. }
  assert (Hnd1 : List.NoDup
                   (List.map task_id (batch' ++ skipn 10 (task_queue st)))).
  { rewrite List.map_app, Hids, <- Hsplit. assumption. }
  assert (HndF : List.NoDup (List.map task_id (firstn 10 (task_queue st)))).
  { rewrite Hsplit in Hnd. now apply NoDup_app_remove_r in Hnd. }
  rewrite remove_all_by_id.
  - exists (without_ids assigned batch'). split.
    + unfold without_ids at 1. rewrite List.filter_app. f_equal.
      apply (without_ids_unlisted assigned). intros x u Hx Hu Heq.
      rewrite List.map_app in Hnd1.
      apply NoDup_ListNoDup in Hnd1. apply NoDup_app in Hnd1.
      destruct Hnd1 as [_ [Hdisj _]]. apply (Hdisj (task_id u)).
      * apply list_elem_of_In. apply in_map. now apply Hincl.
      * rewrite <- Heq. apply list_elem_of_In. now apply in_map.
    + now apply loop_shape_kept.
  - assumption.
  - apply (loop_shape_assigned_NoDup _ _ _ Hshape). rewrite Hids. assumption.
  - intros u Hu. apply in_or_app. left. now apply Hincl.
Qed.

Lemma assign_tasks_queue_after_witness :
  exists kept,
    task_queue
      (snd (fst (_assign_tasks elements (fun _ => 0.5%Q) (fun _ => 9)
                   (snd (submit_task "0000000a" 1 "risk_assessment"
                           ["position_sizing"] Examples.some_input 5 None
                           Examples.both_active))
                   0)))
    = (kept ++ [])%list
    /\ sublist kept
         (firstn 10
            (task_queue
               (snd (submit_task "0000000a" 1 "risk_assessment"
                       ["position_sizing"] Examples.some_input 5 None
                       Examples.both_active)))).
Proof.
  destruct (assign_tasks_queue_after elements (fun _ => 0.5%Q) (fun _ => 9)
              (snd (submit_task "0000000a" 1 "risk_assessment"
                      ["position_sizing"] Examples.some_input 5 None
                      Examples.both_active))
              0)
    as [kept [Hq [Hsub _]]].
  - repeat constructor. simpl. tauto.
  - exists kept. split; [exact Hq | exact Hsub].
Defined.

Lemma assign_one_keeps_items (set_order : gset string -> list string)
    (rand : nat -> Q) (now : Z) (task : Task) (st : Orchestrator)
    (cursor : nat) (aid : string) (a : AgentState) (item : TaskItem) :
  PyDict.get (agents st) aid = Some a -> In item (agent_task_queue a) ->
  exists a',
    PyDict.get (agents (snd (fst (assign_one set_order rand now task st cursor)))) aid
    = Some a'
    /\ In item (agent_task_queue a').
Proof.
  intros Hget Hin.
  destruct (assign_one_cases set_order rand now task st cursor)
    as [[_ [_ ->]] | [[_ [-> _]] | [_ [_ [sel [a0 [_ [_ [Hget0 [_ ->]]]]]]]]]];
    eauto.
  simpl. destruct (String.eqb_spec sel aid) as [-> | Hne].
  - rewrite get_set_eq. eexists. split; [reflexivity |]. simpl.
    rewrite Hget in Hget0. injection Hget0 as <-. apply in_or_app. now left.
  - rewrite get_set_ne by assumption. eauto.
Qed.

Lemma assign_loop_keeps_items (set_order : gset string -> list string)
    (rand : nat -> Q) (clock : nat -> Z) (batch : list Task) :
  forall i st cursor aid a item,
    PyDict.get (agents st) aid = Some a -> In item (agent_task_queue a) ->
    exists a',
      PyDict.get
        (agents (snd (fst (assign_loop set_order rand clock batch i st cursor)))) aid
      = Some a'
      /\ In item (agent_task_queue a').
Proof.
  induction batch as [| task rest IH]; intros i st cursor aid a item Hget Hin;
    [eauto |].
  simpl.
  destruct (assign_one_keeps_items set_order rand (clock i) task st cursor
              aid a item Hget Hin) as [a1 [Hget1 Hin1]].
  destruct (assign_one set_order rand (clock i) task st cursor)
    as [[[task' moved] st1] cursor1].
  simpl in Hget1.
  destruct (IH (S i) st1 cursor1 aid a1 item Hget1 Hin1) as [a2 [Hget2 Hin2]].
  destruct (assign_loop set_order rand clock rest (S i) st1 cursor1)
    as [[[rest' assigned] st2] cursor2].
  eauto.
Qed.

(** Every task the loop leaves as assigned sits in the local queue of
    the agent it names. *)
Lemma assign_loop_dispatched (set_order : gset string -> list string)
    (rand : nat -> Q) (clock : nat -> Z) (batch : list Task) :
  forall i st cursor,
    let out := assign_loop set_order rand clock batch i st cursor in
    forall t, In t (snd (fst (fst out))) -> task_status t = Assigned ->
      exists aid a item,
        assigned_agent t = Some aid
        /\ PyDict.get (agents (snd (fst out))) aid = Some a
        /\ In item (agent_task_queue a)
        /\ ti_task_id item = task_id t.
Proof.
  induction batch as [| task rest IH]; intros i st cursor; cbv zeta;
    [intros t [] |].
  simpl.
  pose proof (assign_one_cases set_order rand (clock i) task st cursor) as Hone.
  destruct (assign_one set_order rand (clock i) task st cursor)
    as [[[task' moved] st1] cursor1].
  cbv zeta in Hone. simpl in Hone.
  specialize (IH (S i) st1 cursor1). cbv zeta in IH.
  pose proof (assign_loop_keeps_items set_order rand clock rest (S i) st1 cursor1)
    as Hkeep.
  destruct (assign_loop set_order rand clock rest (S i) st1 cursor1)
    as [[[rest' assigned] st2] cursor2].
  simpl in *. intros t Hin Hst.
  destruct Hone as [[-> _] | [[-> [_ [_ [_ Hbad]]]] | [-> [_ [sel [a [_ [_ [Hget [Ht ->]]]]]]]]]].
  - now apply IH.
  - destruct Hin as [<- | Hin]; [| now apply IH].
    destruct Hbad as [Hbad | Hbad]; rewrite Hbad in Hst; discriminate.
  - destruct Hin as [<- | Hin]; [| now apply IH].
    destruct (Hkeep sel
                (set_agent_task_queue a
                   (agent_task_queue a ++ [make_task_item task' (clock i)])%list)
                (make_task_item task' (clock i)))
      as [a2 [Hget2 Hin2]].
    + simpl. apply get_set_eq.
    + simpl. apply in_or_app. right. now left.
    + exists sel, a2, (make_task_item task' (clock i)).
      split; [rewrite Ht; reflexivity |]. repeat split; assumption.
Qed.

(** X27. Every execution dispatched by an assignment cycle is backed by
    the local queue of its agent: for each coroutine
    [_process_agent_task(agent, task)] created by [_assign_tasks], the
    agent is registered after the cycle and its local queue holds an item
    for that task. *)
Theorem assign_tasks_dispatch_is_queued (set_order : gset string -> list string)
    (rand : nat -> Q) (clock : nat -> Z) (st : Orchestrator) (cursor : nat)
    (aid tid : string) :
  In (aid, tid) (fst (fst (_assign_tasks set_order rand clock st cursor))) ->
  exists a item,
    PyDict.get (agents (snd (fst (_assign_tasks set_order rand clock st cursor)))) aid
    = Some a
    /\ In item (agent_task_queue a)
    /\ ti_task_id item = tid.
Proof.
  rewrite assign_tasks_unfold.
  destruct (is_empty (task_queue st)); [intros [] |]. cbv zeta.
  pose proof (assign_loop_dispatched set_order rand clock
                (firstn (Nat.min 10 (List.length (task_queue st))) (task_queue st))
                0%nat st cursor) as Hdisp.
  destruct (assign_loop set_order rand clock
              (firstn (Nat.min 10 (List.length (task_queue st))) (task_queue st))
              0 st cursor)
    as [[[batch' assigned] st1] cursor1].
  cbv zeta in Hdisp. simpl in *. intros Hin.
  unfold dispatches in Hin. apply in_flat_map in Hin.
  destruct Hin as [t [Ht Hin]].
  destruct (task_status t) eqn:Hs; try contradiction.
  destruct (Hdisp t Ht Hs) as [sel [a [item [Hsel [Hget [Hitem Hid]]]]]].
  rewrite Hsel in Hin. destruct (String.eqb sel ""); [contradiction |].
  destruct Hin as [[= <- <-] | []].
  exists a, item. repeat split; assumption.
Qed.

Lemma assign_tasks_dispatch_is_queued_witness :
  exists a item,
    PyDict.get
      (agents
         (snd (fst (_assign_tasks elements (fun _ => 0.5%Q) (fun _ => 9)
                      (snd (submit_task "0000000a" 1 "risk_assessment"
                              ["position_sizing"] Examples.some_input 5 None
                              Examples.both_active))
                      0))))
      "risk_agent_00000001" = Some a
    /\ In item (agent_task_queue a)
    /\ ti_task_id item = "TASK_0000000a".
Proof.
  apply (assign_tasks_dispatch_is_queued elements (fun _ => 0.5%Q) (fun _ => 9)
           (snd (submit_task "0000000a" 1 "risk_assessment"
                   ["position_sizing"] Examples.some_input 5 None
                   Examples.both_active))
           0 "risk_agent_00000001" "TASK_0000000a").
  vm_compute. tauto.
Defined.

Lemma score_all_ok {S} (score : string -> S -> result Q * S)
    (ids : list string) :
  (forall aid, In aid ids -> forall s, exists x s', score aid s = (Ok x, s')) ->
  forall acc s,
  exists d s',
    score_all score ids acc s = (Ok d, s')
    /\ (ids <> [] \/ acc <> [] -> d <> []).
Proof.
  induction ids as [| x ids IH]; simpl; intros Hok acc s.
  - exists acc, s. split; [reflexivity |]. intros [H | H]; [congruence | exact H].
  - destruct (Hok x (or_introl eq_refl) s) as [v [s1 ->]].
    destruct (IH (fun aid Hin => Hok aid (or_intror Hin)) (PyDict.set acc x v) s1)
      as [d [s' [Hrun Hne]]].
    exists d, s'. split; [assumption |]. intros _. apply Hne. right.
    destruct acc as [| [k0 v0] acc]; simpl; [discriminate |].
    destruct (String.eqb k0 x); discriminate.
Qed.

Lemma argmax_ok (d : list (string * Q)) : d <> [] -> exists k, argmax d = Ok k.
Proof. destruct d as [| kv d]; [contradiction | intros _; simpl; eauto]. Qed.

Lemma collaborative_score_ok (st : Orchestrator) (task : Task) (aid : string) :
  agent_is_eligible st aid = Ok true -> requirements task <> [] ->
  exists s, collaborative_score st task aid = Ok s.
Proof.
  intros Hel Hreq. apply agent_is_eligible_true in Hel.
  destruct Hel as [a [c [Hg [Hc _]]]]. unfold collaborative_score.
  rewrite Hg, Hc. destruct (requirements task); [contradiction |]. simpl. eauto.
Qed.

Lemma select_collaborative_ok (st : Orchestrator) (task : Task)
    (ids : list string) :
  ids <> [] -> (forall aid, In aid ids -> agent_is_eligible st aid = Ok true) ->
  requirements task <> [] ->
  exists k, _select_agent_collaborative st task ids = Ok k.
Proof.
  intros Hne Hel Hreq. unfold _select_agent_collaborative.
  destruct (score_all_ok (fun aid (_ : unit) => (collaborative_score st task aid, tt))
              ids) with (acc := @nil (string * Q)) (s := tt) as [d [u [-> Hd]]].
  - intros aid Hin s. destruct (collaborative_score_ok st task aid (Hel aid Hin) Hreq)
      as [x ->]. eauto.
  - apply argmax_ok. apply Hd. now left.
Qed.

Lemma select_competitive_ok (rand : nat -> Q) (st : Orchestrator) (task : Task)
    (ids : list string) (cursor : nat) :
  ids <> [] -> (forall aid, In aid ids -> agent_is_eligible st aid = Ok true) ->
  exists k cursor',
    _select_agent_competitive rand st task ids cursor = (Ok k, cursor').
Proof.
  intros Hne Hel. unfold _select_agent_competitive.
  destruct (score_all_ok (competitive_bid rand st task) ids)
    with (acc := @nil (string * Q)) (s := cursor) as [d [c' [-> Hd]]].
  - intros aid Hin s. pose proof (Hel aid Hin) as H.
    apply agent_is_eligible_true in H. destruct H as [a [_ [Hg _]]].
    unfold competitive_bid. rewrite Hg. simpl. eauto.
  - destruct (argmax_ok d) as [k ->]; [apply Hd; now left |]. eauto.
Qed.

(** With eligible candidates and a task that has requirements, the
    selection neither raises nor answers [None]. *)
Lemma select_agent_ok (rand : nat -> Q) (st : Orchestrator) (task : Task)
    (ids : list string) (cursor : nat) :
  ids <> [] -> (forall aid, In aid ids -> agent_is_eligible st aid = Ok true) ->
  requirements task <> [] ->
  exists sel cursor',
    _select_agent_for_task rand st task ids cursor = (Ok (Some sel), cursor').
Proof.
  intros Hne Hel Hreq. unfold _select_agent_for_task.
  destruct ids as [| a0 [| a1 rest]]; [contradiction | eauto |].
  set (ids := a0 :: a1 :: rest) in *.
  destruct (select_collaborative_ok st task ids Hne Hel Hreq) as [kc Hkc].
  destruct (select_competitive_ok rand st task ids cursor Hne Hel) as [kp [cp Hkp]].
  destruct (coordination_mode st).
  - rewrite Hkc. eauto.
  - rewrite Hkp. eauto.
  - unfold _select_agent_hybrid. rewrite Hkc, Hkp.
    destruct ((8 <=? priority task) || (3 <? List.length (requirements task))%nat);
      [eauto |].
    destruct (priority task <=? 3); [eauto |].
    destruct (Qlt_bool 0.3 (rand cp)); eauto.
Qed.

Lemma filter_eligible_ok (st : Orchestrator) (ids : list string) :
  (forall aid, In aid ids ->
               exists a c, PyDict.get (agents st) aid = Some a
                           /\ PyDict.get (agent_configs st) aid = Some c) ->
  exists l, filter_eligible st ids = Ok l.
Proof.
  induction ids as [| x ids IH]; simpl; intros Hreg; [eauto |].
  destruct (Hreg x (or_introl eq_refl)) as [a [c [Hg Hc]]].
  destruct (IH (fun aid Hin => Hreg aid (or_intror Hin))) as [l ->].
  unfold agent_is_eligible. rewrite Hg, Hc.
  destruct (negb (AgentStatus_eqb (status a) ACTIVE)); [eauto |].
  destruct (negb (Z.of_nat (List.length (agent_task_queue a))
                  <? max_concurrent_tasks (resource_limits c))); eauto.
Qed.

(** A cycle over a queue holding one pending task for which the registry
    is consistent and names an eligible agent. *)
Lemma assign_single_task (set_order : gset string -> list string)
    (rand : nat -> Q) (clock : nat -> Z) (s : Orchestrator) (task : Task)
    (cursor : nat) (req0 aid0 : string) (ids0 : list string) :
  (forall x, Permutation (set_order x) (elements x)) ->
  task_queue s = [task] ->
  task_status task = Pending ->
  requirements task <> [] ->
  PyDict.get (agents s) "" = None ->
  (forall req ids aid,
      In req (requirements task) -> capability_registry s !! req = Some ids ->
      In aid ids ->
      exists a c, PyDict.get (agents s) aid = Some a
                  /\ PyDict.get (agent_configs s) aid = Some c) ->
  In req0 (requirements task) -> capability_registry s !! req0 = Some ids0 ->
  In aid0 ids0 -> agent_is_eligible s aid0 = Ok true ->
  let out := _assign_tasks set_order rand clock s cursor in
  exists sel a,
    fst (fst out) = [(sel, task_id task)]
    /\ agent_is_eligible s sel = Ok true
    /\ task_queue (snd (fst out)) = []
    /\ PyDict.get (agents (snd (fst out))) sel = Some a
    /\ In (make_task_item task (clock 0%nat)) (agent_task_queue a).
Proof.
  intros Hperm Hq Hpending Hreq Hnoempty Hreg Hreq0 Hreg0 Hin0 Hel0.
  set (cands := requirement_candidates s (requirements task)).
  assert (Hcand : forall aid, In aid (set_order cands) <-> aid ∈ cands).
  { intros aid. rewrite <- list_elem_of_In, (Hperm cands). apply elem_of_elements. }
  assert (Hc0 : aid0 ∈ cands).
  { apply requirement_candidates_elem. exists req0, ids0. tauto. }
  assert (Hfind : exists l, _find_suitable_agents set_order s task = Ok l
                            /\ l <> []
                            /\ forall aid, In aid l -> agent_is_eligible s aid = Ok true).
  { unfold _find_suitable_agents. fold cands.
    destruct (decide (cands = ∅)) as [Hempty | Hne].
    { rewrite Hempty in Hc0. now apply not_elem_of_empty in Hc0. }
    destruct (filter_eligible_ok s (set_order cands)) as [l Hl].
    { intros aid Hin. apply Hcand in Hin.
      apply requirement_candidates_elem in Hin.
      destruct Hin as [req [ids [H1 [H2 H3]]]]. eauto. }
    exists l. split; [assumption |].
    destruct (filter_eligible_spec s _ l Hl) as [Hmem _]. split.
    - intros Hnil. assert (Hin : In aid0 l) by (apply Hmem; split; [now apply Hcand | assumption]).
      rewrite Hnil in Hin. contradiction.
    - intros aid Hin. now apply Hmem in Hin. }
  destruct Hfind as [l [Hfind [Hne Hel]]].
  destruct (select_agent_ok rand s task l cursor Hne Hel Hreq) as [sel [cursor' Hsel]].
  assert (Hsel_in : In sel l) by (now apply select_agent_member in Hsel).
  pose proof (Hel sel Hsel_in) as Hsel_el.
  assert (Hget : exists a, PyDict.get (agents s) sel = Some a).
  { apply agent_is_eligible_true in Hsel_el. destruct Hsel_el as [a [_ [Hg _]]]. eauto. }
  destruct Hget as [a Hget].
  assert (Hsel_ne : String.eqb sel "" = false).
  { apply String.eqb_neq. intros ->. congruence. }
  set (task1 := set_task_status (set_assigned_agent task (Some sel)) Assigned).
  set (a' := set_agent_task_queue a
               (agent_task_queue a ++ [make_task_item task1 (clock 0%nat)])%list).
  assert (Hone : assign_one set_order rand (clock 0%nat) task s cursor
                 = ((task1, true),
                    set_agents s (PyDict.set (agents s) sel a'), cursor')).
  { unfold assign_one. rewrite Hpending, Hfind. simpl.
    destruct l as [| l0 lrest]; [contradiction |].
    rewrite Hsel, Hsel_ne, Hget. reflexivity. }
  cbv zeta. rewrite assign_tasks_unfold, Hq. cbn [is_empty List.length Nat.min firstn skipn].
  cbv zeta. cbn [assign_loop]. rewrite Hone. cbn [fst snd].
  exists sel, a'. split.
  { unfold dispatches. simpl. now rewrite Hsel_ne. }
  split; [assumption |]. split.
  { simpl. now rewrite Task_eqb_refl. }
  split; [simpl; apply get_set_eq |].
  simpl. apply in_or_app. right. now left.
Qed.

(** X28. Submission followed by an assignment cycle: when the queue is
    empty, the registry names only registered agents with a
    configuration, no agent has the empty identifier, and some agent
    listed under a requirement of the task is eligible, a valid
    submission is assigned by the next cycle. The cycle dispatches exactly
    that task, to an eligible agent whose local queue receives it with the
    clamped priority, and the global queue is empty again. *)
Theorem submitted_task_is_assigned (set_order : gset string -> list string)
    (rand : nat -> Q) (clock : nat -> Z) (hex8 : string) (now : Z)
    (ttype : string) (reqs : list string) (input : list (string * string))
    (prio : Z) (dl : option Z) (st : Orchestrator) (cursor : nat)
    (req0 aid0 : string) (ids0 : list string) :
  (forall x, Permutation (set_order x) (elements x)) ->
  task_queue st = [] ->
  reqs <> [] -> input <> [] ->
  PyDict.get (agents st) "" = None ->
  (forall req ids aid,
      In req reqs -> capability_registry st !! req = Some ids -> In aid ids ->
      exists a c, PyDict.get (agents st) aid = Some a
                  /\ PyDict.get (agent_configs st) aid = Some c) ->
  In req0 reqs -> capability_registry st !! req0 = Some ids0 ->
  In aid0 ids0 -> agent_is_eligible st aid0 = Ok true ->
  let st1 := snd (submit_task hex8 now ttype reqs input prio dl st) in
  let out := _assign_tasks set_order rand clock st1 cursor in
  exists sel a item,
    fst (fst out) = [(sel, make_task_id hex8)]
    /\ agent_is_eligible st sel = Ok true
    /\ task_queue (snd (fst out)) = []
    /\ PyDict.get (agents (snd (fst out))) sel = Some a
    /\ In item (agent_task_queue a)
    /\ ti_task_id item = make_task_id hex8
    /\ ti_priority item = Some (Z.max 1 (Z.min 10 prio)).
Proof.
  intros Hperm Hq Hreqs Hinput Hnoempty Hreg Hreq0 Hreg0 Hin0 Hel0 st1 out.
  set (task := new_task hex8 now ttype reqs input prio dl).
  assert (Hst1 : st1
                 = set_scheduled_assign_cycles (set_task_queue st [task])
                     (S (scheduled_assign_cycles st))).
  { unfold st1. rewrite (submit_task_accepted _ _ _ _ _ _ _ _ Hreqs Hinput).
    simpl. now rewrite Hq. }
  unfold out. clear out. rewrite Hst1. clear Hst1 st1.
  destruct (assign_single_task set_order rand clock
              (set_scheduled_assign_cycles (set_task_queue st [task])
                 (S (scheduled_assign_cycles st)))
              task cursor req0 aid0 ids0 Hperm eq_refl eq_refl Hreqs Hnoempty
              Hreg Hreq0 Hreg0 Hin0 Hel0)
    as [sel [a [Hd [Hel [Hqueue [Hget Hitem]]]]]].
  exists sel, a, (make_task_item task (clock 0%nat)).
  split; [exact Hd |]. split; [exact Hel |].
  split; [exact Hqueue |]. split; [exact Hget |]. split; [exact Hitem |].
  split; reflexivity.
Qed.

Lemma submitted_task_is_assigned_witness :
  exists sel a item,
    fst (fst (_assign_tasks elements (fun _ => 0.5%Q) (fun _ => 9)
                (snd (submit_task "0000000a" 1 "risk_assessment"
                        ["position_sizing"] Examples.some_input 50 None
                        (Examples.single "risk_agent_00000001" ACTIVE 0 [])))
                0))
    = [(sel, "TASK_0000000a")]
    /\ PyDict.get
         (agents
            (snd (fst (_assign_tasks elements (fun _ => 0.5%Q) (fun _ => 9)
                         (snd (submit_task "0000000a" 1 "risk_assessment"
                                 ["position_sizing"] Examples.some_input 50 None
                                 (Examples.single "risk_agent_00000001" ACTIVE 0 [])))
                         0))))
         sel = Some a
    /\ In item (agent_task_queue a)
    /\ ti_priority item = Some 10.
Proof.
  destruct (submitted_task_is_assigned elements (fun _ => 0.5%Q) (fun _ => 9)
              "0000000a" 1 "risk_assessment" ["position_sizing"]
              Examples.some_input 50 None
              (Examples.single "risk_agent_00000001" ACTIVE 0 []) 0
              "position_sizing" "risk_agent_00000001" ["risk_agent_00000001"])
    as [sel [a [item [Hd [_ [_ [Hget [Hin [_ Hprio]]]]]]]]].
  - intros x. reflexivity.
  - reflexivity.
  - discriminate.
  - discriminate.
  - reflexivity.
  - intros req ids aid [<- | []] Hreg Hin.
    assert (Hids : ids = ["risk_agent_00000001"]).
    { unfold Examples.single in Hreg. simpl in Hreg.
      rewrite lookup_singleton_eq in Hreg. now injection Hreg as <-. }
    subst ids. destruct Hin as [<- | []].
    eexists. eexists. split; reflexivity.
  - simpl. tauto.
  - unfold Examples.single. simpl. apply lookup_singleton_eq.
  - simpl. tauto.
  - vm_compute. reflexivity.
  - exists sel, a, item. split; [exact Hd |]. split; [exact Hget |].
    split; [exact Hin | exact Hprio].
Defined.

(** ** Completion handling *)

Lemma update_utilization_ok (st : Orchestrator)
    (items : list (string * AgentState)) :
  (forall aid a, In (aid, a) items ->
                 exists c, PyDict.get (agent_configs st) aid = Some c) ->
  forall util, exists util', update_utilization st items util = (Ok tt, util').
Proof.
  induction items as [| [aid a] items IH]; simpl; intros Hcfg util; [eauto |].
  destruct (Hcfg aid a (or_introl eq_refl)) as [c ->]. apply IH. eauto.
Qed.

Lemma last_n_snoc {X} (n : nat) (l : list X) (x : X) :
  (0 < n)%nat ->
  exists pre, last_n n (l ++ [x])%list = (pre ++ [x])%list
              /\ (List.length (last_n n (l ++ [x])%list) <= n)%nat.
Proof.
  intros Hn. unfold last_n. rewrite List.length_app. simpl.
  set (k := (List.length l + 1 - n)%nat).
  assert (Hk : (k <= List.length l)%nat) by (unfold k; lia).
  exists (skipn k l). split.
  - rewrite skipn_app. replace (k - List.length l)%nat with 0%nat by lia.
    reflexivity.
  - rewrite List.length_skipn, List.length_app. simpl. unfold k. lia.
Qed.

Lemma Qshare_sum (c f : Z) :
  0 <= c -> 0 <= f -> 0 < c + f ->
  (inject_Z c / inject_Z (c + f) + inject_Z f / inject_Z (c + f) == 1)%Q
  /\ (0 <= inject_Z f / inject_Z (c + f) <= 1)%Q.
Proof.
  intros Hc Hf Ht.
  assert (Htq : (0 < inject_Z (c + f))%Q)
    by (change 0%Q with (inject_Z 0); now rewrite <- Zlt_Qlt).
  assert (Hfq : (0 <= inject_Z f)%Q)
    by (change 0%Q with (inject_Z 0); now rewrite <- Zle_Qle).
  assert (Hft : (inject_Z f <= inject_Z (c + f))%Q) by (rewrite <- Zle_Qle; lia).
  split.
  - unfold Qdiv. rewrite <- Qmult_plus_distr_l, <- inject_Z_plus.
    apply Qmult_inv_r. lra.
  - split.
    + apply Qle_shift_div_l; [assumption | lra].
    + apply Qle_shift_div_r; [assumption | lra].
Qed.

(** X29. Handling a completion, when every registered agent has a
    configuration and the counters are not negative: the call does not
    raise; exactly one of the system counters and one of the counters of
    the agent grows by one; the history ends with the new record and never
    holds more than 10000 records; and afterwards the system throughput
    and the error rate add up to 1, the error rate lying in [0, 1]. *)
Theorem handle_completion_accounts (aid tid : string) (success : bool)
    (start_time : option Z) (now1 now2 : Z) (st : Orchestrator)
    (m : SystemMetrics) :
  all_configured st ->
  0 <= tasks_completed m -> 0 <= tasks_failed m ->
  exists st' m',
    _handle_task_completion aid tid success start_time now1 now2 (st, m)
    = (Ok tt, (st', m'))
    /\ tasks_completed m' = (if success then tasks_completed m + 1 else tasks_completed m)
    /\ tasks_failed m' = (if success then tasks_failed m else tasks_failed m + 1)
    /\ (system_throughput m' + error_rate m' == 1)%Q
    /\ (0 <= error_rate m' <= 1)%Q
    /\ Z.of_nat (List.length (task_history st')) <= 10000
    /\ (exists pre e,
          task_history st' = (pre ++ [e])%list
          /\ h_task_id e = tid /\ h_agent_id e = aid /\ h_success e = success)
    /\ (forall a, PyDict.get (agents st) aid = Some a ->
                  exists a',
                    PyDict.get (agents st') aid = Some a'
                    /\ completed_tasks a' + failed_tasks a'
                       = completed_tasks a + failed_tasks a + 1
                    /\ agent_task_queue a' = agent_task_queue a).
Proof.
  intros Hcfg Hc Hf. unfold _handle_task_completion.
  set (entry := {| h_task_id := tid; h_agent_id := aid; h_success := success;
                   h_processing_time := _; h_timestamp := now2 |}).
  set (st1 := match PyDict.get (agents st) aid with
              | Some a => set_agents st (PyDict.set (agents st) aid (count_completion a success))
              | None => st
              end).
  set (st2 := set_task_history st1 (deque_append (task_history st1) entry)).
  set (m1 := {| tasks_completed := _; tasks_failed := _;
                avg_task_completion_time := avg_task_completion_time m;
                agent_utilization := agent_utilization m;
                system_throughput := system_throughput m;
                error_rate := error_rate m |}).
  assert (Hcfg2 : forall k a, In (k, a) (agents st2) ->
                              exists c, PyDict.get (agent_configs st2) k = Some c).
  { intros k a Hin. unfold st2, st1 in *.
    destruct (PyDict.get (agents st) aid) as [a0 |] eqn:Hget; simpl in *.
    - apply In_set_cases in Hin. destruct Hin as [[= -> _] | Hin].
      + apply get_Some_In in Hget. eapply Hcfg. eassumption.
      + eapply Hcfg. eassumption.
    - eapply Hcfg. eassumption. }
  destruct (update_utilization_ok st2 (agents st2) Hcfg2 (agent_utilization m1))
    as [util Hutil].
  assert (Htotal : 0 < tasks_completed m1 + tasks_failed m1)
    by (unfold m1; simpl; destruct success; lia).
  unfold _update_system_metrics. rewrite Hutil.
  apply Z.ltb_lt in Htotal. rewrite Htotal. apply Z.ltb_lt in Htotal.
  eexists. eexists. split; [reflexivity |]. simpl.
  split; [reflexivity |]. split; [reflexivity |].
  destruct (Qshare_sum (if success then tasks_completed m + 1 else tasks_completed m)
              (if success then tasks_failed m else tasks_failed m + 1))
    as [Hsum Hrange]; [destruct success; lia | destruct success; lia
                      | unfold m1 in Htotal; simpl in Htotal; exact Htotal |].
  split; [exact Hsum |]. split; [exact Hrange |].
  destruct (last_n_snoc history_maxlen (task_history st1) entry) as [pre [Hpre Hlen]];
    [unfold history_maxlen; lia |].
  split.
  { unfold deque_append. unfold history_maxlen in *. lia. }
  split.
  { exists pre, entry. split; [exact Hpre |]. repeat split. }
  intros a Hget. unfold st1. rewrite Hget. simpl.
  rewrite get_set_eq. eexists. split; [reflexivity |].
  split; [simpl; destruct success; lia | reflexivity].
Qed.

Lemma handle_completion_accounts_witness :
  exists st' m',
    _handle_task_completion "risk_agent_00000001" "TASK_0000000a" false
      (Some 1000000) 3000000 3000001
      (Examples.two_agents, initial_system_metrics)
    = (Ok tt, (st', m'))
    /\ tasks_failed m' = 1
    /\ (system_throughput m' + error_rate m' == 1)%Q.
Proof.
  destruct (handle_completion_accounts "risk_agent_00000001" "TASK_0000000a"
              false (Some 1000000) 3000000 3000001 Examples.two_agents
              initial_system_metrics)
    as [st' [m' [Hrun [_ [Hf [Hsum _]]]]]].
  - intros aid a Hin. unfold Examples.two_agents in Hin. simpl in Hin.
    destruct Hin as [[= <- _] | [[= <- _] | []]]; eexists; reflexivity.
  - simpl. lia.
  - simpl. lia.
  - exists st', m'. split; [exact Hrun |]. split; [exact Hf | exact Hsum].
Defined.

(** ** Contribution provider *)

(** X30. The simulated contribution call: for random draws in [0, 1] and
    an agent whose success rate is not negative, it draws three numbers
    and returns a contribution in [0.3, 1] and a confidence in [0.5, 1]
    after a sleep of 0.1 to 1 second; when the agent is no longer
    registered after the sleep it raises [KeyError]. *)
Theorem get_agent_contribution_range (rand : nat -> Q) (st : Orchestrator)
    (aid : string) (cursor : nat) :
  (forall i, (0 <= rand i <= 1)%Q) ->
  match PyDict.get (agents st) aid with
  | None =>
      _get_agent_contribution rand st aid cursor
      = (Raise (KeyError aid), S cursor)
  | Some a =>
      (0 <= success_rate (performance_metrics a))%Q ->
      exists r,
        _get_agent_contribution rand st aid cursor = (Ok r, S (S (S cursor)))
        /\ (0.3 <= reply_contribution r <= 1)%Q
        /\ (0.5 <= reply_confidence r <= 1)%Q
        /\ (0.1 <= reply_processing_time r <= 1)%Q
  end.
Proof.
  intros Hrand. unfold _get_agent_contribution, uniform.
  destruct (PyDict.get (agents st) aid) as [a |]; [| reflexivity].
  intros Hsr. eexists. split; [reflexivity |]. simpl.
  pose proof (Hrand cursor) as H0. pose proof (Hrand (S cursor)) as H1.
  pose proof (Hrand (S (S cursor))) as H2.
  repeat split; unfold py_min; qcases; nra.
Qed.

Lemma get_agent_contribution_range_witness :
  exists r,
    _get_agent_contribution (fun _ => 0.5%Q) Examples.both_active
      "risk_agent_00000001" 0 = (Ok r, 3%nat)
    /\ (0.3 <= reply_contribution r <= 1)%Q.
Proof.
  pose proof (get_agent_contribution_range (fun _ => 0.5%Q) Examples.both_active
                "risk_agent_00000001" 0) as H.
  change (PyDict.get (agents Examples.both_active) "risk_agent_00000001")
    with (Some (set_status (Examples.agent "risk_agent_00000001" INITIALIZING 0 []) ACTIVE))
    in H.
  destruct H as [r [Hrun [Hc _]]].
  - intros i. lra.
  - simpl. lra.
  - exists r. split; [exact Hrun | exact Hc].
Defined.
